(** * klikvoorkamers-notifier: the polling, applying and notifying cycle

    A shallow embedding of [main.py].  The program is sequential glue around
    an HTTP session and a messaging bot, so the embedding is a small monad
    with a mutable store (session headers, the module-level [login_load]
    dictionary, the set object [known_listings]), Python exceptions, and a
    list of the effects performed (requests issued, logger calls, messages
    handed to the bot).  The outside world (the web site, the bot API) is an
    interface the definitions are parametric in. *)

From stdpp Require Import base option list strings gmap sets.
From Stdlib Require Import ZArith Ascii Sorted.

Set Warnings "-register-all,-clear-no-such-hyp".

Open Scope string_scope.
Open Scope Z_scope.
Open Scope list_scope.

(** ** Values decoded from JSON (and the settings file)

    A dict is the list of its items, with pairwise distinct keys, in
    insertion order.  Numbers are the integers; fractional numbers are not
    represented. *)

Inductive json :=
  | JNull
  | JBool (b : bool)
  | JNum (n : Z)
  | JStr (s : string)
  | JArr (l : list json)
  | JObj (m : list (string * json)).

(** Exceptions the program meets.  Only [RequestException] (and, inside the
    notifier, [TelegramError]) has a handler; the others leave every function
    of the file and end the process. *)
Inductive exn :=
  | RequestException (e : string)
  | TelegramError (e : string)
  | KeyError (k : string)
  | TypeError
  | ValueError.

(** [d[k]] for a string key: found in a dict, [KeyError] when the dict lacks
    the key, [TypeError] on any value that is not a dict. *)
Fixpoint assoc (k : string) (m : list (string * json)) : option json :=
  match m with
  | [] => None
  | (k', v) :: m' => if String.eqb k' k then Some v else assoc k m'
  end.

Definition subscript (x : json) (k : string) : exn + json :=
  match x with
  | JObj m => match assoc k m with
              | Some v => inr v
              | None => inl (KeyError k)
              end
  | _ => inl TypeError
  end.

(** [for x in v]: a list gives its elements, a dict its keys, a string its
    characters; the other values are not iterable. *)
Fixpoint chars (s : string) : list json :=
  match s with
  | EmptyString => []
  | String c s' => JStr (String c EmptyString) :: chars s'
  end.

Definition py_iter (v : json) : exn + list json :=
  match v with
  | JArr l => inr l
  | JObj m => inr (map (λ kv, JStr kv.1) m)
  | JStr s => inr (chars s)
  | _ => inl TypeError
  end.

(** Truth value of [if v:] and [not v]. *)
Definition truthy (v : json) : bool :=
  match v with
  | JNull => false
  | JBool b => b
  | JNum n => negb (n =? 0)
  | JStr s => negb (String.eqb s "")
  | JArr l => match l with [] => false | _ :: _ => true end
  | JObj m => match m with [] => false | _ :: _ => true end
  end.

(** [v == "..."] against a string literal. *)
Definition eq_str (v : json) (lit : string) : bool :=
  match v with
  | JStr s => String.eqb s lit
  | _ => false
  end.

(** Elements of a Python [set]: the hashable values, with [True == 1] and
    [False == 0] as Python equates them.  Lists and dicts are unhashable. *)
Inductive hkey :=
  | HNone
  | HNum (n : Z)
  | HStr (s : string).

#[global] Instance hkey_eq_dec : EqDecision hkey.
Proof. solve_decision. Defined.

#[global] Instance hkey_countable : Countable hkey.
Proof.
  refine (inj_countable'
    (λ k, match k with
          | HNone => inl ()
          | HNum n => inr (inl n)
          | HStr s => inr (inr s)
          end)
    (λ x, match x with
          | inl _ => HNone
          | inr (inl n) => HNum n
          | inr (inr s) => HStr s
          end) _).
  by intros [].
Defined.

Definition hash_key (v : json) : exn + hkey :=
  match v with
  | JNull => inr HNone
  | JBool b => inr (HNum (if b then 1 else 0))
  | JNum n => inr (HNum n)
  | JStr s => inr (HStr s)
  | JArr _ | JObj _ => inl TypeError
  end.

(** ** Constants of the module *)

Definition USER_AGENT : string :=
  "Mozilla/5.0 (Macintosh; Intel Mac OS X 10_15_7) " +:+
  "AppleWebKit/605.1.15 (KHTML, like Gecko) Version/17.4.1 Safari/605.1.15".
Definition LISTINGS_URL : string :=
  "https://www.klikvoorkamers.nl/en/offerings/now-for-rent/rooms/studios".
Definition PORTAL_URL_BASE : string := "https://www.klikvoorkamers.nl/portal".
Definition JSON_FRONTEND_URL_BASE : string := PORTAL_URL_BASE +:+ "/object/frontend".
Definition LISTINGS_API_URL : string :=
  JSON_FRONTEND_URL_BASE +:+ "/getallobjects/format/json".
Definition LOGIN_HASH_ID_URL : string :=
  PORTAL_URL_BASE +:+ "/account/frontend/getloginconfiguration/format/json".
Definition LOGIN_URL : string :=
  PORTAL_URL_BASE +:+ "/account/frontend/loginbyservice/format/json".
Definition REACTION_HASH_ID_URL : string :=
  PORTAL_URL_BASE +:+ "/core/frontend/getformsubmitonlyconfiguration/format/json".
Definition LISTING_DETAILS_URL : string :=
  JSON_FRONTEND_URL_BASE +:+ "/getobject/format/json".
Definition REACTION_URL : string := JSON_FRONTEND_URL_BASE +:+ "/react/format/json".

(** The line feed of the message template. *)
Definition nl : string := String (Ascii.ascii_of_nat 10) EmptyString.

(** ** Effects *)

Inductive request :=
  | GET (url : string)
  | POST (url : string) (data : gmap string json).

(** What [session.get]/[session.post] followed by [raise_for_status()] gives:
    a [RequestException] (no connection, time-out, status outside 2xx), or a
    response.  The body of a response either decodes ([inr]) or does not
    ([inl], an HTML page for one); [response.json()] then raises the
    [JSONDecodeError] of [requests], which is a [RequestException]. *)
Inductive response :=
  | Refused (e : string)
  | Answered (body : string + json).

Inductive level := DEBUG | INFO | WARNING | ERROR.

Inductive event :=
  | Requested (r : request)
  | Logged (lvl : level) (msg : string)
  | SendMessage (token : string) (chat_id : json) (text : string)
  | Persisted (ids : gset hkey)
  | Slept (secs : Z).

(** The collaborators outside the repository: the web site behind the
    session, the bot API, and the library functions [str] (as f-strings and
    the logger apply it) and [int(parse_qs(urlparse(u).query)[k][0])].

    Of the bot library: [bot_new] is the constructor [telegram.Bot(token=...)],
    which gives the message of the [InvalidToken] it raises, if it raises,
    and does so on the empty token; [bot_initialize] is the entry of
    [async with bot], which asks the bot API for the bot's identity and gives
    the message of the [TelegramError] raised there, if any;
    [bot_send_message] is one [send_message].  [InvalidToken] is a
    [TelegramError]. *)
Class Platform (W : Type) := {
  http : W → gmap string string → request → W * response;
  bot_new : string → option string;
  bot_initialize : W → string → W * option string;
  bot_send_message : W → string → json → string → W * option string;
  py_str : json → string;
  query_int : json → string → exn + Z;
  py_str_JStr : ∀ s, py_str (JStr s) = s;
  bot_new_empty : bot_new "" ≠ None
}.

(** The mutable objects the functions share. *)
Record state (W : Type) := State {
  world : W;
  headers : gmap string string;
  login_load : gmap string json;
  known_listings : gset hkey
}.
Arguments State {W}.
Arguments world {W}.
Arguments headers {W}.
Arguments login_load {W}.
Arguments known_listings {W}.

Inductive result (A : Type) :=
  | Ret (a : A)
  | Raise (e : exn).
Arguments Ret {A}.
Arguments Raise {A}.

Record out (W A : Type) := Out {
  res : result A;
  st : state W;
  evs : list event
}.
Arguments Out {W A}.
Arguments res {W A}.
Arguments st {W A}.
Arguments evs {W A}.

Definition M (W A : Type) : Type := state W → out W A.

Definition ret {W A} (a : A) : M W A := λ s, Out (Ret a) s [].

Definition raise {W A} (e : exn) : M W A := λ s, Out (Raise e) s [].

Definition bind {W A B} (m : M W A) (f : A → M W B) : M W B :=
  λ s, let o := m s in
       match res o with
       | Ret a => let o' := f a (st o) in Out (res o') (st o') (evs o ++ evs o')
       | Raise e => Out (Raise e) (st o) (evs o)
       end.

#[global] Instance M_ret {W} : MRet (M W) := λ A, ret.
#[global] Instance M_bind {W} : MBind (M W) := λ A B f m, bind m f.

(** [try: body / except requests.exceptions.RequestException as e: handler]. *)
Definition try_except_request {W A} (body : M W A) (handler : string → M W A) : M W A :=
  λ s, let o := body s in
       match res o with
       | Raise (RequestException e) =>
           let o' := handler e (st o) in Out (res o') (st o') (evs o ++ evs o')
       | _ => o
       end.

(** [try: body / except telegram.error.TelegramError as e: handler]. *)
Definition try_except_telegram {W A} (body : M W A) (handler : string → M W A) : M W A :=
  λ s, let o := body s in
       match res o with
       | Raise (TelegramError e) =>
           let o' := handler e (st o) in Out (res o') (st o') (evs o ++ evs o')
       | _ => o
       end.

(** [for x in l: body x]. *)
Fixpoint for_each {W A} (l : list A) (body : A → M W unit) : M W unit :=
  match l with
  | [] => mret ()
  | x :: l' => body x;; for_each l' body
  end.

Definition lift {W A} (r : exn + A) : M W A :=
  match r with
  | inl e => raise e
  | inr a => ret a
  end.

Definition emit {W} (e : event) : M W unit := λ s, Out (Ret ()) s [e].

Definition logger {W} (lvl : level) (msg : string) : M W unit := emit (Logged lvl msg).

(** ** The program *)

Section Program.
Context {W : Type} `{!Platform W}.

(** [response = session.get(url)] or [session.post(url, data=...)] together
    with the [response.raise_for_status()] that follows every one of them. *)
Definition session_request (r : request) : M W (string + json) :=
  λ s, let (w', a) := http (world s) (headers s) r in
       let s' := State w' (headers s) (login_load s) (known_listings s) in
       match a with
       | Refused e => Out (Raise (RequestException e)) s' [Requested r]
       | Answered body => Out (Ret body) s' [Requested r]
       end.

Definition session_get (url : string) : M W (string + json) :=
  session_request (GET url).

Definition session_post (url : string) (data : gmap string json) : M W (string + json) :=
  session_request (POST url data).

(** [response.json()]. *)
Definition response_json (body : string + json) : M W json :=
  match body with
  | inl e => raise (RequestException e)
  | inr v => ret v
  end.

(** [v[k]]. *)
Definition item (v : json) (k : string) : M W json := lift (subscript v k).

(** [session.headers.update({k: v})]. *)
Definition headers_update (k v : string) : M W unit :=
  λ s, Out (Ret ()) (State (world s) (<[k:=v]> (headers s)) (login_load s) (known_listings s)) [].

(** [login_load[k] = v], on the module-level dictionary. *)
Definition login_load_set (k : string) (v : json) : M W unit :=
  λ s, Out (Ret ()) (State (world s) (headers s) (<[k:=v]> (login_load s)) (known_listings s)) [].

Definition login_load_get : M W (gmap string json) :=
  λ s, Out (Ret (login_load s)) s [].

(** The set object [known_listings]: read, and [known_listings.add(k)]. *)
Definition known_listings_get : M W (gset hkey) :=
  λ s, Out (Ret (known_listings s)) s [].

Definition known_listings_add (k : hkey) : M W unit :=
  λ s, Out (Ret ()) (State (world s) (headers s) (login_load s) ({[k]} ∪ known_listings s)) [].

(** [bot = telegram.Bot(token=tg_token)]. *)
Definition bot_create (tg_token : string) : M W unit :=
  match bot_new tg_token with
  | Some e => raise (TelegramError e)
  | None => ret ()
  end.

(** The entry of [async with bot:]. *)
Definition bot_enter (tg_token : string) : M W unit :=
  λ s, let (w', r) := bot_initialize (world s) tg_token in
       let s' := State w' (headers s) (login_load s) (known_listings s) in
       match r with
       | Some e => Out (Raise (TelegramError e)) s' []
       | None => Out (Ret ()) s' []
       end.

(** [await bot.send_message(chat_id=chat_id, text=message)]. *)
Definition send_message (tg_token : string) (chat_id : json) (text : string) : M W unit :=
  λ s, let (w', r) := bot_send_message (world s) tg_token chat_id text in
       let s' := State w' (headers s) (login_load s) (known_listings s) in
       match r with
       | Some e => Out (Raise (TelegramError e)) s' [SendMessage tg_token chat_id text]
       | None => Out (Ret ()) s' [SendMessage tg_token chat_id text]
       end.

(** A [for] loop that rebinds a local variable. *)
Fixpoint for_fold {A B} (l : list A) (acc : B) (body : B → A → M W B) : M W B :=
  match l with
  | [] => mret acc
  | x :: l' => acc' ← body acc x; for_fold l' acc' body
  end.

(** *** [send_telegram_notification] (lines 58-85)

    The constructor of the bot (line 69) and the entry of [async with bot]
    (line 78) are outside the [try] of lines 81-85: what they raise leaves
    the function.  Leaving the block closes the bot's connections, which is
    taken to be silent.  The events recorded for the bot are the messages
    handed over for delivery.  [asyncio.run] runs the coroutine to its
    end. *)

Definition message_text (new_listing_id url_key total_rent : json) : string :=
  let new_listing_url := LISTINGS_URL +:+ "/details/" +:+ py_str url_key in
  "New listing available at " +:+ new_listing_url +:+ nl +:+
  "ID: " +:+ py_str new_listing_id +:+ nl +:+
  "Price: " +:+ py_str total_rent.

Definition send_telegram_notification
    (new_listing : json) (tg_token : string) (chat_ids : list json) : M W unit :=
  bot_create tg_token;;
  new_listing_id ← item new_listing "id";
  url_key ← item new_listing "urlKey";
  total_rent ← item new_listing "totalRent";
  let message := message_text new_listing_id url_key total_rent in
  bot_enter tg_token;;
  for_each chat_ids (λ chat_id,
    try_except_telegram
      (send_message tg_token chat_id message;;
       logger INFO ("Notification sent for listing ID: " +:+ py_str new_listing_id))
      (λ e, logger ERROR ("Error sending notification: " +:+ e))).

(** *** [apply_for_new_listing] (lines 88-129) *)

(** The dict [reaction_load] of lines 109-116. *)
Definition reaction_load (initial_data : json) (dwelling_id action_id : Z) : gmap string json :=
  <["add" := JNum action_id]>
    (<["dwellingID" := JNum dwelling_id]>
      (<["__hash__" := initial_data]>
        {["__id__" := JStr "Portal_Form_SubmitOnly"]})).

(** The body of the [try] (lines 98-126).  Inside the branch
    [action == "add"] the variable [action] is the string ["add"], which is
    written out where the source uses it as a key. *)
Definition apply_steps (listing listing_id : json) : M W unit :=
  id ← item listing "id";
  response ← session_post LISTING_DETAILS_URL {["id" := id]};
  body ← response_json response;
  result ← item body "result";
  reaction_data ← item result "reactionData";
  action ← item reaction_data "action";
  if eq_str action "add" then
    add_id ← item reaction_data "url";
    response ← session_get REACTION_HASH_ID_URL;
    body ← response_json response;
    form ← item body "form";
    elements ← item form "elements";
    hash ← item elements "__hash__";
    initial_data ← item hash "initialData";
    dwelling_id ← lift (query_int add_id "dwellingID");
    action_id ← lift (query_int add_id "add");
    response ← session_post REACTION_URL (reaction_load initial_data dwelling_id action_id);
    body ← response_json response;
    success ← item body "success";
    if truthy success then
      logger INFO ("Successfully applied: " +:+ py_str listing_id);;
      body ← response_json response;
      data ← item body "reactionData";
      logger DEBUG (py_str data)
    else
      logger WARNING ("Something went wrong: " +:+ py_str listing_id)
  else
    logger INFO ("Already applied? " +:+ py_str listing_id).

Definition apply_for_new_listing (listing : json) : M W unit :=
  listing_id ← item listing "id";
  try_except_request
    (apply_steps listing listing_id)
    (λ e, logger ERROR
            ("Error applying for listing " +:+ py_str listing_id +:+ ": " +:+ e)).

(** *** [check_for_new_listings] (lines 132-195) *)

(** Lines 163-168: the body of the loop that fills [listings_to_apply] and
    [known_listings]. *)
Definition consider_listing (listings_to_apply : list json) (listing : json) : M W (list json) :=
  listing_id ← item listing "id";
  k ← lift (hash_key listing_id);
  known ← known_listings_get;
  if decide (k ∉ known) then
    known_listings_add k;;
    logger INFO ("New listing found: " +:+ py_str listing_id);;
    mret (listings_to_apply ++ [listing])
  else
    mret listings_to_apply.

(** Lines 160-168. *)
Definition find_new_listings (listings_data : list json) : M W (list json) :=
  for_fold listings_data [] consider_listing.

(** Lines 182-190: apply for, then announce, every new listing. *)
Definition apply_and_notify
    (listings_to_apply : list json) (tg_token : string) (chat_ids : list json) : M W unit :=
  for_each listings_to_apply (λ listing,
    apply_for_new_listing listing;;
    send_telegram_notification listing tg_token chat_ids).

(** Lines 152-168: the warm-up request, the listings request and the loop
    over its result. *)
Definition fetch_new_listings : M W (list json) :=
  response ← session_get LISTINGS_URL;
  headers_update "referer" LISTINGS_URL;;
  response ← session_get LISTINGS_API_URL;
  body ← response_json response;
  listings_data ← item body "result";
  listings ← lift (py_iter listings_data);
  find_new_listings listings.

(** Lines 172-178: the two login requests. *)
Definition login : M W (string + json) :=
  response ← session_get LOGIN_HASH_ID_URL;
  body ← response_json response;
  login_form ← item body "loginForm";
  elements ← item login_form "elements";
  hash ← item elements "__hash__";
  initial_data ← item hash "initialData";
  login_load_set "__hash__" initial_data;;
  data ← login_load_get;
  session_post LOGIN_URL data.

(** Lines 152-190: the body of the [try]. *)
Definition check_steps (tg_token : string) (chat_ids : list json) : M W unit :=
  listings_to_apply ← fetch_new_listings;
  if bool_decide (0 < length listings_to_apply)%nat then
    response ← login;
    body ← response_json response;
    logged_in ← item body "loggedIn";
    if negb (truthy logged_in) then
      logger WARNING ("Could not login: " +:+ py_str body)
    else
      apply_and_notify listings_to_apply tg_token chat_ids
  else
    mret ().

Definition check_for_new_listings (tg_token : string) (chat_ids : list json) : M W (gset hkey) :=
  try_except_request
    (check_steps tg_token chat_ids)
    (λ e, logger ERROR ("Error checking for new listings: " +:+ e));;
  known_listings_get.

(** *** The driver loop (lines 253-261), cut after [n] rounds

    [known_listings] is rebound to the value returned, which is the set
    object that was passed in; the store keeps that one object. *)
Fixpoint cycles (n : nat) (tg_token : string) (chat_ids : list json) : M W unit :=
  match n with
  | O => mret ()
  | S n' =>
      known ← check_for_new_listings tg_token chat_ids;
      emit (Persisted known);;
      emit (Slept 600);;
      cycles n' tg_token chat_ids
  end.

End Program.

(** ** Vocabulary of the statements *)

(** The element a listing contributes to the set: its ["id"], hashed. *)
Definition listing_key (l : json) : option hkey :=
  match subscript l "id" with
  | inr v => match hash_key v with
             | inr k => Some k
             | inl _ => None
             end
  | inl _ => None
  end.

Definition listing_id (l : json) : json :=
  match subscript l "id" with
  | inr v => v
  | inl _ => JNull
  end.

Definition keys (L : list json) : gset hkey := list_to_set (omap listing_key L).

(** Whether [l], met after the listings [before], has an ID that is neither
    in [K] nor the ID of one of [before]. *)
Definition unseen (K : gset hkey) (before : list json) (l : json) : bool :=
  match listing_key l with
  | Some k => bool_decide (k ∉ K ∪ keys before)
  | None => false
  end.

(** The listings of [L] whose ID is not in [K] and is not the ID of an
    earlier listing of [L], in the order of [L]. *)
Definition first_unknown (K : gset hkey) (L : list json) : list json :=
  (filter (λ p, unseen K p.1 p.2 = true) (imap (λ i l, (take i L, l)) L)).*2.

(** The listings of [L] whose ID is not in [K], in the order of [L]. *)
Definition unknown (K : gset hkey) (L : list json) : list json :=
  filter (λ l, unseen K [] l = true) L.

(** The messages handed to the bot, among the events of a run. *)
Definition is_send (e : event) : bool :=
  match e with
  | SendMessage _ _ _ => true
  | _ => false
  end.

Definition sends (ev : list event) : list event := filter (λ e, is_send e = true) ev.

Definition is_request (e : event) : bool :=
  match e with
  | Requested _ => true
  | _ => false
  end.

Definition requests (ev : list event) : list event := filter (λ e, is_request e = true) ev.

(** [x] occurs in the text [t]. *)
Definition contains (t x : string) : Prop := ∃ a b, t = a +:+ x +:+ b.

(** [v[k1][k2]...]. *)
Fixpoint dig (v : json) (path : list string) : exn + json :=
  match path with
  | [] => inr v
  | k :: path' => match subscript v k with
                  | inr v' => dig v' path'
                  | inl e => inl e
                  end
  end.

(** The outcomes the specification names for one application.  The source
    returns nothing; an outcome shows as the logger call made for it. *)
Inductive outcome :=
  | Applied
  | AlreadyApplied
  | Failed (error : option string).

(** The logger calls among the events of a run. *)
Definition logs (ev : list event) : list (level * string) :=
  omap (λ e, match e with
             | Logged lvl msg => Some (lvl, msg)
             | _ => None
             end) ev.

(** The URLs requested in a run, in order. *)
Definition requested (ev : list event) : list string :=
  omap (λ e, match e with
             | Requested (GET url) => Some url
             | Requested (POST url _) => Some url
             | _ => None
             end) ev.

Section Vocabulary.
Context {W : Type} `{!Platform W}.

(** The outcome [o] after the events [ev] that came before it. *)
Definition prepend {A} (ev : list event) (o : out W A) : out W A :=
  Out (res o) (st o) (ev ++ evs o).

Definition set_world (s : state W) (w : W) : state W :=
  State w (headers s) (login_load s) (known_listings s).

Definition add_known (k : hkey) (s : state W) : state W :=
  State (world s) (headers s) (login_load s) ({[k]} ∪ known_listings s).

Definition with_known (s : state W) (K : gset hkey) : state W :=
  State (world s) (headers s) (login_load s) K.

Definition found_log (l : json) : event :=
  Logged INFO ("New listing found: " +:+ py_str (listing_id l)).

(** [first_unknown] with the listings [pre] already gone through. *)
Definition first_unknown_after (K : gset hkey) (pre L : list json) : list json :=
  (filter (λ p, unseen K p.1 p.2 = true) (imap (λ i l, (pre ++ take i L, l)) L)).*2.

Definition outcome_line (listing_id : json) (o : outcome) : event :=
  match o with
  | Applied => Logged INFO ("Successfully applied: " +:+ py_str listing_id)
  | AlreadyApplied => Logged INFO ("Already applied? " +:+ py_str listing_id)
  | Failed None => Logged WARNING ("Something went wrong: " +:+ py_str listing_id)
  | Failed (Some e) =>
      Logged ERROR ("Error applying for listing " +:+ py_str listing_id +:+ ": " +:+ e)
  end.

(** A run of [m] from a store whose known set includes [K] keeps it
    included, performs only events that satisfy [P], and returns only values
    that satisfy [Q]. *)
Definition keeps (K : gset hkey) (P : event → Prop) {A} (m : M W A) (Q : A → Prop) : Prop :=
  ∀ s, K ⊆ known_listings s →
    K ⊆ known_listings (st (m s)) ∧
    Forall P (evs (m s)) ∧
    ∀ a, res (m s) = Ret a → Q a.


(** The events of the fetch phase: the two listing requests and log lines. *)
Definition fetch_event (e : event) : Prop :=
  match e with
  | Requested r => r = GET LISTINGS_URL ∨ r = GET LISTINGS_API_URL
  | Logged _ _ => True
  | _ => False
  end.

(** The store after the warm-up request: the world has moved on and the
    session carries the referer. *)
Definition warmed_up (s : state W) (w : W) : state W :=
  State w (<["referer" := LISTINGS_URL]> (headers s)) (login_load s) (known_listings s).

(** The store after the two login requests. *)
Definition logged (s : state W) (hash : json) (w : W) : state W :=
  State w (headers s) (<["__hash__" := hash]> (login_load s)) (known_listings s).

(** What the event predicate of [keeps] has to admit for a run of the driver
    loop: every log line, every request but the detail request, which has to
    carry an ID outside [K], and the messages built for listings with an ID
    outside [K]. *)
Definition admits (K : gset hkey) (P : event → Prop) : Prop :=
  (∀ lvl msg, P (Logged lvl msg)) ∧
  (∀ url, P (Requested (GET url))) ∧
  (∀ data, P (Requested (POST LOGIN_URL data))) ∧
  (∀ data, P (Requested (POST REACTION_URL data))) ∧
  (∀ i k, hash_key i = inr k → k ∉ K →
     P (Requested (POST LISTING_DETAILS_URL {["id" := i]}))) ∧
  (∀ tg_token chat_id i u r k, hash_key i = inr k → k ∉ K →
     P (SendMessage tg_token chat_id (message_text i u r))) ∧
  (∀ ids, P (Persisted ids)) ∧
  (∀ secs, P (Slept secs)).

(** The listings of [l] all have an ID outside [K]. *)
Definition all_outside (K : gset hkey) (l : list json) : Prop :=
  ∀ x, x ∈ l → ∃ k, listing_key x = Some k ∧ k ∉ K.

(** The events of a cycle before any application or notification: the
    requests of the fetch and login phases, and log lines. *)
Definition before_apply (e : event) : Prop :=
  match e with
  | Requested (GET url) =>
      url = LISTINGS_URL ∨ url = LISTINGS_API_URL ∨ url = LOGIN_HASH_ID_URL
  | Requested (POST url _) => url = LOGIN_URL
  | Logged _ _ => True
  | _ => False
  end.

(** A run of [m] that returns listings returns listings whose IDs are in
    the known set it leaves. *)
Definition returns_known (m : M W (list json)) : Prop :=
  ∀ s news, res (m s) = Ret news →
    ∀ x, x ∈ news → ∃ k, listing_key x = Some k ∧ k ∈ known_listings (st (m s)).

(** A run of [m] leaves the known set as it found it. *)
Definition same_known {A} (m : M W A) : Prop :=
  ∀ s, known_listings (st (m s)) = known_listings s.

End Vocabulary.

(** ** A scripted platform, to run the program on concrete inputs

    The world is the list of the answers the site will give, in order, and
    the list of the outcomes of the bot's sends.  An exhausted script refuses
    the request. *)
Module Sim.

Record script := Script {
  answers : list response;
  deliveries : list (option string)
}.

Definition sim_http (w : script) (_ : gmap string string) (_ : request) : script * response :=
  match answers w with
  | [] => (w, Refused "connection refused")
  | a :: rest => (Script rest (deliveries w), a)
  end.

Definition sim_send (w : script) (_ : string) (_ : json) (_ : string) : script * option string :=
  match deliveries w with
  | [] => (w, None)
  | d :: rest => (Script (answers w) rest, d)
  end.

(** [str] on the scalars; containers are shown by their brackets only. *)
Definition digit (n : nat) : string :=
  String (Ascii.ascii_of_nat (48 + n)) EmptyString.

Fixpoint decimal_go (fuel : nat) (n : nat) (acc : string) : string :=
  match fuel with
  | O => acc
  | S fuel' =>
      let acc' := digit (n `mod` 10) +:+ acc in
      if (n `div` 10 =? 0)%nat then acc' else decimal_go fuel' (n `div` 10) acc'
  end.

Definition decimal (n : Z) : string :=
  let m := Z.to_nat (Z.abs n) in
  (if n <? 0 then "-" else "") +:+ decimal_go (S m) m "".

Definition sim_str (v : json) : string :=
  match v with
  | JNull => "None"
  | JBool true => "True"
  | JBool false => "False"
  | JNum n => decimal n
  | JStr s => s
  | JArr _ => "[...]"
  | JObj _ => "{...}"
  end.

(** The integer value of parameter [k] in the query of a URL, for URLs of
    the shape [path?k1=n1&k2=n2]. *)
Fixpoint split_at (c : Ascii.ascii) (s : string) : string * option string :=
  match s with
  | EmptyString => (EmptyString, None)
  | String c' s' =>
      if Ascii.eqb c' c then (EmptyString, Some s')
      else let (a, b) := split_at c s' in (String c' a, b)
  end.

Fixpoint fields (fuel : nat) (s : string) : list string :=
  match fuel with
  | O => []
  | S fuel' =>
      match split_at "&"%char s with
      | (a, None) => [a]
      | (a, Some rest) => a :: fields fuel' rest
      end
  end.

Fixpoint number (s : string) (acc : option Z) : option Z :=
  match s with
  | EmptyString => acc
  | String c s' =>
      let d := Z.of_nat (Ascii.nat_of_ascii c) - 48 in
      if (0 <=? d) && (d <=? 9)
      then number s' (Some (10 * default 0 acc + d))
      else None
  end.

Fixpoint find_field (k : string) (l : list string) : option string :=
  match l with
  | [] => None
  | f :: l' =>
      match split_at "="%char f with
      | (k', Some v) => if String.eqb k' k then Some v else find_field k l'
      | _ => find_field k l'
      end
  end.

Definition sim_query_int (u : json) (k : string) : exn + Z :=
  match u with
  | JStr s =>
      match split_at "?"%char s with
      | (_, Some q) =>
          match find_field k (fields (S (String.length q)) q) with
          | Some v => match number v None with
                      | Some n => inr n
                      | None => inl ValueError
                      end
          | None => inl (KeyError k)
          end
      | (_, None) => inl (KeyError k)
      end
  | _ => inl TypeError
  end.

(** The constructor refuses the empty token; the bot API refuses the token
    ["REVOKED"] when the bot is entered. *)
Definition sim_bot_new (tg_token : string) : option string :=
  if String.eqb tg_token ""
  then Some "You must pass the token you received from https://t.me/Botfather!"
  else None.

Definition sim_bot_initialize (w : script) (tg_token : string) : script * option string :=
  if String.eqb tg_token "REVOKED"
  then (w, Some "The token `REVOKED` was rejected by the server.")
  else (w, None).

Definition sim_bot_new_empty : sim_bot_new "" ≠ None :=
  λ H, match H in _ = y return match y with Some _ => True | None => False end with
       | eq_refl => I
       end.

#[export] Instance sim_platform : Platform script := {|
  http := sim_http;
  bot_new := sim_bot_new;
  bot_initialize := sim_bot_initialize;
  bot_send_message := sim_send;
  py_str := sim_str;
  query_int := sim_query_int;
  py_str_JStr := λ s, eq_refl;
  bot_new_empty := sim_bot_new_empty
|}.

Definition start (known : gset hkey) (w : script) : state script :=
  State w {["User-Agent" := USER_AGENT]}
        (<["password" := JStr "secret"]>
          (<["username" := JStr "tenant"]>
            {["__id__" := JStr "Account_Form_LoginFrontend"]}))
        known.

Definition listing (i u : string) (rent : Z) : json :=
  JObj [("id", JStr i); ("urlKey", JStr u); ("totalRent", JNum rent)].

Definition listings_body (l : list json) : response :=
  Answered (inr (JObj [("result", JArr l)])).

Definition page_html : string + json := inl "Expecting value: line 1 column 1 (char 0)".

Definition page : response := Answered page_html.

Definition form_json (name h : string) : json :=
  JObj [(name, JObj [("elements", JObj [("__hash__", JObj [("initialData", JStr h)])])])].

Definition form_body (name h : string) : response := Answered (inr (form_json name h)).

Definition logged_in_json (b : bool) : json := JObj [("loggedIn", JBool b)].

Definition logged_in_body (b : bool) : response := Answered (inr (logged_in_json b)).

Definition reaction_data (action url : string) : json :=
  JObj [("action", JStr action); ("url", JStr url)].

Definition details_json (action url : string) : json :=
  JObj [("result", JObj [("reactionData", reaction_data action url)])].

Definition details_body (action url : string) : response :=
  Answered (inr (details_json action url)).

Definition reaction_json (ok : bool) : json :=
  JObj [("success", JBool ok); ("reactionData", JNull)].

Definition reaction_body (ok : bool) : response := Answered (inr (reaction_json ok)).

(** The listings and the worlds of the scenarios. *)
Definition room_a : json := listing "A" "a" 500.
Definition room_b : json := listing "B" "b" 650.
Definition room_a_again : json := listing "A" "c" 700.

Definition add_url : string := "/portal/react?dwellingID=42&add=1".

Definition idle : script := Script [] [].

(** Scenario 1: one new listing, login succeeds, the application succeeds. *)
Definition world_applied : script :=
  Script [page; listings_body [room_a]; form_body "loginForm" "h1"; logged_in_body true;
         details_body "add" add_url; form_body "form" "h2"; reaction_body true] [].

(** Scenario 2: the fetched listing is known already. *)
Definition world_nothing_new : script := Script [page; listings_body [room_a]] [].

(** Scenario 3: one new listing, the login is rejected. *)
Definition world_login_rejected : script :=
  Script [page; listings_body [room_a]; form_body "loginForm" "h1"; logged_in_body false] [].

(** Scenario 4: two new listings, the detail request of the first one is
    refused; the bot fails to deliver to the first recipient once. *)
Definition world_first_apply_fails : script :=
  Script [page; listings_body [room_a; room_b]; form_body "loginForm" "h1";
         logged_in_body true;
         Refused "timed out";
         details_body "add" add_url; form_body "form" "h2"; reaction_body true]
        [Some "chat not found"].

(** The login-configuration request is refused after a new listing was
    found; later the same listing is fetched again and the login works. *)
Definition world_login_refused : script :=
  Script [page; listings_body [room_a]; Refused "timed out";
         page; listings_body [room_a; room_b]; form_body "loginForm" "h1";
         logged_in_body true;
         details_body "remove" add_url] [].

(** One application, by the site's answers. *)
Definition world_already : script := Script [details_body "remove" add_url] [].
Definition world_react (ok : bool) : script :=
  Script [details_body "add" add_url; form_body "form" "h2"; reaction_body ok] [].
Definition world_refused : script :=
  Script [Refused "timed out"; details_body "add" add_url; form_body "form" "h2";
         reaction_body true] [Some "chat not found"].

Definition recipients : list json := [JStr "c1"; JNum 7].

(** Malformed inputs. *)
Definition room_no_url : json := JObj [("id", JStr "C"); ("totalRent", JNum 700)].
Definition room_no_id : json := JObj [("urlKey", JStr "d"); ("totalRent", JNum 800)].
Definition details_no_reaction : json := JObj [("result", JObj [])].
Definition bad_url : string := "/portal/react?add=1".

(** Updates of the bot, as dicts. *)
Definition update (chat : Z) : json :=
  JObj [("message", JObj [("chat", JObj [("id", JNum chat)])])].
Definition update_no_message : json := JObj [("update_id", JNum 2)].
Definition update_none_message : json := JObj [("message", JNull)].

End Sim.

(** ** The recipient discovery helper, [test_bot] (lines 198-229)

    The updates are objects of the bot library; the function reads them by
    subscripts only, so the model takes the type [U] of those objects and
    their subscript operation [getitem] as given.  It takes as inputs what
    [await bot.get_me()] and [await bot.get_updates()] give: a result, or the
    message of the [TelegramError] they raise, for which the function has no
    handler.  The effects are the line printed and the calls of the root
    logger. *)

Inductive console :=
  | Printed (text : string)
  | RootLogged (lvl : level) (msg : string).

Section Discovery.
Context {U : Type} (getitem : U → string → exn + U) (show : U → string).

(** [update["message"]["chat"]["id"]]. *)
Definition chat_id_of (update : U) : exn + U :=
  match getitem update "message" with
  | inr message =>
      match getitem message "chat" with
      | inr chat => getitem chat "id"
      | inl e => inl e
      end
  | inl e => inl e
  end.

(** Lines 223-228: the loop, with [found] the list [result] so far. *)
Fixpoint collect_chat_ids (updates : list U) (found : list U) : result (list U) * list console :=
  match updates with
  | [] => (Ret found, [])
  | update :: updates' =>
      match chat_id_of update with
      | inr chat_id => collect_chat_ids updates' (found ++ [chat_id])
      | inl (KeyError _) =>
          let (r, ev) := collect_chat_ids updates' found in
          (r, RootLogged ERROR "Could not extract chat_id's to send notifications" :: ev)
      | inl e => (Raise e, [])
      end
  end.

Definition test_bot (me : string + U) (updates : string + list U)
    : result (list U) * list console :=
  match me with
  | inl e => (Raise (TelegramError e), [])
  | inr user =>
      match updates with
      | inl e => (Raise (TelegramError e), [Printed (show user)])
      | inr updates =>
          let (r, ev) := collect_chat_ids updates [] in
          (r, Printed (show user) :: ev)
      end
  end.

(** The chat ID an update yields, when its three subscripts succeed. *)
Definition chat_id_found (update : U) : option U :=
  match chat_id_of update with
  | inr chat_id => Some chat_id
  | inl _ => None
  end.

(** Whether the subscripts of an update end in a [KeyError]. *)
Definition lacks_key (update : U) : bool :=
  match chat_id_of update with
  | inl (KeyError _) => true
  | _ => false
  end.

(** Whether the subscripts of an update raise something the loop does not
    catch. *)
Definition breaks (update : U) : bool :=
  match chat_id_of update with
  | inl (KeyError _) => false
  | inl _ => true
  | inr _ => false
  end.

End Discovery.

(** ** Further vocabulary *)

(** The events a cycle is made of; the driver loop adds the other two. *)
Definition cycle_event (e : event) : Prop :=
  match e with
  | Requested _ | Logged _ _ | SendMessage _ _ _ => True
  | Persisted _ | Slept _ => False
  end.

(** The sets written to the settings file, and the pauses, in a run. *)
Definition persisted (ev : list event) : list (gset hkey) :=
  omap (λ e, match e with
             | Persisted ids => Some ids
             | _ => None
             end) ev.

Definition slept (ev : list event) : list Z :=
  omap (λ e, match e with
             | Slept secs => Some secs
             | _ => None
             end) ev.

(** [l[k]] where the key is there. *)
Definition field (l : json) (k : string) : json :=
  match subscript l k with
  | inr v => v
  | inl _ => JNull
  end.

(** A listing with the three fields the program reads. *)
Definition has_fields (l : json) : Prop :=
  (∃ i, subscript l "id" = inr i) ∧
  (∃ u, subscript l "urlKey" = inr u) ∧
  (∃ r, subscript l "totalRent" = inr r).

(** The first request of every application. *)
Definition detail_request (i : json) : event :=
  Requested (POST LISTING_DETAILS_URL {["id" := i]}).

Definition is_detail_request (e : event) : Prop :=
  match e with
  | Requested (POST url _) => url = LISTING_DETAILS_URL
  | _ => False
  end.

Section More_vocabulary.
Context {W : Type} `{!Platform W}.

(** The messages that announce the listing [l] to the recipients. *)
Definition notifications (tg_token : string) (chat_ids : list json) (l : json) : list event :=
  (λ c, SendMessage tg_token c
          (message_text (field l "id") (field l "urlKey") (field l "totalRent")))
  <$> chat_ids.

(** A run of [m] leaves everything but the world as it found it. *)
Definition only_world {A} (m : M W A) : Prop :=
  ∀ s, headers (st (m s)) = headers s ∧
       login_load (st (m s)) = login_load s ∧
       known_listings (st (m s)) = known_listings s.

(** The exception [e] is one no handler of the program catches. *)
Definition uncaught (e : exn) : Prop :=
  (∀ x, e ≠ RequestException x) ∧ (∀ x, e ≠ TelegramError x).

End More_vocabulary.

(** * Properties *)

(** ** Reasoning about runs *)

Section Runs.
Context {W : Type} `{!Platform W}.

Lemma prepend_nil {A} (o : out W A) : prepend [] o = o.
Proof. by destruct o. Qed.

Lemma prepend_prepend {A} ev1 ev2 (o : out W A) :
  prepend ev1 (prepend ev2 o) = prepend (ev1 ++ ev2) o.
Proof. unfold prepend; simpl. by rewrite app_assoc. Qed.

Lemma bind_ret {A B} (m : M W A) (f : A → M W B) s a s' ev :
  m s = Out (Ret a) s' ev → (m ≫= f) s = prepend ev (f a s').
Proof. intros Hm. unfold mbind, M_bind, bind. by rewrite Hm. Qed.

Lemma bind_raise {A B} (m : M W A) (f : A → M W B) s e s' ev :
  m s = Out (Raise e) s' ev → (m ≫= f) s = Out (Raise e) s' ev.
Proof. intros Hm. unfold mbind, M_bind, bind. by rewrite Hm. Qed.

Lemma bind_res_raise {A B} (m : M W A) (f : A → M W B) s e :
  res (m s) = Raise e → (m ≫= f) s = Out (Raise e) (st (m s)) (evs (m s)).
Proof. intros Hm. unfold mbind, M_bind, bind. by rewrite Hm. Qed.

Lemma item_ret (v : json) k x s :
  subscript v k = inr x → item (W:=W) v k s = Out (Ret x) s [].
Proof. intros Hx. unfold item. by rewrite Hx. Qed.

Lemma subscript_not_request v k e :
  subscript v k = inl e → ∀ x, e ≠ RequestException x.
Proof.
  unfold subscript. destruct v as [| | | | |m]; try (by intros [= <-]).
  destruct (assoc k m); by intros [= <-].
Qed.

Lemma session_request_refused r s w e :
  http (world s) (headers s) r = (w, Refused e) →
  session_request r s = Out (Raise (RequestException e)) (set_world s w) [Requested r].
Proof. intros Hr. unfold session_request. by rewrite Hr. Qed.

Lemma session_request_answered r s w body :
  http (world s) (headers s) r = (w, Answered body) →
  session_request r s = Out (Ret body) (set_world s w) [Requested r].
Proof. intros Hr. unfold session_request. by rewrite Hr. Qed.

End Runs.

(** ** The loop over the fetched listings *)

Section Diff.
Context {W : Type} `{!Platform W}.

Lemma first_unknown_after_nil K L : first_unknown_after K [] L = first_unknown K L.
Proof. done. Qed.

Lemma first_unknown_after_cons K pre l L :
  first_unknown_after K pre (l :: L) =
  (if unseen K pre l then [l] else []) ++ first_unknown_after K (pre ++ [l]) L.
Proof.
  unfold first_unknown_after. rewrite imap_cons. simpl.
  rewrite app_nil_r.
  assert (Hext : imap ((λ i l0, (pre ++ take i (l :: L), l0)) ∘ S) L
               = imap (λ i l0, ((pre ++ [l]) ++ take i L, l0)) L).
  { apply imap_ext. intros i x _. simpl. by rewrite <- app_assoc. }
  rewrite Hext. rewrite filter_cons. simpl.
  destruct (unseen K pre l) eqn:Hu.
  - rewrite decide_True by done. done.
  - rewrite decide_False by done. done.
Qed.

Lemma keys_app L1 L2 : keys (L1 ++ L2) = keys L1 ∪ keys L2.
Proof. unfold keys. rewrite omap_app. set_solver. Qed.

Lemma keys_singleton l k : listing_key l = Some k → keys [l] = {[k]}.
Proof. intros Hk. unfold keys. simpl. rewrite Hk. simpl. apply (right_id_L ∅ (∪)). Qed.

Lemma consider_listing_new acc l k s :
  listing_key l = Some k → k ∉ known_listings s →
  consider_listing acc l s = Out (Ret (acc ++ [l])) (add_known k s) [found_log l].
Proof.
  unfold listing_key, found_log, listing_id. intros Hk Hnew.
  destruct (subscript l "id") as [e|v] eqn:Hid; [done|].
  destruct (hash_key v) as [e|k'] eqn:Hh; [done|]. simplify_eq.
  unfold consider_listing.
  rewrite (bind_ret _ _ _ _ _ _ (item_ret _ _ _ _ Hid)), prepend_nil.
  rewrite Hh. unfold mbind, M_bind, bind. simpl.
  by rewrite decide_True.
Qed.

Lemma consider_listing_known acc l k s :
  listing_key l = Some k → k ∈ known_listings s →
  consider_listing acc l s = Out (Ret acc) s [].
Proof.
  unfold listing_key. intros Hk Hold.
  destruct (subscript l "id") as [e|v] eqn:Hid; [done|].
  destruct (hash_key v) as [e|k'] eqn:Hh; [done|]. simplify_eq.
  unfold consider_listing.
  rewrite (bind_ret _ _ _ _ _ _ (item_ret _ _ _ _ Hid)), prepend_nil.
  rewrite Hh. unfold mbind, M_bind, bind. simpl.
  rewrite decide_False; [done|]. by intros Hn.
Qed.

Lemma for_fold_consider L : ∀ acc pre K (s : state W),
  Forall (λ l, is_Some (listing_key l)) L →
  known_listings s = K ∪ keys pre →
  for_fold L acc consider_listing s =
    Out (Ret (acc ++ first_unknown_after K pre L))
        (with_known s (K ∪ keys (pre ++ L)))
        (found_log <$> first_unknown_after K pre L).
Proof.
  induction L as [|l L IH]; intros acc pre K s Hwf Hs.
  - simpl. unfold mret, M_ret, ret, first_unknown_after, with_known. simpl.
    rewrite !app_nil_r, <- Hs. by destruct s.
  - apply Forall_cons in Hwf as [[k Hk] Hwf].
    rewrite first_unknown_after_cons. simpl.
    unfold unseen. rewrite Hk.
    destruct (decide (k ∈ known_listings s)) as [Hin|Hnin].
    + rewrite (bind_ret _ _ _ _ _ _ (consider_listing_known acc l k s Hk Hin)).
      rewrite prepend_nil.
      rewrite bool_decide_eq_false_2 by (rewrite <- Hs; by intros Hn). simpl.
      rewrite (IH acc (pre ++ [l]) K s Hwf).
      * by rewrite <- app_assoc.
      * rewrite Hs, keys_app, (keys_singleton l k Hk). rewrite Hs in Hin. set_solver.
    + rewrite (bind_ret _ _ _ _ _ _ (consider_listing_new acc l k s Hk Hnin)).
      rewrite bool_decide_eq_true_2 by (by rewrite <- Hs). simpl.
      rewrite (IH (acc ++ [l]) (pre ++ [l]) K (add_known k s) Hwf).
      * unfold prepend, with_known. simpl. by rewrite <- !app_assoc.
      * simpl. rewrite Hs, keys_app, (keys_singleton l k Hk). set_solver.
Qed.

Lemma find_new_listings_run L (s : state W) :
  Forall (λ l, is_Some (listing_key l)) L →
  find_new_listings L s =
    Out (Ret (first_unknown (known_listings s) L))
        (with_known s (known_listings s ∪ keys L))
        (found_log <$> first_unknown (known_listings s) L).
Proof.
  intros Hwf. unfold find_new_listings.
  rewrite (for_fold_consider L [] [] (known_listings s) s Hwf).
  - by rewrite first_unknown_after_nil.
  - unfold keys. simpl. by rewrite (right_id_L ∅ (∪)).
Qed.

Lemma elem_of_keys k L : k ∈ keys L ↔ ∃ l, l ∈ L ∧ listing_key l = Some k.
Proof. unfold keys. rewrite elem_of_list_to_set, list_elem_of_omap. naive_solver. Qed.

Lemma keys_cons l L k : listing_key l = Some k → keys (l :: L) = {[k]} ∪ keys L.
Proof. intros Hk. unfold keys. simpl. by rewrite Hk. Qed.

Lemma keys_cons_none l L : listing_key l = None → keys (l :: L) = keys L.
Proof. intros Hk. unfold keys. simpl. by rewrite Hk. Qed.

Lemma first_unknown_after_known K pre L :
  keys L ⊆ K → first_unknown_after K pre L = [].
Proof.
  revert pre. induction L as [|l L IH]; intros pre Hsub; [done|].
  rewrite first_unknown_after_cons.
  assert (Hl : unseen K pre l = false).
  { unfold unseen. destruct (listing_key l) as [k|] eqn:Hk; [|done].
    apply bool_decide_eq_false_2. intros Hn. apply Hn.
    apply elem_of_union_l, Hsub, elem_of_keys. exists l. split; [left|done]. }
  rewrite Hl. simpl. apply IH.
  intros k [l' [Hin Hk]]%elem_of_keys. apply Hsub, elem_of_keys.
  exists l'. split; [by right|done].
Qed.

Lemma unseen_disjoint K pre l :
  (∀ k, listing_key l = Some k → k ∉ keys pre) →
  unseen K pre l = unseen K [] l.
Proof.
  intros Hd. unfold unseen. destruct (listing_key l) as [k|] eqn:Hk; [|done].
  specialize (Hd k eq_refl). apply bool_decide_ext.
  unfold keys at 2. simpl. set_solver.
Qed.

(** With pairwise distinct IDs no listing is hidden by an earlier one. *)
Lemma first_unknown_after_distinct K L : ∀ pre,
  NoDup (omap listing_key L) →
  keys pre ## keys L →
  first_unknown_after K pre L = unknown K L.
Proof.
  induction L as [|l L IH]; intros pre Hnd Hdisj; [done|].
  rewrite first_unknown_after_cons. unfold unknown. rewrite filter_cons.
  fold (unknown K L).
  destruct (listing_key l) as [k|] eqn:Hk.
  - simpl in Hnd. rewrite Hk in Hnd. apply NoDup_cons in Hnd as [Hk_new Hnd].
    rewrite (keys_cons l L k Hk) in Hdisj.
    rewrite (unseen_disjoint K pre l).
    2:{ intros k' Hk'. simplify_eq. set_solver. }
    rewrite IH; [|done|].
    + by destruct (unseen K [] l).
    + rewrite keys_app, (keys_singleton l k Hk).
      assert (k ∉ keys L).
      { intros [l' [Hin Hl']]%elem_of_keys. apply Hk_new.
        apply list_elem_of_omap. eauto. }
      set_solver.
  - simpl in Hnd. rewrite Hk in Hnd.
    assert (Hu : ∀ before, unseen K before l = false).
    { intros before. unfold unseen. by rewrite Hk. }
    rewrite !Hu. simpl.
    apply IH; [done|].
    rewrite keys_app, (keys_cons_none l [] Hk).
    rewrite (keys_cons_none l L Hk) in Hdisj.
    unfold keys at 2. simpl. set_solver.
Qed.

Lemma first_unknown_distinct K L :
  NoDup (omap listing_key L) → first_unknown K L = unknown K L.
Proof.
  intros Hnd. rewrite <- first_unknown_after_nil.
  apply first_unknown_after_distinct; [done|]. unfold keys at 1. simpl. set_solver.
Qed.

(** C1, amended.  For every store and every fetched list [L] of listings
    (dicts with a hashable ["id"]), the loop of [check_for_new_listings]
    returns, in fetch order, exactly the listings of [L] whose ID is neither
    in the known set [K] it started from nor the ID of an earlier listing of
    [L]; it leaves the known set equal to [K ∪ ids(L)], touches nothing else
    and logs one line per listing it returns.  When the IDs of [L] are
    pairwise distinct, these are all the listings of [L] whose ID is not in
    [K]. *)
Theorem find_new_listings_first_unknown (L : list json) (s : state W) :
  Forall (λ l, is_Some (listing_key l)) L →
  let o := find_new_listings L s in
  res o = Ret (first_unknown (known_listings s) L) ∧
  known_listings (st o) = known_listings s ∪ keys L ∧
  st o = with_known s (known_listings s ∪ keys L) ∧
  evs o = found_log <$> first_unknown (known_listings s) L ∧
  (NoDup (omap listing_key L) →
     first_unknown (known_listings s) L = unknown (known_listings s) L).
Proof.
  intros Hwf o. subst o. rewrite (find_new_listings_run L s Hwf). simpl.
  split; [done|]. split; [done|]. split; [done|]. split; [done|].
  apply first_unknown_distinct.
Qed.

(** C9.  Running the loop a second time over the same fetched list [L], from
    the store the first run left, returns the empty list, leaves the store
    (so the known set) as it is, and does nothing else. *)
Theorem find_new_listings_twice (L : list json) (s : state W) :
  Forall (λ l, is_Some (listing_key l)) L →
  let o1 := find_new_listings L s in
  find_new_listings L (st o1) = Out (Ret []) (st o1) [].
Proof.
  intros Hwf o1. subst o1.
  rewrite (find_new_listings_run L (st (find_new_listings L s)) Hwf).
  rewrite (find_new_listings_run L s Hwf). simpl.
  assert (Hsame : known_listings s ∪ keys L ∪ keys L = known_listings s ∪ keys L)
    by set_solver.
  assert (Hnone : first_unknown (known_listings s ∪ keys L) L = []).
  { rewrite <- first_unknown_after_nil. apply first_unknown_after_known. set_solver. }
  rewrite Hnone. unfold with_known. simpl. by rewrite Hsame.
Qed.

End Diff.

(** ** The notifier *)

Section Notify.
Context {W : Type} `{!Platform W}.

Lemma append_assoc (a b c : string) : (a +:+ b) +:+ c = a +:+ b +:+ c.
Proof. induction a as [|x a IH]; [done|]. change (String x ((a +:+ b) +:+ c) = String x (a +:+ b +:+ c)). by rewrite IH. Qed.

Lemma append_empty (a : string) : a +:+ "" = a.
Proof. induction a as [|x a IH]; [done|]. change (String x (a +:+ "") = String x a). by rewrite IH. Qed.

Lemma sends_app ev1 ev2 : sends (ev1 ++ ev2) = sends ev1 ++ sends ev2.
Proof. apply filter_app. Qed.

Lemma requests_app ev1 ev2 : requests (ev1 ++ ev2) = requests ev1 ++ requests ev2.
Proof. apply filter_app. Qed.

(** One turn of the loop over the recipients (lines 81-85): the message is
    handed to the bot once, and whatever the bot answers the turn ends
    normally with one log line. *)
Lemma notify_one tg_token chat_id text line (s : state W) :
  ∃ w lg,
    try_except_telegram
      (send_message tg_token chat_id text;; logger INFO line)
      (λ e, logger ERROR ("Error sending notification: " +:+ e)) s
    = Out (Ret ()) (set_world s w) [SendMessage tg_token chat_id text; lg]
    ∧ is_send lg = false ∧ is_request lg = false.
Proof.
  unfold try_except_telegram, mbind, M_bind, bind, send_message.
  destruct (bot_send_message (world s) tg_token chat_id text) as [w [e|]]; simpl.
  - exists w, (Logged ERROR ("Error sending notification: " +:+ e)). done.
  - exists w, (Logged INFO line). done.
Qed.

Lemma notify_all tg_token text line chat_ids : ∀ s : state W,
  ∃ w ev,
    for_each chat_ids (λ chat_id,
      try_except_telegram
        (send_message tg_token chat_id text;; logger INFO line)
        (λ e, logger ERROR ("Error sending notification: " +:+ e))) s
    = Out (Ret ()) (set_world s w) ev
    ∧ sends ev = (λ c, SendMessage tg_token c text) <$> chat_ids
    ∧ requests ev = [].
Proof.
  induction chat_ids as [|c chat_ids IH]; intros s.
  - exists (world s), []. simpl. unfold ret, set_world. by destruct s.
  - destruct (notify_one tg_token c text line s) as (w1 & lg & H1 & Hlg & Hlg').
    destruct (IH (set_world s w1)) as (w2 & ev & H2 & Hev & Hev').
    exists w2, ([SendMessage tg_token c text; lg] ++ ev). split; [|split].
    + simpl for_each. rewrite (bind_ret _ _ _ _ _ _ H1), H2. done.
    + rewrite sends_app, Hev. unfold sends at 1.
      rewrite !filter_cons, filter_nil, Hlg. done.
    + rewrite requests_app, Hev'. unfold requests at 1.
      rewrite !filter_cons, filter_nil, Hlg'. done.
Qed.

Lemma bot_create_ret tg_token (s : state W) :
  bot_new tg_token = None → bot_create tg_token s = Out (Ret ()) s [].
Proof. intros Hb. unfold bot_create. by rewrite Hb. Qed.

Lemma bot_create_raise tg_token e (s : state W) :
  bot_new tg_token = Some e → bot_create tg_token s = Out (Raise (TelegramError e)) s [].
Proof. intros Hb. unfold bot_create. by rewrite Hb. Qed.

Lemma bot_enter_ret tg_token (s : state W) w :
  bot_initialize (world s) tg_token = (w, None) →
  bot_enter tg_token s = Out (Ret ()) (set_world s w) [].
Proof. intros Hb. unfold bot_enter. by rewrite Hb. Qed.

Lemma bot_enter_raise tg_token (s : state W) w e :
  bot_initialize (world s) tg_token = (w, Some e) →
  bot_enter tg_token s = Out (Raise (TelegramError e)) (set_world s w) [].
Proof. intros Hb. unfold bot_enter. by rewrite Hb. Qed.

Lemma send_telegram_notification_run l tg_token chat_ids (s : state W) i u r w0 :
  subscript l "id" = inr i →
  subscript l "urlKey" = inr u →
  subscript l "totalRent" = inr r →
  bot_new tg_token = None →
  bot_initialize (world s) tg_token = (w0, None) →
  ∃ w ev,
    send_telegram_notification l tg_token chat_ids s = Out (Ret ()) (set_world s w) ev
    ∧ sends ev = (λ c, SendMessage tg_token c (message_text i u r)) <$> chat_ids
    ∧ requests ev = [].
Proof.
  intros Hi Hu Hr Hnew Henter. unfold send_telegram_notification.
  rewrite (bind_ret _ _ _ _ _ _ (bot_create_ret _ _ Hnew)), prepend_nil.
  rewrite (bind_ret _ _ _ _ _ _ (item_ret _ _ _ _ Hi)), prepend_nil.
  rewrite (bind_ret _ _ _ _ _ _ (item_ret _ _ _ _ Hu)), prepend_nil.
  rewrite (bind_ret _ _ _ _ _ _ (item_ret _ _ _ _ Hr)), prepend_nil.
  rewrite (bind_ret _ _ _ _ _ _ (bot_enter_ret _ _ _ Henter)), prepend_nil.
  destruct (notify_all tg_token (message_text i u r)
              ("Notification sent for listing ID: " +:+ py_str i) chat_ids
              (set_world s w0)) as (w & ev & Hrun & Hsends & Hreq).
  exists w, ev. by rewrite Hrun.
Qed.

(** Without a bot nothing is announced: what the constructor raises leaves
    the function at once, and what the entry of [async with bot] raises
    leaves it before the first send. *)
Lemma send_telegram_notification_no_bot l tg_token chat_ids (s : state W) e :
  bot_new tg_token = Some e →
  send_telegram_notification l tg_token chat_ids s = Out (Raise (TelegramError e)) s [].
Proof.
  intros Hnew. unfold send_telegram_notification.
  by rewrite (bind_raise _ _ _ _ _ _ (bot_create_raise _ _ _ Hnew)).
Qed.

Lemma send_telegram_notification_not_entered l tg_token chat_ids (s : state W) i u r w e :
  subscript l "id" = inr i →
  subscript l "urlKey" = inr u →
  subscript l "totalRent" = inr r →
  bot_new tg_token = None →
  bot_initialize (world s) tg_token = (w, Some e) →
  send_telegram_notification l tg_token chat_ids s
  = Out (Raise (TelegramError e)) (set_world s w) [].
Proof.
  intros Hi Hu Hr Hnew Henter. unfold send_telegram_notification.
  rewrite (bind_ret _ _ _ _ _ _ (bot_create_ret _ _ Hnew)), prepend_nil.
  rewrite (bind_ret _ _ _ _ _ _ (item_ret _ _ _ _ Hi)), prepend_nil.
  rewrite (bind_ret _ _ _ _ _ _ (item_ret _ _ _ _ Hu)), prepend_nil.
  rewrite (bind_ret _ _ _ _ _ _ (item_ret _ _ _ _ Hr)), prepend_nil.
  by rewrite (bind_raise _ _ _ _ _ _ (bot_enter_raise _ _ _ _ Henter)).
Qed.

(** C8, amended.  For a listing with the fields ["id"], ["urlKey"] and
    ["totalRent"] and any list of recipients, when the bot is created for the
    token and [async with bot] is entered without an exception,
    [send_telegram_notification] builds one text, which contains the
    listing's ID, the URL made of the listings URL, ["/details/"] and the
    listing's urlKey, and the listing's totalRent (each as [str] renders it,
    a string as itself); it hands exactly that text to the bot once for each
    recipient, in the order of the list, and returns normally whatever the
    bot answers to the sends. *)
Theorem send_telegram_notification_once_each l tg_token chat_ids (s : state W) i u r w0 :
  subscript l "id" = inr i →
  subscript l "urlKey" = inr u →
  subscript l "totalRent" = inr r →
  bot_new tg_token = None →
  bot_initialize (world s) tg_token = (w0, None) →
  let o := send_telegram_notification l tg_token chat_ids s in
  let text := message_text i u r in
  res o = Ret () ∧
  sends (evs o) = (λ c, SendMessage tg_token c text) <$> chat_ids ∧
  contains text (py_str i) ∧
  contains text (LISTINGS_URL +:+ "/details/" +:+ py_str u) ∧
  contains text (py_str r) ∧
  (∀ k, u = JStr k → contains text (LISTINGS_URL +:+ "/details/" +:+ k)).
Proof.
  intros Hi Hu Hr Hnew Henter o text. subst o.
  destruct (send_telegram_notification_run l tg_token chat_ids s i u r w0
              Hi Hu Hr Hnew Henter) as (w & ev & -> & Hs & _). simpl.
  split; [done|]. split; [done|]. subst text. unfold message_text.
  split; [|split; [|split]].
  - exists ("New listing available at " +:+
            (LISTINGS_URL +:+ "/details/" +:+ py_str u) +:+ nl +:+ "ID: "),
           (nl +:+ "Price: " +:+ py_str r).
    by rewrite !append_assoc.
  - exists "New listing available at ",
           (nl +:+ "ID: " +:+ py_str i +:+ nl +:+ "Price: " +:+ py_str r).
    by rewrite !append_assoc.
  - exists ("New listing available at " +:+
            (LISTINGS_URL +:+ "/details/" +:+ py_str u) +:+ nl +:+ "ID: " +:+
            py_str i +:+ nl +:+ "Price: "), "".
    by rewrite !append_assoc, append_empty.
  - intros k ->. rewrite py_str_JStr.
    exists "New listing available at ",
           (nl +:+ "ID: " +:+ py_str i +:+ nl +:+ "Price: " +:+ py_str r).
    by rewrite !append_assoc.
Qed.

End Notify.

(** ** The applier *)

Section Apply.
Context {W : Type} `{!Platform W}.

Lemma try_except_request_ret {A} (body : M W A) handler s a s' ev :
  body s = Out (Ret a) s' ev → try_except_request body handler s = Out (Ret a) s' ev.
Proof. intros Hb. unfold try_except_request. by rewrite Hb. Qed.

Lemma try_except_request_caught {A} (body : M W A) handler s e :
  res (body s) = Raise (RequestException e) →
  try_except_request body handler s = prepend (evs (body s)) (handler e (st (body s))).
Proof. intros Hb. unfold try_except_request. by rewrite Hb. Qed.

Lemma try_except_request_passes {A} (body : M W A) handler s e :
  res (body s) = Raise e → (∀ x, e ≠ RequestException x) →
  try_except_request body handler s = body s.
Proof.
  intros Hb Hne. unfold try_except_request. rewrite Hb.
  destruct e; try done. by destruct (Hne e).
Qed.

Lemma dig_cons v k path x : dig v (k :: path) = inr x →
  ∃ v', subscript v k = inr v' ∧ dig v' path = inr x.
Proof. simpl. destruct (subscript v k) as [e|v']; [done|]. eauto. Qed.

Lemma dig_nil v x : dig v [] = inr x → v = x.
Proof. simpl. congruence. Qed.

(** The first exchange (lines 99-102), up to the [action] of the listing. *)
Lemma apply_steps_action listing i (s : state W) w1 details rd action :
  subscript listing "id" = inr i →
  http (world s) (headers s) (POST LISTING_DETAILS_URL {["id" := i]})
    = (w1, Answered (inr details)) →
  dig details ["result"; "reactionData"] = inr rd →
  subscript rd "action" = inr action →
  apply_steps listing i s =
  prepend [Requested (POST LISTING_DETAILS_URL {["id" := i]})]
    ((if eq_str action "add" then
        add_id ← item rd "url";
        response ← session_get REACTION_HASH_ID_URL;
        body ← response_json response;
        form ← item body "form";
        elements ← item form "elements";
        hash ← item elements "__hash__";
        initial_data ← item hash "initialData";
        dwelling_id ← lift (query_int add_id "dwellingID");
        action_id ← lift (query_int add_id "add");
        response ← session_post REACTION_URL (reaction_load initial_data dwelling_id action_id);
        body ← response_json response;
        success ← item body "success";
        if truthy success then
          logger INFO ("Successfully applied: " +:+ py_str i);;
          body ← response_json response;
          data ← item body "reactionData";
          logger DEBUG (py_str data)
        else
          logger WARNING ("Something went wrong: " +:+ py_str i)
      else
        logger INFO ("Already applied? " +:+ py_str i)) (set_world s w1)).
Proof.
  intros Hi Hd Hrd Ha.
  apply dig_cons in Hrd as (rs & Hrs & Hrd).
  apply dig_cons in Hrd as (rd' & Hrd & ->%dig_nil).
  unfold apply_steps.
  rewrite (bind_ret _ _ _ _ _ _ (item_ret _ _ _ _ Hi)), prepend_nil.
  rewrite (bind_ret _ _ _ _ _ _ (session_request_answered _ _ _ _ Hd)).
  f_equal.
  change (response_json (inr details)) with (mret (M:=M W) details).
  rewrite (bind_ret _ _ _ details _ [] eq_refl), prepend_nil.
  rewrite (bind_ret _ _ _ _ _ _ (item_ret _ _ _ _ Hrs)), prepend_nil.
  rewrite (bind_ret _ _ _ _ _ _ (item_ret _ _ _ _ Hrd)), prepend_nil.
  by rewrite (bind_ret _ _ _ _ _ _ (item_ret _ _ _ _ Ha)), prepend_nil.
Qed.

Lemma response_json_ret (v : json) (s : state W) :
  response_json (inr v) s = Out (Ret v) s [].
Proof. done. Qed.

Lemma lift_ret {A} (r : exn + A) (a : A) (s : state W) :
  r = inr a → lift r s = Out (Ret a) s [].
Proof. by intros ->. Qed.

(** The second and third exchange (lines 106-123), up to the [success] of
    the reaction. *)
Lemma apply_steps_add listing i (s : state W) w1 details rd action
    url w2 config initial_data d a w3 body success :
  subscript listing "id" = inr i →
  http (world s) (headers s) (POST LISTING_DETAILS_URL {["id" := i]})
    = (w1, Answered (inr details)) →
  dig details ["result"; "reactionData"] = inr rd →
  subscript rd "action" = inr action →
  eq_str action "add" = true →
  subscript rd "url" = inr url →
  http w1 (headers s) (GET REACTION_HASH_ID_URL) = (w2, Answered (inr config)) →
  dig config ["form"; "elements"; "__hash__"; "initialData"] = inr initial_data →
  query_int url "dwellingID" = inr d →
  query_int url "add" = inr a →
  http w2 (headers s) (POST REACTION_URL (reaction_load initial_data d a))
    = (w3, Answered (inr body)) →
  subscript body "success" = inr success →
  apply_steps listing i s =
  prepend [Requested (POST LISTING_DETAILS_URL {["id" := i]});
           Requested (GET REACTION_HASH_ID_URL);
           Requested (POST REACTION_URL (reaction_load initial_data d a))]
    (if truthy success then
       match subscript body "reactionData" with
       | inr data => Out (Ret ()) (set_world s w3)
                         [outcome_line i Applied; Logged DEBUG (py_str data)]
       | inl e => Out (Raise e) (set_world s w3) [outcome_line i Applied]
       end
     else Out (Ret ()) (set_world s w3) [outcome_line i (Failed None)]).
Proof.
  intros Hi Hd Hrd Ha Hadd Hu Hc Hinit Hq1 Hq2 Hr Hs.
  rewrite (apply_steps_action listing i s w1 details rd action Hi Hd Hrd Ha).
  rewrite Hadd.
  apply dig_cons in Hinit as (form & Hform & Hinit).
  apply dig_cons in Hinit as (elements & Helements & Hinit).
  apply dig_cons in Hinit as (hash & Hhash & Hinit).
  apply dig_cons in Hinit as (init' & Hinit & ->%dig_nil).
  rewrite (bind_ret _ _ _ _ _ _ (item_ret _ _ _ _ Hu)), prepend_nil.
  rewrite (bind_ret _ _ (set_world s w1) _ _ _
             (session_request_answered (GET REACTION_HASH_ID_URL) (set_world s w1) w2 _ Hc)).
  rewrite (bind_ret _ _ _ _ _ _ (response_json_ret _ _)), prepend_nil.
  rewrite (bind_ret _ _ _ _ _ _ (item_ret _ _ _ _ Hform)), prepend_nil.
  rewrite (bind_ret _ _ _ _ _ _ (item_ret _ _ _ _ Helements)), prepend_nil.
  rewrite (bind_ret _ _ _ _ _ _ (item_ret _ _ _ _ Hhash)), prepend_nil.
  rewrite (bind_ret _ _ _ _ _ _ (item_ret _ _ _ _ Hinit)), prepend_nil.
  rewrite (bind_ret _ _ _ _ _ _ (lift_ret _ _ _ Hq1)), prepend_nil.
  rewrite (bind_ret _ _ _ _ _ _ (lift_ret _ _ _ Hq2)), prepend_nil.
  rewrite (bind_ret _ _ (set_world (set_world s w1) w2) _ _ _
             (session_request_answered (POST REACTION_URL _)
                (set_world (set_world s w1) w2) w3 _ Hr)).
  rewrite (bind_ret _ _ _ _ _ _ (response_json_ret _ _)), prepend_nil.
  rewrite (bind_ret _ _ _ _ _ _ (item_ret _ _ _ _ Hs)), prepend_nil.
  rewrite !prepend_prepend. simpl app. f_equal.
  destruct (truthy success); [|done].
  unfold mbind, M_bind, bind. simpl.
  unfold item. destruct (subscript body "reactionData"); done.
Qed.

Lemma apply_for_new_listing_ret listing i (s : state W) s' ev :
  subscript listing "id" = inr i →
  apply_steps listing i s = Out (Ret ()) s' ev →
  apply_for_new_listing listing s = Out (Ret ()) s' ev.
Proof.
  intros Hi Hs. unfold apply_for_new_listing.
  rewrite (bind_ret _ _ _ _ _ _ (item_ret _ _ _ _ Hi)), prepend_nil.
  by apply try_except_request_ret.
Qed.

(** A request-level error anywhere in the [try] is caught and logged, and
    the call returns normally. *)
Lemma apply_for_new_listing_caught listing i (s : state W) e :
  subscript listing "id" = inr i →
  res (apply_steps listing i s) = Raise (RequestException e) →
  apply_for_new_listing listing s =
    Out (Ret ()) (st (apply_steps listing i s))
        (evs (apply_steps listing i s) ++ [outcome_line i (Failed (Some e))]).
Proof.
  intros Hi Hs. unfold apply_for_new_listing.
  rewrite (bind_ret _ _ _ _ _ _ (item_ret _ _ _ _ Hi)), prepend_nil.
  by rewrite (try_except_request_caught _ _ _ _ Hs).
Qed.

(** C2.  For a listing whose detail request is answered with an [action]:
    when the action is not ["add"], the call logs "Already applied?" and the
    detail request is the only request it issues; when the action is
    ["add"] and the reaction request is answered with a [success] field, the
    call issues exactly the detail, the form-token and the reaction request
    and then logs "Successfully applied" if [success] is true and
    "Something went wrong" if it is false. *)
Theorem apply_for_new_listing_outcomes listing i (s : state W) w1 details rd action :
  subscript listing "id" = inr i →
  http (world s) (headers s) (POST LISTING_DETAILS_URL {["id" := i]})
    = (w1, Answered (inr details)) →
  dig details ["result"; "reactionData"] = inr rd →
  subscript rd "action" = inr action →
  let o := apply_for_new_listing listing s in
  (eq_str action "add" = false →
     o = Out (Ret ()) (set_world s w1)
           [Requested (POST LISTING_DETAILS_URL {["id" := i]});
            outcome_line i AlreadyApplied]) ∧
  (eq_str action "add" = true →
     ∀ url w2 config initial_data d a w3 body success,
       subscript rd "url" = inr url →
       http w1 (headers s) (GET REACTION_HASH_ID_URL) = (w2, Answered (inr config)) →
       dig config ["form"; "elements"; "__hash__"; "initialData"] = inr initial_data →
       query_int url "dwellingID" = inr d →
       query_int url "add" = inr a →
       http w2 (headers s) (POST REACTION_URL (reaction_load initial_data d a))
         = (w3, Answered (inr body)) →
       subscript body "success" = inr success →
       requests (evs o) =
         [Requested (POST LISTING_DETAILS_URL {["id" := i]});
          Requested (GET REACTION_HASH_ID_URL);
          Requested (POST REACTION_URL (reaction_load initial_data d a))] ∧
       (truthy success = false →
          o = Out (Ret ()) (set_world s w3)
                (requests (evs o) ++ [outcome_line i (Failed None)])) ∧
       (truthy success = true →
          ∃ after, evs o = requests (evs o) ++ outcome_line i Applied :: after ∧
                   requests after = [] ∧
                   st o = set_world s w3 ∧
                   ∀ data, subscript body "reactionData" = inr data →
                     res o = Ret () ∧ after = [Logged DEBUG (py_str data)])).
Proof.
  intros Hi Hd Hrd Ha o. subst o. split.
  - intros Hadd. apply (apply_for_new_listing_ret listing i s _ _ Hi).
    rewrite (apply_steps_action listing i s w1 details rd action Hi Hd Hrd Ha).
    by rewrite Hadd.
  - intros Hadd url w2 config initial_data d a w3 body success
      Hu Hc Hinit Hq1 Hq2 Hr Hs.
    pose proof (apply_steps_add listing i s w1 details rd action url w2 config
                  initial_data d a w3 body success
                  Hi Hd Hrd Ha Hadd Hu Hc Hinit Hq1 Hq2 Hr Hs) as Hsteps.
    destruct (truthy success) eqn:Hok.
    + destruct (subscript body "reactionData") as [e|data] eqn:Hdata.
      * assert (Hrun : apply_for_new_listing listing s = apply_steps listing i s
                       ∨ ∃ x, e = RequestException x).
        { unfold apply_for_new_listing.
          rewrite (bind_ret _ _ _ _ _ _ (item_ret _ _ _ _ Hi)), prepend_nil.
          unfold subscript in Hdata. destruct body as [| | | | |m]; simplify_eq;
            try (left; apply (try_except_request_passes _ _ _ TypeError);
                 [by rewrite Hsteps|done]).
          destruct (assoc "reactionData" m); simplify_eq.
          left. apply (try_except_request_passes _ _ _ (KeyError "reactionData"));
            [by rewrite Hsteps|done]. }
        destruct Hrun as [Hrun|[x ->]].
        -- rewrite Hrun, Hsteps. simpl. split; [done|]. split; [done|].
           intros _. exists []. split; [done|]. split; [done|]. split; [done|].
           intros data Hdata'. done.
        -- unfold subscript in Hdata. destruct body as [| | | | |m]; try done.
           by destruct (assoc "reactionData" m).
      * rewrite (apply_for_new_listing_ret listing i s _ _ Hi Hsteps). simpl.
        split; [done|]. split; [done|]. intros _.
        exists [Logged DEBUG (py_str data)].
        split; [done|]. split; [done|]. split; [done|].
        intros data' Hdata'. by simplify_eq.
    + rewrite (apply_for_new_listing_ret listing i s _ _ Hi Hsteps). simpl.
      split; [done|]. split; [done|]. done.
Qed.

End Apply.

(** ** A small logic of runs *)

Section Logic.
Context {W : Type} `{!Platform W}.
Context (K : gset hkey) (P : event → Prop).

Lemma keeps_ret {A} (a : A) (Q : A → Prop) : Q a → keeps K P (ret (W:=W) a) Q.
Proof. intros Ha s Hs. simpl. split; [done|]. split; [constructor|]. by intros ? [= <-]. Qed.

Lemma keeps_raise {A} e (Q : A → Prop) : keeps K P (raise (W:=W) e) Q.
Proof. intros s Hs. simpl. split; [done|]. split; [constructor|]. done. Qed.

Lemma keeps_lift {A} (r : exn + A) (Q : A → Prop) :
  (∀ a, r = inr a → Q a) → keeps K P (lift (W:=W) r) Q.
Proof.
  intros Hr. destruct r as [e|a]; simpl.
  - apply keeps_raise.
  - apply (keeps_ret a). by apply Hr.
Qed.

Lemma keeps_item v k (Q : json → Prop) :
  (∀ x, subscript v k = inr x → Q x) → keeps K P (item (W:=W) v k) Q.
Proof. apply keeps_lift. Qed.

Lemma keeps_weaken {A} (m : M W A) (Q Q' : A → Prop) :
  keeps K P m Q → (∀ a, Q a → Q' a) → keeps K P m Q'.
Proof.
  intros Hm HQ s Hs. destruct (Hm s Hs) as (H1 & H2 & H3).
  split; [done|]. split; [done|]. intros a Ha. by apply HQ, H3.
Qed.

Lemma keeps_bind {A B} (m : M W A) (f : A → M W B) Q1 (Q2 : B → Prop) :
  keeps K P m Q1 → (∀ a, Q1 a → keeps K P (f a) Q2) → keeps K P (m ≫= f) Q2.
Proof.
  intros Hm Hf s Hs. destruct (Hm s Hs) as (H1 & H2 & H3).
  unfold mbind, M_bind, bind. destruct (res (m s)) as [a|e] eqn:Hres; simpl.
  - destruct (Hf a (H3 a eq_refl) (st (m s)) H1) as (G1 & G2 & G3).
    split; [done|]. split; [by apply Forall_app_2|]. exact G3.
  - split; [done|]. split; [done|]. done.
Qed.

Lemma keeps_try_request {A} (body : M W A) handler (Q : A → Prop) :
  keeps K P body Q → (∀ e, keeps K P (handler e) Q) →
  keeps K P (try_except_request body handler) Q.
Proof.
  intros Hb Hh s Hs. destruct (Hb s Hs) as (H1 & H2 & H3).
  unfold try_except_request.
  destruct (res (body s)) as [a|e] eqn:Hres; [by rewrite Hres|].
  destruct e; try (by rewrite Hres).
  destruct (Hh e (st (body s)) H1) as (G1 & G2 & G3).
  simpl. split; [done|]. split; [by apply Forall_app_2|]. exact G3.
Qed.

Lemma keeps_try_telegram {A} (body : M W A) handler (Q : A → Prop) :
  keeps K P body Q → (∀ e, keeps K P (handler e) Q) →
  keeps K P (try_except_telegram body handler) Q.
Proof.
  intros Hb Hh s Hs. destruct (Hb s Hs) as (H1 & H2 & H3).
  unfold try_except_telegram.
  destruct (res (body s)) as [a|e] eqn:Hres; [by rewrite Hres|].
  destruct e; try (by rewrite Hres).
  destruct (Hh e (st (body s)) H1) as (G1 & G2 & G3).
  simpl. split; [done|]. split; [by apply Forall_app_2|]. exact G3.
Qed.

Lemma keeps_for_each {A} (l : list A) (body : A → M W ()) :
  (∀ x, x ∈ l → keeps K P (body x) (λ _, True)) →
  keeps K P (for_each l body) (λ _, True).
Proof.
  induction l as [|x l IH]; intros Hb.
  - by apply (keeps_ret ()).
  - simpl. apply (keeps_bind (body x) _ (λ _, True)).
    + apply Hb. left.
    + intros _ _. apply IH. intros y Hy. apply Hb. by right.
Qed.

Lemma keeps_for_fold {A B} (l : list A) (acc : B) (body : B → A → M W B) (Q : B → Prop) :
  Q acc → (∀ acc x, x ∈ l → Q acc → keeps K P (body acc x) Q) →
  keeps K P (for_fold l acc body) Q.
Proof.
  revert acc. induction l as [|x l IH]; intros acc Hacc Hb.
  - by apply keeps_ret.
  - simpl. apply (keeps_bind (body acc x) _ Q).
    + apply Hb; [left|done].
    + intros acc' Hacc'. apply IH; [done|]. intros a y Hy. apply Hb. by right.
Qed.

Lemma keeps_emit e : P e → keeps K P (emit (W:=W) e) (λ _, True).
Proof. intros He s Hs. simpl. split; [done|]. split; [by repeat constructor|]. done. Qed.

Lemma keeps_logger lvl msg : P (Logged lvl msg) → keeps K P (logger (W:=W) lvl msg) (λ _, True).
Proof. apply keeps_emit. Qed.

Lemma keeps_session_request r :
  P (Requested r) → keeps K P (session_request r) (λ _, True).
Proof.
  intros Hr s Hs. unfold session_request.
  destruct (http (world s) (headers s) r) as [w [e|body]]; simpl;
    (split; [done|]); (split; [by repeat constructor|]); done.
Qed.

Lemma keeps_send_message tg_token chat_id text :
  P (SendMessage tg_token chat_id text) →
  keeps K P (send_message tg_token chat_id text) (λ _, True).
Proof.
  intros Hr s Hs. unfold send_message.
  destruct (bot_send_message (world s) tg_token chat_id text) as [w [e|]]; simpl;
    (split; [done|]); (split; [by repeat constructor|]); done.
Qed.

Lemma keeps_bot_create tg_token : keeps K P (bot_create (W:=W) tg_token) (λ _, True).
Proof.
  intros s Hs. unfold bot_create. destruct (bot_new tg_token); simpl;
    (split; [done|]); (split; [constructor|]); done.
Qed.

Lemma keeps_bot_enter tg_token : keeps K P (bot_enter (W:=W) tg_token) (λ _, True).
Proof.
  intros s Hs. unfold bot_enter.
  destruct (bot_initialize (world s) tg_token) as [w [e|]]; simpl;
    (split; [done|]); (split; [constructor|]); done.
Qed.

Lemma keeps_response_json body : keeps K P (response_json (W:=W) body) (λ _, True).
Proof. destruct body as [e|v]; [apply keeps_raise|by apply (keeps_ret v)]. Qed.

Lemma keeps_headers_update k v : keeps K P (headers_update (W:=W) k v) (λ _, True).
Proof. intros s Hs. simpl. split; [done|]. split; [constructor|]. done. Qed.

Lemma keeps_login_load_set k v : keeps K P (login_load_set (W:=W) k v) (λ _, True).
Proof. intros s Hs. simpl. split; [done|]. split; [constructor|]. done. Qed.

Lemma keeps_login_load_get : keeps K P (login_load_get (W:=W)) (λ _, True).
Proof. intros s Hs. simpl. split; [done|]. split; [constructor|]. done. Qed.

Lemma keeps_known_listings_get : keeps K P (known_listings_get (W:=W)) (λ known, K ⊆ known).
Proof.
  intros s Hs. simpl. split; [done|]. split; [constructor|]. by intros ? [= <-].
Qed.

Lemma keeps_known_listings_add k : keeps K P (known_listings_add (W:=W) k) (λ _, True).
Proof.
  intros s Hs. simpl. split; [set_solver|]. split; [constructor|]. done.
Qed.

End Logic.

(** ** What every run of a cycle keeps *)

Section Invariants.
Context {W : Type} `{!Platform W}.
Context (K : gset hkey) (P : event → Prop).

Lemma keeps_bind_any {A B} (m : M W A) (f : A → M W B) (Q : B → Prop) :
  keeps K P m (λ _, True) → (∀ a, keeps K P (f a) Q) → keeps K P (m ≫= f) Q.
Proof. intros Hm Hf. apply (keeps_bind K P m f (λ _, True)); auto. Qed.

Lemma keeps_item_any v k : keeps K P (item (W:=W) v k) (λ _, True).
Proof. by apply keeps_item. Qed.

Lemma keeps_lift_any {A} (r : exn + A) : keeps K P (lift (W:=W) r) (λ _, True).
Proof. by apply keeps_lift. Qed.

Lemma keeps_skip : keeps K P (mret (M:=M W) ()) (λ _, True).
Proof. apply (keeps_ret K P ()). exact I. Qed.

Lemma all_outside_snoc acc l k :
  all_outside K acc → listing_key l = Some k → k ∉ K → all_outside K (acc ++ [l]).
Proof.
  intros Hacc Hl Hk x [Hx|Hx]%elem_of_app; [by apply Hacc|].
  apply list_elem_of_singleton in Hx as ->. eauto.
Qed.

Lemma keeps_consider_listing acc l :
  (∀ lvl msg, P (Logged lvl msg)) →
  all_outside K acc →
  keeps K P (consider_listing (W:=W) acc l) (all_outside K).
Proof.
  intros Hlog Hacc. unfold consider_listing.
  apply (keeps_bind K P _ _ (λ v, subscript l "id" = inr v)); [by apply keeps_item|].
  intros v Hv.
  apply (keeps_bind K P _ _ (λ k, hash_key v = inr k)); [by apply keeps_lift|].
  intros k Hk.
  apply (keeps_bind K P _ _ (λ known, K ⊆ known)); [apply keeps_known_listings_get|].
  intros known Hknown.
  destruct (decide (k ∉ known)) as [Hnew|Hold].
  - apply keeps_bind_any; [apply keeps_known_listings_add|]. intros _.
    apply keeps_bind_any; [by apply keeps_logger|]. intros _.
    apply keeps_ret. apply (all_outside_snoc acc l k); [done| |set_solver].
    unfold listing_key. by rewrite Hv, Hk.
  - by apply keeps_ret.
Qed.

Lemma keeps_find_new_listings L :
  (∀ lvl msg, P (Logged lvl msg)) →
  keeps K P (find_new_listings (W:=W) L) (all_outside K).
Proof.
  intros Hlog. unfold find_new_listings. apply keeps_for_fold.
  - by intros x Hx%elem_of_nil.
  - intros acc x _ Hacc. by apply keeps_consider_listing.
Qed.

Lemma keeps_fetch_new_listings :
  (∀ lvl msg, P (Logged lvl msg)) →
  P (Requested (GET LISTINGS_URL)) →
  P (Requested (GET LISTINGS_API_URL)) →
  keeps K P (fetch_new_listings (W:=W)) (all_outside K).
Proof.
  intros Hlog Hpage Hapi. unfold fetch_new_listings.
  apply keeps_bind_any; [by apply keeps_session_request|]. intros _.
  apply keeps_bind_any; [apply keeps_headers_update|]. intros _.
  apply keeps_bind_any; [by apply keeps_session_request|]. intros response.
  apply keeps_bind_any; [apply keeps_response_json|]. intros body.
  apply keeps_bind_any; [apply keeps_item_any|]. intros listings_data.
  apply keeps_bind_any; [apply keeps_lift_any|]. intros listings.
  by apply keeps_find_new_listings.
Qed.

Lemma keeps_login :
  P (Requested (GET LOGIN_HASH_ID_URL)) →
  (∀ data, P (Requested (POST LOGIN_URL data))) →
  keeps K P (login (W:=W)) (λ _, True).
Proof.
  intros Hget Hpost. unfold login.
  apply keeps_bind_any; [by apply keeps_session_request|]. intros response.
  apply keeps_bind_any; [apply keeps_response_json|]. intros body.
  do 4 (apply keeps_bind_any; [apply keeps_item_any|]; intros ?).
  apply keeps_bind_any; [apply keeps_login_load_set|]. intros _.
  apply keeps_bind_any; [apply keeps_login_load_get|]. intros data.
  by apply keeps_session_request.
Qed.

Section Admits.
Hypothesis HP : admits K P.

Lemma admits_log lvl msg : P (Logged lvl msg).
Proof. apply HP. Qed.

Lemma admits_get url : P (Requested (GET url)).
Proof. apply HP. Qed.

Lemma keeps_apply_steps l i k :
  subscript l "id" = inr i → hash_key i = inr k → k ∉ K →
  keeps K P (apply_steps (W:=W) l i) (λ _, True).
Proof.
  intros Hi Hk Hout. destruct HP as (Hlog & Hget & _ & Hreact & Hdet & _).
  unfold apply_steps.
  apply (keeps_bind K P _ _ (λ v, v = i)).
  { apply keeps_item. intros x Hx. congruence. }
  intros ? ->.
  apply keeps_bind_any; [apply keeps_session_request; by apply (Hdet i k)|].
  intros response.
  apply keeps_bind_any; [apply keeps_response_json|]. intros body.
  do 3 (apply keeps_bind_any; [apply keeps_item_any|]; intros ?).
  destruct (eq_str _ "add"); [|by apply keeps_logger].
  apply keeps_bind_any; [apply keeps_item_any|]. intros add_id.
  apply keeps_bind_any; [by apply keeps_session_request|]. intros response'.
  apply keeps_bind_any; [apply keeps_response_json|]. intros body'.
  do 4 (apply keeps_bind_any; [apply keeps_item_any|]; intros ?).
  do 2 (apply keeps_bind_any; [apply keeps_lift_any|]; intros ?).
  apply keeps_bind_any; [by apply keeps_session_request|]. intros response''.
  apply keeps_bind_any; [apply keeps_response_json|]. intros body''.
  apply keeps_bind_any; [apply keeps_item_any|]. intros success.
  destruct (truthy success); [|by apply keeps_logger].
  apply keeps_bind_any; [by apply keeps_logger|]. intros _.
  apply keeps_bind_any; [apply keeps_response_json|]. intros ?.
  apply keeps_bind_any; [apply keeps_item_any|]. intros data.
  by apply keeps_logger.
Qed.

Lemma keeps_apply_for_new_listing l k :
  listing_key l = Some k → k ∉ K →
  keeps K P (apply_for_new_listing (W:=W) l) (λ _, True).
Proof.
  unfold listing_key. intros Hl Hout.
  destruct (subscript l "id") as [e|i] eqn:Hi; [done|].
  destruct (hash_key i) as [e|k'] eqn:Hk; [done|]. simplify_eq.
  unfold apply_for_new_listing.
  apply (keeps_bind K P _ _ (λ v, v = i)).
  { apply keeps_item. intros x Hx. congruence. }
  intros ? ->. apply keeps_try_request.
  - by apply (keeps_apply_steps l i k).
  - intros e. apply keeps_logger, admits_log.
Qed.

Lemma keeps_send_telegram_notification l tg_token chat_ids k :
  listing_key l = Some k → k ∉ K →
  keeps K P (send_telegram_notification (W:=W) l tg_token chat_ids) (λ _, True).
Proof.
  unfold listing_key. intros Hl Hout.
  destruct (subscript l "id") as [e|i] eqn:Hi; [done|].
  destruct (hash_key i) as [e|k'] eqn:Hk; [done|]. simplify_eq.
  destruct HP as (Hlog & _ & _ & _ & _ & Hsend & _).
  unfold send_telegram_notification.
  apply keeps_bind_any; [apply keeps_bot_create|]. intros _.
  apply (keeps_bind K P _ _ (λ v, v = i)).
  { apply keeps_item. intros x Hx. congruence. }
  intros ? ->.
  do 2 (apply keeps_bind_any; [apply keeps_item_any|]; intros ?).
  apply keeps_bind_any; [apply keeps_bot_enter|]. intros _.
  apply keeps_for_each. intros chat_id _. apply keeps_try_telegram.
  - apply keeps_bind_any; [|intros _; by apply keeps_logger].
    apply keeps_send_message. by apply (Hsend _ _ _ _ _ k).
  - intros e. by apply keeps_logger.
Qed.

Lemma keeps_apply_and_notify news tg_token chat_ids :
  all_outside K news →
  keeps K P (apply_and_notify (W:=W) news tg_token chat_ids) (λ _, True).
Proof.
  intros Hnews. unfold apply_and_notify. apply keeps_for_each.
  intros l Hl. destruct (Hnews l Hl) as (k & Hk & Hout).
  apply keeps_bind_any; [by apply (keeps_apply_for_new_listing l k)|]. intros _.
  by apply (keeps_send_telegram_notification l _ _ k).
Qed.

Lemma keeps_check_steps tg_token chat_ids :
  keeps K P (check_steps (W:=W) tg_token chat_ids) (λ _, True).
Proof.
  unfold check_steps.
  apply (keeps_bind K P _ _ (all_outside K)).
  { apply keeps_fetch_new_listings; [apply admits_log|apply admits_get..]. }
  intros news Hnews.
  destruct (bool_decide _); [|apply keeps_skip].
  apply keeps_bind_any; [apply keeps_login; [apply admits_get|apply HP]|].
  intros response.
  apply keeps_bind_any; [apply keeps_response_json|]. intros body.
  apply keeps_bind_any; [apply keeps_item_any|]. intros logged_in.
  destruct (negb _); [apply keeps_logger, admits_log|].
  by apply keeps_apply_and_notify.
Qed.

Lemma keeps_check_for_new_listings tg_token chat_ids :
  keeps K P (check_for_new_listings (W:=W) tg_token chat_ids) (λ known, K ⊆ known).
Proof.
  unfold check_for_new_listings.
  apply keeps_bind_any; [|intros _; apply keeps_known_listings_get].
  apply keeps_try_request; [apply keeps_check_steps|].
  intros e. apply keeps_logger, admits_log.
Qed.

Lemma keeps_cycles n tg_token chat_ids :
  keeps K P (cycles (W:=W) n tg_token chat_ids) (λ _, True).
Proof.
  induction n as [|n IH]; simpl.
  - apply keeps_skip.
  - apply keeps_bind_any.
    { apply (keeps_weaken K P _ _ _ (keeps_check_for_new_listings _ _)). done. }
    intros known.
    apply keeps_bind_any; [apply keeps_emit, HP|]. intros _.
    apply keeps_bind_any; [apply keeps_emit, HP|]. intros _.
    apply IH.
Qed.

End Admits.

End Invariants.

Lemma admits_anything {W} `{!Platform W} K : admits (W:=W) K (λ _, True).
Proof. by repeat split. Qed.



(** ** One cycle *)

Section Cycle.
Context {W : Type} `{!Platform W}.

Lemma check_of_steps_ret tg_token chat_ids (s s' : state W) ev :
  check_steps tg_token chat_ids s = Out (Ret ()) s' ev →
  check_for_new_listings tg_token chat_ids s = Out (Ret (known_listings s')) s' ev.
Proof.
  intros Hs. unfold check_for_new_listings, mbind, M_bind, bind, try_except_request.
  rewrite Hs. simpl. by rewrite app_nil_r.
Qed.

Lemma check_of_steps_caught tg_token chat_ids (s s' : state W) ev e :
  check_steps tg_token chat_ids s = Out (Raise (RequestException e)) s' ev →
  check_for_new_listings tg_token chat_ids s =
    Out (Ret (known_listings s')) s'
        (ev ++ [Logged ERROR ("Error checking for new listings: " +:+ e)]).
Proof.
  intros Hs. unfold check_for_new_listings, mbind, M_bind, bind, try_except_request.
  rewrite Hs. simpl. by rewrite app_nil_r.
Qed.

Lemma check_steps_fetch_raise tg_token chat_ids (s s1 : state W) ev e :
  fetch_new_listings s = Out (Raise e) s1 ev →
  check_steps tg_token chat_ids s = Out (Raise e) s1 ev.
Proof. intros Hf. unfold check_steps. by rewrite (bind_raise _ _ _ _ _ _ Hf). Qed.

Lemma check_steps_nothing_new tg_token chat_ids (s s1 : state W) ev :
  fetch_new_listings s = Out (Ret []) s1 ev →
  check_steps tg_token chat_ids s = Out (Ret ()) s1 ev.
Proof.
  intros Hf. unfold check_steps. rewrite (bind_ret _ _ _ _ _ _ Hf). simpl.
  unfold prepend. simpl. by rewrite app_nil_r.
Qed.

Lemma check_steps_new tg_token chat_ids (s s1 : state W) ev news :
  fetch_new_listings s = Out (Ret news) s1 ev → news ≠ [] →
  check_steps tg_token chat_ids s =
    prepend ev
      ((response ← login;
        body ← response_json response;
        logged_in ← item body "loggedIn";
        if negb (truthy logged_in) then
          logger WARNING ("Could not login: " +:+ py_str body)
        else
          apply_and_notify news tg_token chat_ids) s1).
Proof.
  intros Hf Hnew. unfold check_steps. rewrite (bind_ret _ _ _ _ _ _ Hf).
  destruct news as [|l news]; [done|]. done.
Qed.

Lemma fetch_warm_up_refused (s : state W) w e :
  http (world s) (headers s) (GET LISTINGS_URL) = (w, Refused e) →
  fetch_new_listings s =
    Out (Raise (RequestException e)) (set_world s w) [Requested (GET LISTINGS_URL)].
Proof.
  intros Hr. unfold fetch_new_listings.
  by rewrite (bind_raise _ _ _ _ _ _ (session_request_refused _ _ _ _ Hr)).
Qed.

Lemma fetch_listings_refused (s : state W) w1 page w2 e :
  http (world s) (headers s) (GET LISTINGS_URL) = (w1, Answered page) →
  http w1 (<["referer" := LISTINGS_URL]> (headers s)) (GET LISTINGS_API_URL)
    = (w2, Refused e) →
  fetch_new_listings s =
    Out (Raise (RequestException e)) (warmed_up s w2)
        [Requested (GET LISTINGS_URL); Requested (GET LISTINGS_API_URL)].
Proof.
  intros H1 H2. unfold fetch_new_listings.
  rewrite (bind_ret _ _ _ _ _ _ (session_request_answered _ _ _ _ H1)).
  rewrite (bind_ret _ _ (set_world s w1) () (warmed_up s w1) [] eq_refl), prepend_nil.
  by rewrite (bind_raise _ _ _ _ _ _
                (session_request_refused (GET LISTINGS_API_URL) (warmed_up s w1) w2 e H2)).
Qed.

Lemma login_config_refused (s : state W) w e :
  http (world s) (headers s) (GET LOGIN_HASH_ID_URL) = (w, Refused e) →
  login s = Out (Raise (RequestException e)) (set_world s w)
                [Requested (GET LOGIN_HASH_ID_URL)].
Proof.
  intros Hr. unfold login.
  by rewrite (bind_raise _ _ _ _ _ _ (session_request_refused _ _ _ _ Hr)).
Qed.

Lemma login_posted (s : state W) w1 config initial_data w2 answer :
  http (world s) (headers s) (GET LOGIN_HASH_ID_URL) = (w1, Answered (inr config)) →
  dig config ["loginForm"; "elements"; "__hash__"; "initialData"] = inr initial_data →
  http w1 (headers s) (POST LOGIN_URL (<["__hash__" := initial_data]> (login_load s)))
    = (w2, answer) →
  login s =
    Out (match answer with
         | Refused e => Raise (RequestException e)
         | Answered body => Ret body
         end)
        (logged s initial_data w2)
        [Requested (GET LOGIN_HASH_ID_URL);
         Requested (POST LOGIN_URL (<["__hash__" := initial_data]> (login_load s)))].
Proof.
  intros Hc Hinit Hp.
  apply dig_cons in Hinit as (form & Hform & Hinit).
  apply dig_cons in Hinit as (elements & Helements & Hinit).
  apply dig_cons in Hinit as (hash & Hhash & Hinit).
  apply dig_cons in Hinit as (init' & Hinit & ->%dig_nil).
  unfold login.
  rewrite (bind_ret _ _ _ _ _ _ (session_request_answered _ _ _ _ Hc)).
  rewrite (bind_ret _ _ _ _ _ _ (response_json_ret _ _)), prepend_nil.
  rewrite (bind_ret _ _ _ _ _ _ (item_ret _ _ _ _ Hform)), prepend_nil.
  rewrite (bind_ret _ _ _ _ _ _ (item_ret _ _ _ _ Helements)), prepend_nil.
  rewrite (bind_ret _ _ _ _ _ _ (item_ret _ _ _ _ Hhash)), prepend_nil.
  rewrite (bind_ret _ _ _ _ _ _ (item_ret _ _ _ _ Hinit)), prepend_nil.
  unfold mbind, M_bind, bind, login_load_set, login_load_get, session_post,
    session_request, prepend. simpl.
  rewrite Hp. by destruct answer.
Qed.

Lemma same_known_bind {A B} (m : M W A) (f : A → M W B) :
  same_known m → (∀ a, same_known (f a)) → same_known (m ≫= f).
Proof.
  intros Hm Hf s. unfold mbind, M_bind, bind.
  destruct (res (m s)) as [a|e]; simpl; [|apply Hm].
  by rewrite Hf, Hm.
Qed.

Lemma same_known_session_request r : same_known (session_request (W:=W) r).
Proof.
  intros s. unfold session_request.
  by destruct (http (world s) (headers s) r) as [w [e|body]].
Qed.

Lemma same_known_response_json body : same_known (response_json (W:=W) body).
Proof. intros s. by destruct body. Qed.

Lemma same_known_item v k : same_known (item (W:=W) v k).
Proof. intros s. unfold item. by destruct (subscript v k). Qed.

(** The login requests do not touch the known set. *)
Lemma login_known (s : state W) :
  known_listings (st (login s)) = known_listings s.
Proof.
  revert s. change (same_known (login (W:=W))). unfold login.
  apply same_known_bind; [apply same_known_session_request|]. intros response.
  apply same_known_bind; [apply same_known_response_json|]. intros body.
  do 4 (apply same_known_bind; [apply same_known_item|]; intros ?).
  apply same_known_bind; [done|]. intros _.
  apply same_known_bind; [done|]. intros data.
  apply same_known_session_request.
Qed.

Lemma returns_known_bind {A} (m : M W A) f :
  (∀ a, returns_known (f a)) → returns_known (m ≫= f).
Proof.
  intros Hf s news. unfold mbind, M_bind, bind.
  destruct (res (m s)) as [a|e] eqn:Hm; simpl; [|done].
  apply Hf.
Qed.

Lemma consider_listing_raise acc l (s : state W) :
  listing_key l = None → ∃ e, consider_listing acc l s = Out (Raise e) s [].
Proof.
  unfold listing_key, consider_listing, item. intros Hl.
  destruct (subscript l "id") as [e|v] eqn:Hid; [by exists e|].
  destruct (hash_key v) as [e|k] eqn:Hh; [|done].
  exists e. unfold mbind, M_bind, bind. simpl. by rewrite Hh.
Qed.

Lemma for_fold_consider_known L : ∀ acc (s : state W) news,
  (∀ x, x ∈ acc → ∃ k, listing_key x = Some k ∧ k ∈ known_listings s) →
  res (for_fold L acc consider_listing s) = Ret news →
  ∀ x, x ∈ news →
    ∃ k, listing_key x = Some k ∧
         k ∈ known_listings (st (for_fold L acc consider_listing s)).
Proof.
  induction L as [|l L IH]; intros acc s news Hacc Hres.
  - simpl in *. by simplify_eq.
  - simpl in *. destruct (listing_key l) as [k|] eqn:Hl.
    + destruct (decide (k ∈ known_listings s)) as [Hin|Hnin].
      * rewrite (bind_ret _ _ _ _ _ _ (consider_listing_known acc l k s Hl Hin)) in *.
        rewrite prepend_nil in *. by apply IH.
      * rewrite (bind_ret _ _ _ _ _ _ (consider_listing_new acc l k s Hl Hnin)) in *.
        simpl in *. apply (IH (acc ++ [l]) (add_known k s) news); [|done].
        intros x [Hx|Hx]%elem_of_app.
        -- destruct (Hacc x Hx) as (k' & Hk' & Hin'). exists k'. simpl. set_solver.
        -- apply list_elem_of_singleton in Hx as ->. exists k. simpl. set_solver.
    + destruct (consider_listing_raise acc l s Hl) as [e He].
      rewrite (bind_raise _ _ _ _ _ _ He) in Hres. done.
Qed.

Lemma returns_known_fetch : returns_known (fetch_new_listings (W:=W)).
Proof.
  unfold fetch_new_listings.
  do 6 (apply returns_known_bind; intros ?).
  intros s news Hres. apply (for_fold_consider_known _ [] s news); [|done].
  by intros x Hx%elem_of_nil.
Qed.

Lemma fetch_event_before_apply e : fetch_event e → before_apply e.
Proof. destruct e as [[url|url data]| | | |]; simpl; naive_solver. Qed.

Lemma fetch_events (s : state W) : Forall fetch_event (evs (fetch_new_listings s)).
Proof.
  apply (keeps_fetch_new_listings ∅ fetch_event); simpl; auto. set_solver.
Qed.

Lemma before_apply_no_sends ev : Forall before_apply ev → sends ev = [].
Proof.
  induction 1 as [|e ev He Hev IH]; [done|].
  unfold sends. rewrite filter_cons. fold (sends ev). rewrite IH.
  destruct e as [[?|? ?]| | | |]; simpl in *; done.
Qed.


(** C6.  When the warm-up request, or after it the listings request, is
    refused (the request raises, or [raise_for_status] does on a 4xx or 5xx
    status), the cycle logs the error and returns the known set it was
    given; the refused request was its last: no login request, no
    application, no message. *)
Theorem fetch_failure_skips_cycle tg_token chat_ids (s : state W) :
  (∀ w e,
     http (world s) (headers s) (GET LISTINGS_URL) = (w, Refused e) →
     check_for_new_listings tg_token chat_ids s =
       Out (Ret (known_listings s)) (set_world s w)
           [Requested (GET LISTINGS_URL);
            Logged ERROR ("Error checking for new listings: " +:+ e)]) ∧
  (∀ w1 page w2 e,
     http (world s) (headers s) (GET LISTINGS_URL) = (w1, Answered page) →
     http w1 (<["referer" := LISTINGS_URL]> (headers s)) (GET LISTINGS_API_URL)
       = (w2, Refused e) →
     check_for_new_listings tg_token chat_ids s =
       Out (Ret (known_listings s)) (warmed_up s w2)
           [Requested (GET LISTINGS_URL); Requested (GET LISTINGS_API_URL);
            Logged ERROR ("Error checking for new listings: " +:+ e)]).
Proof.
  split.
  - intros w e Hr.
    apply (check_of_steps_caught tg_token chat_ids s (set_world s w) [_] e).
    apply check_steps_fetch_raise. by apply fetch_warm_up_refused.
  - intros w1 page w2 e H1 H2.
    apply (check_of_steps_caught tg_token chat_ids s (warmed_up s w2) [_; _] e).
    apply check_steps_fetch_raise. by apply (fetch_listings_refused s w1 page).
Qed.

(** C10.  When the fetch phase finds no new listing, the cycle ends there:
    it returns the known set, and its events are those of the fetch phase,
    the two listing requests and log lines, so no login request, no
    application and no message. *)
Theorem no_new_listings_no_login tg_token chat_ids (s s1 : state W) ev :
  fetch_new_listings s = Out (Ret []) s1 ev →
  check_for_new_listings tg_token chat_ids s = Out (Ret (known_listings s1)) s1 ev ∧
  Forall fetch_event ev ∧
  sends ev = [] ∧
  Requested (GET LOGIN_HASH_ID_URL) ∉ ev.
Proof.
  intros Hf.
  assert (Hev : Forall fetch_event ev).
  { pose proof (fetch_events s) as H. by rewrite Hf in H. }
  split; [|split; [done|split]].
  - apply check_of_steps_ret. by apply check_steps_nothing_new.
  - apply before_apply_no_sends.
    eapply Forall_impl; [exact Hev|]. apply fetch_event_before_apply.
  - intros Hin. rewrite Forall_forall in Hev. apply Hev in Hin.
    simpl in Hin. destruct Hin as [Hin|Hin]; by vm_compute in Hin.
Qed.

(** C4.  In a cycle that found new listings and whose login is answered
    with a false [loggedIn], the cycle logs a warning and returns; the
    returned known set contains the ID of every new listing, and the events
    of the cycle are those of the fetch phase and the two login requests: no
    application and no message. *)
Theorem login_rejected_skips_applies tg_token chat_ids (s s1 : state W) news ev1
    w2 config initial_data w3 body logged_in :
  fetch_new_listings s = Out (Ret news) s1 ev1 →
  news ≠ [] →
  http (world s1) (headers s1) (GET LOGIN_HASH_ID_URL) = (w2, Answered (inr config)) →
  dig config ["loginForm"; "elements"; "__hash__"; "initialData"] = inr initial_data →
  http w2 (headers s1) (POST LOGIN_URL (<["__hash__" := initial_data]> (login_load s1)))
    = (w3, Answered (inr body)) →
  subscript body "loggedIn" = inr logged_in →
  truthy logged_in = false →
  let o := check_for_new_listings tg_token chat_ids s in
  o = Out (Ret (known_listings s1)) (logged s1 initial_data w3)
          (ev1 ++ [Requested (GET LOGIN_HASH_ID_URL);
                   Requested (POST LOGIN_URL
                                (<["__hash__" := initial_data]> (login_load s1)));
                   Logged WARNING ("Could not login: " +:+ py_str body)]) ∧
  (∀ l, l ∈ news → ∃ k, listing_key l = Some k ∧ k ∈ known_listings s1) ∧
  Forall before_apply (evs o) ∧
  sends (evs o) = [].
Proof.
  intros Hf Hnew Hc Hinit Hp Hl Hfalse o.
  assert (Ho : o = Out (Ret (known_listings s1)) (logged s1 initial_data w3)
          (ev1 ++ [Requested (GET LOGIN_HASH_ID_URL);
                   Requested (POST LOGIN_URL
                                (<["__hash__" := initial_data]> (login_load s1)));
                   Logged WARNING ("Could not login: " +:+ py_str body)])).
  { subst o. apply (check_of_steps_ret tg_token chat_ids s (logged s1 initial_data w3)).
    rewrite (check_steps_new tg_token chat_ids s s1 ev1 news Hf Hnew).
    rewrite (bind_ret _ _ _ _ _ _
               (login_posted s1 w2 config initial_data w3 _ Hc Hinit Hp)).
    rewrite (bind_ret _ _ _ _ _ _ (response_json_ret _ _)), prepend_nil.
    rewrite (bind_ret _ _ _ _ _ _ (item_ret _ _ _ _ Hl)), prepend_nil.
    rewrite Hfalse. done. }
  assert (Hev1 : Forall before_apply ev1).
  { pose proof (fetch_events s) as H. rewrite Hf in H.
    eapply Forall_impl; [exact H|]. apply fetch_event_before_apply. }
  split; [done|]. split; [|split].
  - intros l Hin. pose proof (returns_known_fetch s news) as Hk.
    rewrite Hf in Hk. by apply Hk.
  - rewrite Ho. simpl. apply Forall_app_2; [done|].
    constructor; [simpl; auto|]. constructor; [done|]. constructor; [done|].
    constructor.
  - apply before_apply_no_sends. rewrite Ho. simpl. apply Forall_app_2; [done|].
    constructor; [simpl; auto|]. constructor; [done|]. constructor; [done|].
    constructor.
Qed.

(** Both refusals the login can meet make it raise a request-level error:
    of the login-configuration request, and of the login request itself. *)
Lemma login_refused_raises (s : state W) e :
  (∀ w, http (world s) (headers s) (GET LOGIN_HASH_ID_URL) = (w, Refused e) →
     res (login s) = Raise (RequestException e)) ∧
  (∀ w1 config initial_data w2,
     http (world s) (headers s) (GET LOGIN_HASH_ID_URL) = (w1, Answered (inr config)) →
     dig config ["loginForm"; "elements"; "__hash__"; "initialData"] = inr initial_data →
     http w1 (headers s) (POST LOGIN_URL (<["__hash__" := initial_data]> (login_load s)))
       = (w2, Refused e) →
     res (login s) = Raise (RequestException e)).
Proof.
  split.
  - intros w Hr. by rewrite (login_config_refused s w e Hr).
  - intros w1 config initial_data w2 Hc Hinit Hp.
    by rewrite (login_posted s w1 config initial_data w2 _ Hc Hinit Hp).
Qed.


(** C5.  Whatever the site and the bot answer, a cycle leaves a known set
    that includes the one it started from, and when the function returns, it
    returns that set; it fails to return only on an exception other than a
    request-level one, raised by its steps.  So the known set never shrinks
    over any number of rounds of the driver loop. *)
Theorem known_listings_never_shrink tg_token chat_ids (s : state W) :
  let o := check_for_new_listings tg_token chat_ids s in
  known_listings s ⊆ known_listings (st o) ∧
  (∀ known, res o = Ret known →
     known = known_listings (st o) ∧ known_listings s ⊆ known) ∧
  (∀ e, res o = Raise e →
     res (check_steps tg_token chat_ids s) = Raise e ∧ ∀ x, e ≠ RequestException x) ∧
  (∀ n, known_listings s ⊆ known_listings (st (cycles n tg_token chat_ids s))).
Proof.
  intros o.
  destruct (keeps_check_for_new_listings (known_listings s) (λ _, True)
              (admits_anything _) tg_token chat_ids s) as (Hst & _ & Hres); [done|].
  assert (Hval : ∀ known, res o = Ret known → known = known_listings (st o)).
  { subst o. unfold check_for_new_listings, mbind, M_bind, bind, try_except_request.
    intros known.
    destruct (res (check_steps tg_token chat_ids s)) as [[]|[x| | | |]] eqn:Hsteps;
      simpl; rewrite ?Hsteps; simpl; congruence. }
  split; [done|]. split; [|split].
  - intros known Hk. split; [by apply Hval|]. by apply Hres.
  - subst o. unfold check_for_new_listings, mbind, M_bind, bind, try_except_request.
    intros e.
    destruct (res (check_steps tg_token chat_ids s)) as [[]|[x| | | |]] eqn:Hsteps;
      simpl; rewrite ?Hsteps; simpl; intros; by simplify_eq.
  - intros n.
    by apply (keeps_cycles (known_listings s) (λ _, True) (admits_anything _)).
Qed.

(** C3, amended.  When applying for a listing raises a request-level
    error, the error is caught inside [apply_for_new_listing]: the call logs
    it as the failure of this listing and returns normally, and the loop over
    the new listings goes on with the notification of that listing.  When
    that notification returns, the loop goes on with the rest of the list
    from the store so reached, exactly as it would have; it does return when
    the listing has its ["urlKey"] and ["totalRent"], the bot is constructed
    from the token and [async with bot] is entered without an exception, and
    then the listing is announced to each recipient.  No run of
    [apply_for_new_listing] lets a request-level error out: what ends the
    loop early is an exception of a notification, or an exception of an
    application that is not request-level. *)
Theorem apply_failure_is_isolated l rest tg_token chat_ids (s : state W) i e :
  subscript l "id" = inr i →
  res (apply_steps l i s) = Raise (RequestException e) →
  let attempt := apply_steps l i s in
  let failed := evs attempt ++ [outcome_line i (Failed (Some e))] in
  apply_for_new_listing l s = Out (Ret ()) (st attempt) failed ∧
  apply_and_notify (l :: rest) tg_token chat_ids s =
    prepend failed
      ((send_telegram_notification l tg_token chat_ids;;
        apply_and_notify rest tg_token chat_ids) (st attempt)) ∧
  (∀ s2 ev_notify,
     send_telegram_notification l tg_token chat_ids (st attempt)
       = Out (Ret ()) s2 ev_notify →
     apply_and_notify (l :: rest) tg_token chat_ids s =
       prepend (failed ++ ev_notify) (apply_and_notify rest tg_token chat_ids s2)) ∧
  (∀ u r w0,
     subscript l "urlKey" = inr u →
     subscript l "totalRent" = inr r →
     bot_new tg_token = None →
     bot_initialize (world (st attempt)) tg_token = (w0, None) →
     ∃ w ev_notify,
       send_telegram_notification l tg_token chat_ids (st attempt)
         = Out (Ret ()) (set_world (st attempt) w) ev_notify ∧
       sends ev_notify =
         (λ c, SendMessage tg_token c (message_text i u r)) <$> chat_ids ∧
       apply_and_notify (l :: rest) tg_token chat_ids s =
         prepend (failed ++ ev_notify)
           (apply_and_notify rest tg_token chat_ids (set_world (st attempt) w))) ∧
  (∀ l' (s' : state W) x,
     res (apply_for_new_listing l' s') ≠ Raise (RequestException x)).
Proof.
  intros Hi Hfail attempt failed.
  pose proof (apply_for_new_listing_caught l i s e Hi Hfail) as Happly.
  fold attempt failed in Happly.
  assert (Hloop : apply_and_notify (l :: rest) tg_token chat_ids s =
            prepend failed
              ((send_telegram_notification l tg_token chat_ids;;
                apply_and_notify rest tg_token chat_ids) (st attempt))).
  { unfold apply_and_notify. simpl for_each.
    change (for_each rest _) with (apply_and_notify rest tg_token chat_ids).
    unfold mbind at 1 2, M_bind at 1 2, bind at 1 2. rewrite Happly. simpl.
    unfold mbind, M_bind, bind, prepend.
    destruct (res (send_telegram_notification l tg_token chat_ids (st attempt)));
      simpl; by rewrite ?app_assoc. }
  assert (Hnext : ∀ s2 ev_notify,
            send_telegram_notification l tg_token chat_ids (st attempt)
              = Out (Ret ()) s2 ev_notify →
            apply_and_notify (l :: rest) tg_token chat_ids s =
              prepend (failed ++ ev_notify)
                (apply_and_notify rest tg_token chat_ids s2)).
  { intros s2 ev_notify Hnotify. rewrite Hloop.
    rewrite (bind_ret _ _ _ _ _ _ Hnotify). by rewrite prepend_prepend. }
  split; [done|]. split; [done|]. split; [done|]. split.
  - intros u r w0 Hu Hr Hnew Henter.
    destruct (send_telegram_notification_run l tg_token chat_ids (st attempt) i u r w0
                Hi Hu Hr Hnew Henter) as (w & ev_notify & Hnotify & Hsends & _).
    exists w, ev_notify. split; [done|]. split; [done|]. by apply Hnext.
  - intros l' s' x. unfold apply_for_new_listing, mbind, M_bind, bind, item.
    destruct (subscript l' "id") as [e'|i'] eqn:Hi'; simpl.
    + intros [= ->]. by apply (subscript_not_request _ _ _ Hi' x).
    + unfold try_except_request.
      destruct (res (apply_steps l' i' s')) as [[]|[x'| | | |]] eqn:Hsteps;
        simpl; rewrite ?Hsteps; done.
Qed.

End Cycle.

(** ** What the steps of a cycle leave alone *)

Section Frame.
Context {W : Type} `{!Platform W}.

Lemma only_world_ret {A} (a : A) : only_world (ret (W:=W) a).
Proof. by intros s. Qed.

Lemma only_world_raise {A} e : only_world (raise (W:=W) (A:=A) e).
Proof. by intros s. Qed.

Lemma only_world_lift {A} (r : exn + A) : only_world (lift (W:=W) r).
Proof. destruct r; [apply only_world_raise|apply only_world_ret]. Qed.

Lemma only_world_item v k : only_world (item (W:=W) v k).
Proof. apply only_world_lift. Qed.

Lemma only_world_response_json body : only_world (response_json (W:=W) body).
Proof. destruct body; [apply only_world_raise|apply only_world_ret]. Qed.

Lemma only_world_logger lvl msg : only_world (logger (W:=W) lvl msg).
Proof. by intros s. Qed.

Lemma only_world_session_request r : only_world (session_request (W:=W) r).
Proof.
  intros s. unfold session_request.
  by destruct (http (world s) (headers s) r) as [w [e|body]].
Qed.

Lemma only_world_send_message tg_token chat_id text :
  only_world (send_message (W:=W) tg_token chat_id text).
Proof.
  intros s. unfold send_message.
  by destruct (bot_send_message (world s) tg_token chat_id text) as [w [e|]].
Qed.

Lemma only_world_bot_create tg_token : only_world (bot_create (W:=W) tg_token).
Proof. intros s. unfold bot_create. by destruct (bot_new tg_token). Qed.

Lemma only_world_bot_enter tg_token : only_world (bot_enter (W:=W) tg_token).
Proof.
  intros s. unfold bot_enter.
  by destruct (bot_initialize (world s) tg_token) as [w [e|]].
Qed.

Lemma only_world_bind {A B} (m : M W A) (f : A → M W B) :
  only_world m → (∀ a, only_world (f a)) → only_world (m ≫= f).
Proof.
  intros Hm Hf s. unfold mbind, M_bind, bind.
  destruct (Hm s) as (H1 & H2 & H3).
  destruct (res (m s)) as [a|e]; simpl; [|done].
  destruct (Hf a (st (m s))) as (G1 & G2 & G3). by rewrite G1, G2, G3.
Qed.

Lemma only_world_try_request {A} (body : M W A) handler :
  only_world body → (∀ e, only_world (handler e)) →
  only_world (try_except_request body handler).
Proof.
  intros Hb Hh s. unfold try_except_request.
  destruct (Hb s) as (H1 & H2 & H3).
  destruct (res (body s)) as [a|[e| | | |]]; simpl; try done.
  destruct (Hh e (st (body s))) as (G1 & G2 & G3). by rewrite G1, G2, G3.
Qed.

Lemma only_world_try_telegram {A} (body : M W A) handler :
  only_world body → (∀ e, only_world (handler e)) →
  only_world (try_except_telegram body handler).
Proof.
  intros Hb Hh s. unfold try_except_telegram.
  destruct (Hb s) as (H1 & H2 & H3).
  destruct (res (body s)) as [a|[e|e| | |]]; simpl; try done.
  destruct (Hh e (st (body s))) as (G1 & G2 & G3). by rewrite G1, G2, G3.
Qed.

Lemma only_world_for_each {A} (l : list A) (body : A → M W ()) :
  (∀ x, only_world (body x)) → only_world (for_each l body).
Proof.
  intros Hb. induction l as [|x l IH]; simpl; [by intros s|].
  apply only_world_bind; [apply Hb|]. by intros _.
Qed.

Ltac frame_steps :=
  repeat first
    [ apply only_world_bind; [|intros ?]
    | apply only_world_item
    | apply only_world_lift
    | apply only_world_response_json
    | apply only_world_logger
    | apply only_world_session_request
    | apply only_world_send_message
    | apply only_world_bot_create
    | apply only_world_bot_enter
    | apply only_world_try_request; [|intros ?]
    | apply only_world_try_telegram; [|intros ?]
    | apply only_world_for_each; intros ?
    | match goal with
      | |- only_world (if ?b then _ else _) => destruct b
      end ].

Lemma only_world_apply_for_new_listing l :
  only_world (apply_for_new_listing (W:=W) l).
Proof. unfold apply_for_new_listing, apply_steps. frame_steps. Qed.

Lemma only_world_send_telegram_notification l tg_token chat_ids :
  only_world (send_telegram_notification (W:=W) l tg_token chat_ids).
Proof. unfold send_telegram_notification. frame_steps. Qed.

Lemma only_world_apply_and_notify news tg_token chat_ids :
  only_world (apply_and_notify (W:=W) news tg_token chat_ids).
Proof.
  unfold apply_and_notify. apply only_world_for_each. intros l.
  apply only_world_bind; [apply only_world_apply_for_new_listing|]. intros _.
  apply only_world_send_telegram_notification.
Qed.

End Frame.

(** ** The kinds of events of a cycle *)

Section Kinds.
Context {W : Type} `{!Platform W}.
Context (K : gset hkey) (P : event → Prop).
Hypothesis Hlog : ∀ lvl msg, P (Logged lvl msg).
Hypothesis Hreq : ∀ r, P (Requested r).

Ltac kinds_steps :=
  repeat first
    [ apply keeps_bind_any; [|intros ?]
    | apply keeps_item_any
    | apply keeps_lift_any
    | apply keeps_response_json
    | apply keeps_logger; apply Hlog
    | apply keeps_session_request; apply Hreq
    | apply keeps_try_request; [|intros ?]
    | match goal with
      | |- keeps _ _ (if ?b then _ else _) _ => destruct b
      end ].

Lemma kinds_apply_for_new_listing l :
  keeps K P (apply_for_new_listing (W:=W) l) (λ _, True).
Proof. unfold apply_for_new_listing, apply_steps. kinds_steps. Qed.

Section With_sends.
Hypothesis Hsend : ∀ tg_token chat_id text, P (SendMessage tg_token chat_id text).

Lemma kinds_send_telegram_notification l tg_token chat_ids :
  keeps K P (send_telegram_notification (W:=W) l tg_token chat_ids) (λ _, True).
Proof.
  unfold send_telegram_notification.
  apply keeps_bind_any; [apply keeps_bot_create|]. intros _.
  do 3 (apply keeps_bind_any; [apply keeps_item_any|]; intros ?).
  apply keeps_bind_any; [apply keeps_bot_enter|]. intros _.
  apply keeps_for_each. intros chat_id _. apply keeps_try_telegram.
  - apply keeps_bind_any; [apply keeps_send_message, Hsend|].
    intros _. apply keeps_logger, Hlog.
  - intros e. apply keeps_logger, Hlog.
Qed.

Lemma kinds_apply_and_notify news tg_token chat_ids :
  keeps K P (apply_and_notify (W:=W) news tg_token chat_ids) (λ _, True).
Proof.
  unfold apply_and_notify. apply keeps_for_each. intros l _.
  apply keeps_bind_any; [apply kinds_apply_for_new_listing|]. intros _.
  apply kinds_send_telegram_notification.
Qed.

Lemma kinds_check_for_new_listings tg_token chat_ids :
  keeps K P (check_for_new_listings (W:=W) tg_token chat_ids) (λ known, K ⊆ known).
Proof.
  unfold check_for_new_listings.
  apply keeps_bind_any; [|intros _; apply keeps_known_listings_get].
  apply keeps_try_request; [|intros e; apply keeps_logger, Hlog].
  unfold check_steps.
  apply keeps_bind_any.
  { apply (keeps_weaken K P _ (all_outside K)); [|done].
    apply keeps_fetch_new_listings; [apply Hlog|apply Hreq..]. }
  intros news.
  destruct (bool_decide _); [|apply keeps_skip].
  apply keeps_bind_any; [apply keeps_login; [apply Hreq|intros; apply Hreq]|].
  intros response. kinds_steps. apply kinds_apply_and_notify.
Qed.

End With_sends.

End Kinds.

(** ** More on the applier *)

Section Apply_errors.
Context {W : Type} `{!Platform W}.

Lemma item_raise (v : json) k e (s : state W) :
  subscript v k = inl e → item (W:=W) v k s = Out (Raise e) s [].
Proof. intros Hx. unfold item. by rewrite Hx. Qed.

Lemma lift_raise {A} (r : exn + A) e (s : state W) :
  r = inl e → lift r s = Out (Raise e) s [].
Proof. by intros ->. Qed.

Lemma dig_not_request v path e :
  dig v path = inl e → ∀ x, e ≠ RequestException x.
Proof.
  revert v. induction path as [|k path IH]; intros v; simpl; [done|].
  destruct (subscript v k) as [e'|v'] eqn:Hk.
  - intros [= <-]. by apply (subscript_not_request v k).
  - apply IH.
Qed.

Lemma apply_for_new_listing_passes l i (s s' : state W) e ev :
  subscript l "id" = inr i →
  apply_steps l i s = Out (Raise e) s' ev →
  (∀ x, e ≠ RequestException x) →
  apply_for_new_listing l s = Out (Raise e) s' ev.
Proof.
  intros Hi Hs Hne. unfold apply_for_new_listing.
  rewrite (bind_ret _ _ _ _ _ _ (item_ret _ _ _ _ Hi)), prepend_nil.
  rewrite (try_except_request_passes _ _ _ e); [done|by rewrite Hs|done].
Qed.

Lemma apply_for_new_listing_logs_failure l i (s s' : state W) e ev :
  subscript l "id" = inr i →
  apply_steps l i s = Out (Raise (RequestException e)) s' ev →
  apply_for_new_listing l s = Out (Ret ()) s' (ev ++ [outcome_line i (Failed (Some e))]).
Proof.
  intros Hi Hs. rewrite (apply_for_new_listing_caught l i s e Hi); by rewrite Hs.
Qed.

(** The application up to the form token (lines 99-113). *)
Lemma apply_steps_token l i (s : state W) w1 details rd action url w2 config initial_data :
  subscript l "id" = inr i →
  http (world s) (headers s) (POST LISTING_DETAILS_URL {["id" := i]})
    = (w1, Answered (inr details)) →
  dig details ["result"; "reactionData"] = inr rd →
  subscript rd "action" = inr action →
  eq_str action "add" = true →
  subscript rd "url" = inr url →
  http w1 (headers s) (GET REACTION_HASH_ID_URL) = (w2, Answered (inr config)) →
  dig config ["form"; "elements"; "__hash__"; "initialData"] = inr initial_data →
  apply_steps l i s =
  prepend [detail_request i; Requested (GET REACTION_HASH_ID_URL)]
    ((dwelling_id ← lift (query_int url "dwellingID");
      action_id ← lift (query_int url "add");
      response ← session_post REACTION_URL (reaction_load initial_data dwelling_id action_id);
      body ← response_json response;
      success ← item body "success";
      if truthy success then
        logger INFO ("Successfully applied: " +:+ py_str i);;
        body ← response_json response;
        data ← item body "reactionData";
        logger DEBUG (py_str data)
      else
        logger WARNING ("Something went wrong: " +:+ py_str i)) (set_world s w2)).
Proof.
  intros Hi Hd Hrd Ha Hadd Hu Hc Hinit.
  rewrite (apply_steps_action l i s w1 details rd action Hi Hd Hrd Ha).
  rewrite Hadd.
  apply dig_cons in Hinit as (form & Hform & Hinit).
  apply dig_cons in Hinit as (elements & Helements & Hinit).
  apply dig_cons in Hinit as (hash & Hhash & Hinit).
  apply dig_cons in Hinit as (init' & Hinit & ->%dig_nil).
  rewrite (bind_ret _ _ _ _ _ _ (item_ret _ _ _ _ Hu)), prepend_nil.
  rewrite (bind_ret _ _ (set_world s w1) _ _ _
             (session_request_answered (GET REACTION_HASH_ID_URL) (set_world s w1) w2 _ Hc)).
  rewrite (bind_ret _ _ _ _ _ _ (response_json_ret _ _)), prepend_nil.
  rewrite (bind_ret _ _ _ _ _ _ (item_ret _ _ _ _ Hform)), prepend_nil.
  rewrite (bind_ret _ _ _ _ _ _ (item_ret _ _ _ _ Helements)), prepend_nil.
  rewrite (bind_ret _ _ _ _ _ _ (item_ret _ _ _ _ Hhash)), prepend_nil.
  rewrite (bind_ret _ _ _ _ _ _ (item_ret _ _ _ _ Hinit)), prepend_nil.
  by rewrite prepend_prepend.
Qed.

(** X1.  A request refused at any of the three steps of an application ends
    it there: the error is logged as a failure of this listing, no later
    request of the application is issued, and the call returns normally. *)
Theorem apply_refused_at_each_step l i (s : state W) :
  subscript l "id" = inr i →
  (∀ w1 e,
     http (world s) (headers s) (POST LISTING_DETAILS_URL {["id" := i]})
       = (w1, Refused e) →
     apply_for_new_listing l s =
       Out (Ret ()) (set_world s w1)
           [detail_request i; outcome_line i (Failed (Some e))]) ∧
  (∀ w1 details rd action url w2 e,
     http (world s) (headers s) (POST LISTING_DETAILS_URL {["id" := i]})
       = (w1, Answered (inr details)) →
     dig details ["result"; "reactionData"] = inr rd →
     subscript rd "action" = inr action →
     eq_str action "add" = true →
     subscript rd "url" = inr url →
     http w1 (headers s) (GET REACTION_HASH_ID_URL) = (w2, Refused e) →
     apply_for_new_listing l s =
       Out (Ret ()) (set_world s w2)
           [detail_request i; Requested (GET REACTION_HASH_ID_URL);
            outcome_line i (Failed (Some e))]) ∧
  (∀ w1 details rd action url w2 config initial_data d a w3 e,
     http (world s) (headers s) (POST LISTING_DETAILS_URL {["id" := i]})
       = (w1, Answered (inr details)) →
     dig details ["result"; "reactionData"] = inr rd →
     subscript rd "action" = inr action →
     eq_str action "add" = true →
     subscript rd "url" = inr url →
     http w1 (headers s) (GET REACTION_HASH_ID_URL) = (w2, Answered (inr config)) →
     dig config ["form"; "elements"; "__hash__"; "initialData"] = inr initial_data →
     query_int url "dwellingID" = inr d →
     query_int url "add" = inr a →
     http w2 (headers s) (POST REACTION_URL (reaction_load initial_data d a))
       = (w3, Refused e) →
     apply_for_new_listing l s =
       Out (Ret ()) (set_world s w3)
           [detail_request i; Requested (GET REACTION_HASH_ID_URL);
            Requested (POST REACTION_URL (reaction_load initial_data d a));
            outcome_line i (Failed (Some e))]).
Proof.
  intros Hi. split; [|split].
  - intros w1 e Hd.
    apply (apply_for_new_listing_logs_failure l i s (set_world s w1) e [_] Hi).
    unfold apply_steps.
    rewrite (bind_ret _ _ _ _ _ _ (item_ret _ _ _ _ Hi)), prepend_nil.
    by rewrite (bind_raise _ _ _ _ _ _ (session_request_refused _ _ _ _ Hd)).
  - intros w1 details rd action url w2 e Hd Hrd Ha Hadd Hu Hc.
    apply (apply_for_new_listing_logs_failure l i s (set_world s w2) e [_; _] Hi).
    rewrite (apply_steps_action l i s w1 details rd action Hi Hd Hrd Ha), Hadd.
    rewrite (bind_ret _ _ _ _ _ _ (item_ret _ _ _ _ Hu)), prepend_nil.
    by rewrite (bind_raise _ _ (set_world s w1) _ _ _
                  (session_request_refused (GET REACTION_HASH_ID_URL)
                     (set_world s w1) w2 e Hc)).
  - intros w1 details rd action url w2 config initial_data d a w3 e
      Hd Hrd Ha Hadd Hu Hc Hinit Hq1 Hq2 Hr.
    apply (apply_for_new_listing_logs_failure l i s (set_world s w3) e [_; _; _] Hi).
    rewrite (apply_steps_token l i s w1 details rd action url w2 config initial_data
               Hi Hd Hrd Ha Hadd Hu Hc Hinit).
    rewrite (bind_ret _ _ _ _ _ _ (lift_ret _ _ _ Hq1)), prepend_nil.
    rewrite (bind_ret _ _ _ _ _ _ (lift_ret _ _ _ Hq2)), prepend_nil.
    by rewrite (bind_raise _ _ (set_world s w2) _ _ _
                  (session_request_refused (POST REACTION_URL _)
                     (set_world s w2) w3 e Hr)).
Qed.

(** X2.  A detail response that lacks ["result"], ["reactionData"] or
    ["action"] is not handled: the [KeyError] (or [TypeError]) of the failed
    subscript leaves [apply_for_new_listing], after the detail request and
    without any log line. *)
Theorem apply_malformed_detail_propagates l i (s : state W) w1 details e :
  subscript l "id" = inr i →
  http (world s) (headers s) (POST LISTING_DETAILS_URL {["id" := i]})
    = (w1, Answered (inr details)) →
  dig details ["result"; "reactionData"; "action"] = inl e →
  apply_for_new_listing l s = Out (Raise e) (set_world s w1) [detail_request i] ∧
  ∀ x, e ≠ RequestException x.
Proof.
  intros Hi Hd Hdig.
  pose proof (dig_not_request _ _ _ Hdig) as Hne. split; [|done].
  apply (apply_for_new_listing_passes l i s _ e _ Hi); [|done].
  unfold apply_steps.
  rewrite (bind_ret _ _ _ _ _ _ (item_ret _ _ _ _ Hi)), prepend_nil.
  rewrite (bind_ret _ _ _ _ _ _ (session_request_answered _ _ _ _ Hd)).
  rewrite (bind_ret _ _ _ _ _ _ (response_json_ret _ _)), prepend_nil.
  simpl in Hdig.
  destruct (subscript details "result") as [e1|rs] eqn:H1.
  { simplify_eq. by rewrite (bind_raise _ _ _ _ _ _ (item_raise _ _ _ _ H1)). }
  rewrite (bind_ret _ _ _ _ _ _ (item_ret _ _ _ _ H1)), prepend_nil.
  destruct (subscript rs "reactionData") as [e2|rd] eqn:H2.
  { simplify_eq. by rewrite (bind_raise _ _ _ _ _ _ (item_raise _ _ _ _ H2)). }
  rewrite (bind_ret _ _ _ _ _ _ (item_ret _ _ _ _ H2)), prepend_nil.
  destruct (subscript rd "action") as [e3|a] eqn:H3; [|done].
  simplify_eq. by rewrite (bind_raise _ _ _ _ _ _ (item_raise _ _ _ _ H3)).
Qed.

(** X3.  When the URL of the reaction lacks the parameter [dwellingID] or
    [add] (or its value is no integer), the exception of the parsing is not
    handled: it leaves [apply_for_new_listing] after the detail and the
    form-token request, and the reaction request is not issued. *)
Theorem apply_bad_url_sends_no_reaction l i (s : state W)
    w1 details rd action url w2 config initial_data e :
  subscript l "id" = inr i →
  http (world s) (headers s) (POST LISTING_DETAILS_URL {["id" := i]})
    = (w1, Answered (inr details)) →
  dig details ["result"; "reactionData"] = inr rd →
  subscript rd "action" = inr action →
  eq_str action "add" = true →
  subscript rd "url" = inr url →
  http w1 (headers s) (GET REACTION_HASH_ID_URL) = (w2, Answered (inr config)) →
  dig config ["form"; "elements"; "__hash__"; "initialData"] = inr initial_data →
  query_int url "dwellingID" = inl e ∨
    (∃ d, query_int url "dwellingID" = inr d ∧ query_int url "add" = inl e) →
  (∀ x, e ≠ RequestException x) →
  apply_for_new_listing l s =
    Out (Raise e) (set_world s w2)
        [detail_request i; Requested (GET REACTION_HASH_ID_URL)].
Proof.
  intros Hi Hd Hrd Ha Hadd Hu Hc Hinit Hq Hne.
  apply (apply_for_new_listing_passes l i s _ e _ Hi); [|done].
  rewrite (apply_steps_token l i s w1 details rd action url w2 config initial_data
             Hi Hd Hrd Ha Hadd Hu Hc Hinit).
  destruct Hq as [Hq|(d & Hq1 & Hq2)].
  - by rewrite (bind_raise _ _ _ _ _ _ (lift_raise _ _ _ Hq)).
  - rewrite (bind_ret _ _ _ _ _ _ (lift_ret _ _ _ Hq1)), prepend_nil.
    by rewrite (bind_raise _ _ _ _ _ _ (lift_raise _ _ _ Hq2)).
Qed.

End Apply_errors.

(** ** More on the notifier and on the loop over the new listings *)

Section Notify_more.
Context {W : Type} `{!Platform W}.

Lemma logs_app ev1 ev2 : logs (ev1 ++ ev2) = logs ev1 ++ logs ev2.
Proof. apply omap_app. Qed.

Lemma notify_all_logs tg_token text line chat_ids : ∀ s : state W,
  length (logs (evs (for_each chat_ids (λ chat_id,
      try_except_telegram
        (send_message tg_token chat_id text;; logger INFO line)
        (λ e, logger ERROR ("Error sending notification: " +:+ e))) s)))
  = length chat_ids.
Proof.
  induction chat_ids as [|c chat_ids IH]; intros s; [done|].
  simpl for_each.
  assert (Hone : ∃ w lg msg,
    try_except_telegram
      (send_message tg_token c text;; logger INFO line)
      (λ e, logger ERROR ("Error sending notification: " +:+ e)) s
    = Out (Ret ()) (set_world s w) [SendMessage tg_token c text; Logged lg msg]).
  { unfold try_except_telegram, mbind, M_bind, bind, send_message.
    destruct (bot_send_message (world s) tg_token c text) as [w [e|]]; simpl; eauto. }
  destruct Hone as (w & lg & msg & Hone).
  rewrite (bind_ret _ _ _ _ _ _ Hone). simpl. by rewrite IH.
Qed.

Lemma send_telegram_notification_raises l tg_token chat_ids (s : state W) e :
  bot_new tg_token = None →
  subscript l "id" = inl e ∨
  (∃ i, subscript l "id" = inr i ∧
        (subscript l "urlKey" = inl e ∨
         ∃ u, subscript l "urlKey" = inr u ∧ subscript l "totalRent" = inl e)) →
  send_telegram_notification l tg_token chat_ids s = Out (Raise e) s [].
Proof.
  unfold send_telegram_notification. intros Hnew.
  rewrite (bind_ret _ _ _ _ _ _ (bot_create_ret _ _ Hnew)), prepend_nil.
  intros [Hi|(i & Hi & [Hu|(u & Hu & Hr)])].
  - by rewrite (bind_raise _ _ _ _ _ _ (item_raise _ _ _ _ Hi)).
  - rewrite (bind_ret _ _ _ _ _ _ (item_ret _ _ _ _ Hi)), prepend_nil.
    by rewrite (bind_raise _ _ _ _ _ _ (item_raise _ _ _ _ Hu)).
  - rewrite (bind_ret _ _ _ _ _ _ (item_ret _ _ _ _ Hi)), prepend_nil.
    rewrite (bind_ret _ _ _ _ _ _ (item_ret _ _ _ _ Hu)), prepend_nil.
    by rewrite (bind_raise _ _ _ _ _ _ (item_raise _ _ _ _ Hr)).
Qed.

(** X4.  Once the bot is constructed from the token, a listing that lacks
    ["id"], ["urlKey"] or ["totalRent"] is announced to nobody: the exception
    of the first failed subscript leaves [send_telegram_notification] before
    the bot is entered and before anything is sent or logged, and no handler
    of the program catches it. *)
Theorem notification_missing_field l tg_token chat_ids (s : state W) e :
  bot_new tg_token = None →
  subscript l "id" = inl e ∨
  (∃ i, subscript l "id" = inr i ∧
        (subscript l "urlKey" = inl e ∨
         ∃ u, subscript l "urlKey" = inr u ∧ subscript l "totalRent" = inl e)) →
  send_telegram_notification l tg_token chat_ids s = Out (Raise e) s [] ∧
  ∀ x, e ≠ RequestException x.
Proof.
  intros Hnew Hmiss. split; [by apply send_telegram_notification_raises|].
  destruct Hmiss as [Hi|(i & Hi & [Hu|(u & Hu & Hr)])];
    eauto using subscript_not_request.
Qed.

(** X5.  For a listing with its three fields, and a token from which the
    bot is constructed and entered, [send_telegram_notification] makes one
    logger call for each recipient, issues no HTTP request through the
    session and leaves the session headers, the login payload and the known
    set as they were. *)
Theorem notification_logs_once_each l tg_token chat_ids (s : state W) w0 :
  has_fields l →
  bot_new tg_token = None →
  bot_initialize (world s) tg_token = (w0, None) →
  let o := send_telegram_notification l tg_token chat_ids s in
  length (logs (evs o)) = length chat_ids ∧
  requests (evs o) = [] ∧
  headers (st o) = headers s ∧
  login_load (st o) = login_load s ∧
  known_listings (st o) = known_listings s.
Proof.
  intros ((i & Hi) & (u & Hu) & (r & Hr)) Hnew Henter o. subst o.
  destruct (only_world_send_telegram_notification l tg_token chat_ids s)
    as (H1 & H2 & H3).
  destruct (send_telegram_notification_run l tg_token chat_ids s i u r w0
              Hi Hu Hr Hnew Henter)
    as (w & ev & Hrun & _ & Hreq).
  split; [|by rewrite Hrun in *].
  unfold send_telegram_notification.
  rewrite (bind_ret _ _ _ _ _ _ (bot_create_ret _ _ Hnew)), prepend_nil.
  rewrite (bind_ret _ _ _ _ _ _ (item_ret _ _ _ _ Hi)), prepend_nil.
  rewrite (bind_ret _ _ _ _ _ _ (item_ret _ _ _ _ Hu)), prepend_nil.
  rewrite (bind_ret _ _ _ _ _ _ (item_ret _ _ _ _ Hr)), prepend_nil.
  rewrite (bind_ret _ _ _ _ _ _ (bot_enter_ret _ _ _ Henter)), prepend_nil.
  apply notify_all_logs.
Qed.

Lemma apply_sends_nothing l (s : state W) :
  sends (evs (apply_for_new_listing l s)) = [].
Proof.
  assert (Hk : Forall (λ e, is_send e = false) (evs (apply_for_new_listing l s))).
  { apply (kinds_apply_for_new_listing ∅ (λ e, is_send e = false)); try done. }
  induction Hk as [|e ev He Hev IH]; [done|].
  unfold sends. rewrite filter_cons. fold (sends ev). rewrite IH.
  rewrite decide_False; [done|]. by rewrite He.
Qed.

Lemma notifications_fields l tg_token chat_ids i u r :
  subscript l "id" = inr i →
  subscript l "urlKey" = inr u →
  subscript l "totalRent" = inr r →
  notifications tg_token chat_ids l
  = (λ c, SendMessage tg_token c (message_text i u r)) <$> chat_ids.
Proof. intros Hi Hu Hr. unfold notifications, field. by rewrite Hi, Hu, Hr. Qed.

Lemma send_telegram_notification_sends l tg_token chat_ids (s : state W) :
  has_fields l →
  let o := send_telegram_notification l tg_token chat_ids s in
  (res o = Ret () ∧ sends (evs o) = notifications tg_token chat_ids l) ∨
  (∃ e, res o = Raise e ∧ sends (evs o) = []).
Proof.
  intros ((i & Hi) & (u & Hu) & (r & Hr)) o. subst o.
  destruct (bot_new tg_token) as [e|] eqn:Hnew.
  { right. exists (TelegramError e).
    by rewrite (send_telegram_notification_no_bot _ _ _ _ _ Hnew). }
  destruct (bot_initialize (world s) tg_token) as [w0 [e|]] eqn:Henter.
  { right. exists (TelegramError e).
    by rewrite (send_telegram_notification_not_entered _ _ _ _ i u r _ _
                  Hi Hu Hr Hnew Henter). }
  left.
  destruct (send_telegram_notification_run l tg_token chat_ids s i u r w0
              Hi Hu Hr Hnew Henter) as (w & ev & Hrun & Hsends & _).
  rewrite Hrun. simpl. split; [done|].
  by rewrite (notifications_fields l tg_token chat_ids i u r Hi Hu Hr).
Qed.

(** X6.  Over new listings that have their three fields, the messages the
    loop hands to the bot are, in order, those of each listing for each
    recipient, for the listings gone through: all of them when the loop
    returns, and a prefix when an exception ends it.  The notification does
    not depend on how the application of the listing ended. *)
Theorem apply_and_notify_messages news tg_token chat_ids : ∀ s : state W,
  Forall has_fields news →
  let o := apply_and_notify news tg_token chat_ids s in
  sends (evs o) `prefix_of` (news ≫= notifications tg_token chat_ids) ∧
  (res o = Ret () → sends (evs o) = news ≫= notifications tg_token chat_ids).
Proof.
  induction news as [|l news IH]; intros s Hwf o; subst o.
  - simpl. split; [by exists []|done].
  - apply Forall_cons in Hwf as [Hl Hwf].
    unfold apply_and_notify. simpl for_each.
    change (for_each news _) with (apply_and_notify news tg_token chat_ids).
    pose proof (apply_sends_nothing l s) as Hquiet.
    destruct (res (apply_for_new_listing l s)) as [[]|e] eqn:Hres.
    + pose proof (send_telegram_notification_sends l tg_token chat_ids
                    (st (apply_for_new_listing l s)) Hl) as Hnotify.
      simpl in Hnotify.
      destruct (send_telegram_notification l tg_token chat_ids
                  (st (apply_for_new_listing l s))) as [r2 s2 ev2] eqn:Hrun.
      simpl in Hnotify.
      destruct Hnotify as [[-> Hsends]|(e & -> & Hsends)].
      * assert (Hboth : (apply_for_new_listing l;;
                         send_telegram_notification l tg_token chat_ids) s
                  = Out (Ret ()) s2 (evs (apply_for_new_listing l s) ++ ev2)).
        { unfold mbind at 1, M_bind at 1, bind at 1. rewrite Hres. simpl.
          by rewrite Hrun. }
        rewrite (bind_ret _ _ _ _ _ _ Hboth). simpl.
        rewrite !sends_app, Hquiet, Hsends. simpl.
        destruct (IH s2 Hwf) as [Hpre Hall].
        split; [by apply prefix_app|].
        intros Hret. by rewrite (Hall Hret).
      * assert (Hboth : (apply_for_new_listing l;;
                         send_telegram_notification l tg_token chat_ids) s
                  = Out (Raise e) s2 (evs (apply_for_new_listing l s) ++ ev2)).
        { unfold mbind at 1, M_bind at 1, bind at 1. rewrite Hres. simpl.
          by rewrite Hrun. }
        rewrite (bind_raise _ _ _ _ _ _ Hboth). simpl.
        rewrite sends_app, Hquiet, Hsends. simpl.
        split; [apply prefix_nil|done].
    + assert (Hboth : (apply_for_new_listing l;;
                       send_telegram_notification l tg_token chat_ids) s
                = Out (Raise e) (st (apply_for_new_listing l s))
                      (evs (apply_for_new_listing l s))).
      { unfold mbind at 1, M_bind at 1, bind at 1. by rewrite Hres. }
      rewrite (bind_raise _ _ _ _ _ _ Hboth). simpl. rewrite Hquiet.
      split; [apply prefix_nil|done].
Qed.

(** X7.  With a token from which the bot is constructed, a new listing
    without ["urlKey"] (or ["totalRent"]) stops the loop after its own
    application: the exception of the notification leaves
    [apply_and_notify], and the listings after it are neither applied for nor
    announced. *)
Theorem apply_and_notify_stops_at_malformed l rest tg_token chat_ids (s : state W) i e :
  bot_new tg_token = None →
  subscript l "id" = inr i →
  (subscript l "urlKey" = inl e ∨
   ∃ u, subscript l "urlKey" = inr u ∧ subscript l "totalRent" = inl e) →
  res (apply_for_new_listing l s) = Ret () →
  apply_and_notify (l :: rest) tg_token chat_ids s =
    Out (Raise e) (st (apply_for_new_listing l s)) (evs (apply_for_new_listing l s)).
Proof.
  intros Hnew Hi Hmiss Hres.
  unfold apply_and_notify. simpl for_each.
  assert (Hnotify : send_telegram_notification l tg_token chat_ids
                      (st (apply_for_new_listing l s))
                    = Out (Raise e) (st (apply_for_new_listing l s)) []).
  { apply send_telegram_notification_raises; [done|]. right. eauto. }
  assert (Hboth : (apply_for_new_listing l;;
                   send_telegram_notification l tg_token chat_ids) s
            = Out (Raise e) (st (apply_for_new_listing l s))
                  (evs (apply_for_new_listing l s))).
  { unfold mbind at 1, M_bind at 1, bind at 1. rewrite Hres. simpl.
    rewrite Hnotify. simpl. by rewrite app_nil_r. }
  by rewrite (bind_raise _ _ _ _ _ _ Hboth).
Qed.

(** X18.  What the bot raises outside the [try] of the sends leaves
    [send_telegram_notification] with nothing sent and nothing logged: an
    exception of the constructor (as for the empty token) before the listing
    is looked at, even a listing without its fields; an exception of the
    entry of [async with bot], for a listing with its fields, before the
    first recipient.  It is not a request-level exception, so the handler of
    the cycle does not catch it, and after a returned application it ends the
    loop over the new listings. *)
Theorem notification_bot_failure l tg_token chat_ids (s : state W) :
  (∀ e, bot_new tg_token = Some e →
     send_telegram_notification l tg_token chat_ids s
       = Out (Raise (TelegramError e)) s []) ∧
  (∃ e, send_telegram_notification l "" chat_ids s
          = Out (Raise (TelegramError e)) s []) ∧
  (∀ w e, has_fields l → bot_new tg_token = None →
     bot_initialize (world s) tg_token = (w, Some e) →
     send_telegram_notification l tg_token chat_ids s
       = Out (Raise (TelegramError e)) (set_world s w) []) ∧
  (∀ e x, TelegramError e ≠ RequestException x) ∧
  (∀ rest e s1 ev1,
     apply_for_new_listing l s = Out (Ret ()) s1 ev1 →
     res (send_telegram_notification l tg_token chat_ids s1) = Raise e →
     let notify := send_telegram_notification l tg_token chat_ids s1 in
     apply_and_notify (l :: rest) tg_token chat_ids s
       = Out (Raise e) (st notify) (ev1 ++ evs notify)).
Proof.
  split; [|split; [|split; [|split]]].
  - intros e Hnew. by apply send_telegram_notification_no_bot.
  - destruct (bot_new "") as [e|] eqn:Hnew; [|by destruct bot_new_empty].
    exists e. by apply send_telegram_notification_no_bot.
  - intros w e ((i & Hi) & (u & Hu) & (r & Hr)) Hnew Henter.
    by apply (send_telegram_notification_not_entered l tg_token chat_ids s i u r).
  - done.
  - intros rest e s1 ev1 Happly Hraise notify.
    unfold apply_and_notify. simpl for_each.
    assert (Hboth : (apply_for_new_listing l;;
                     send_telegram_notification l tg_token chat_ids) s
              = Out (Raise e) (st notify) (ev1 ++ evs notify)).
    { rewrite (bind_ret _ _ _ _ _ _ Happly). subst notify.
      destruct (send_telegram_notification l tg_token chat_ids s1) as [r2 s2 ev2].
      simpl in *. by subst r2. }
    by rewrite (bind_raise _ _ _ _ _ _ Hboth).
Qed.

End Notify_more.

(** ** More on the loop over the fetched listings *)

Section Diff_more.
Context {W : Type} `{!Platform W}.

Lemma for_fold_consider_added L : ∀ acc (s : state W) news,
  res (for_fold L acc consider_listing s) = Ret news →
  ∃ added, news = acc ++ added ∧ added `sublist_of` L ∧
           (added = [] → for_fold L acc consider_listing s = Out (Ret acc) s []).
Proof.
  induction L as [|l L IH]; intros acc s news Hres.
  - simpl in *. simplify_eq. exists []. by rewrite app_nil_r.
  - simpl in *. destruct (listing_key l) as [k|] eqn:Hl.
    + destruct (decide (k ∈ known_listings s)) as [Hin|Hnin].
      * rewrite (bind_ret _ _ _ _ _ _ (consider_listing_known acc l k s Hl Hin)) in *.
        rewrite prepend_nil in *.
        destruct (IH acc s news Hres) as (added & -> & Hsub & Hnone).
        exists added. split; [done|]. split; [by apply sublist_cons|done].
      * rewrite (bind_ret _ _ _ _ _ _ (consider_listing_new acc l k s Hl Hnin)) in *.
        simpl in Hres.
        destruct (IH (acc ++ [l]) (add_known k s) news Hres) as (added & -> & Hsub & _).
        exists (l :: added). split; [by rewrite <- app_assoc|].
        split; [by apply sublist_skip|done].
    + destruct (consider_listing_raise acc l s Hl) as [e He].
      rewrite (bind_raise _ _ _ _ _ _ He) in Hres. done.
Qed.

Lemma for_fold_consider_distinct L : ∀ acc (s : state W) news,
  NoDup (omap listing_key acc) →
  (∀ x, x ∈ acc → ∃ k, listing_key x = Some k ∧ k ∈ known_listings s) →
  res (for_fold L acc consider_listing s) = Ret news →
  NoDup (omap listing_key news).
Proof.
  induction L as [|l L IH]; intros acc s news Hnd Hacc Hres.
  - simpl in *. by simplify_eq.
  - simpl in *. destruct (listing_key l) as [k|] eqn:Hl.
    + destruct (decide (k ∈ known_listings s)) as [Hin|Hnin].
      * rewrite (bind_ret _ _ _ _ _ _ (consider_listing_known acc l k s Hl Hin)) in *.
        rewrite prepend_nil in *. by apply (IH acc s).
      * rewrite (bind_ret _ _ _ _ _ _ (consider_listing_new acc l k s Hl Hnin)) in *.
        simpl in Hres. apply (IH (acc ++ [l]) (add_known k s) news); [| |done].
        -- rewrite omap_app. simpl. rewrite Hl. simpl.
           apply NoDup_app. split; [done|]. split; [|apply NoDup_singleton].
           intros k' Hk' ->%list_elem_of_singleton.
           apply list_elem_of_omap in Hk' as (x & Hx & Hkx).
           destruct (Hacc x Hx) as (k'' & Hk'' & Hin''). by simplify_eq.
        -- intros x [Hx|Hx]%elem_of_app.
           ++ destruct (Hacc x Hx) as (k' & Hk' & Hin'). exists k'. simpl. set_solver.
           ++ apply list_elem_of_singleton in Hx as ->. exists k. simpl. set_solver.
    + destruct (consider_listing_raise acc l s Hl) as [e He].
      rewrite (bind_raise _ _ _ _ _ _ He) in Hres. done.
Qed.

(** X8.  The listings a run of the loop returns have pairwise distinct IDs,
    none of them in the known set the run started from, and they come in the
    order of the fetched list: within one cycle no ID is taken twice. *)
Theorem new_listings_distinct L (s : state W) news :
  res (find_new_listings L s) = Ret news →
  NoDup (omap listing_key news) ∧
  all_outside (known_listings s) news ∧
  news `sublist_of` L.
Proof.
  intros Hres. split; [|split].
  - apply (for_fold_consider_distinct L [] s news); [constructor| |done].
    by intros x Hx%elem_of_nil.
  - destruct (keeps_find_new_listings (known_listings s) (λ _, True) L
                (λ _ _, I) s) as (_ & _ & Hout); [done|]. by apply Hout.
  - destruct (for_fold_consider_added L [] s news Hres) as (added & -> & Hsub & _).
    done.
Qed.

(** X9.  A run of the loop that returns no new listing has changed nothing:
    the known set and the rest of the store are as before, and nothing was
    logged. *)
Theorem nothing_new_leaves_store L (s : state W) :
  res (find_new_listings L s) = Ret [] →
  find_new_listings L s = Out (Ret []) s [].
Proof.
  intros Hres.
  destruct (for_fold_consider_added L [] s [] Hres) as (added & Hadded & _ & Hnone).
  apply Hnone. by destruct added.
Qed.

Lemma for_fold_app {A B} (l1 l2 : list A) (acc : B) (body : B → A → M W B) (s : state W) :
  for_fold (l1 ++ l2) acc body s
  = (acc' ← for_fold l1 acc body; for_fold l2 acc' body) s.
Proof.
  revert acc s. induction l1 as [|x l1 IH]; intros acc s.
  - simpl. unfold mbind, M_bind, bind. simpl. by destruct (for_fold l2 acc body s).
  - simpl. unfold mbind, M_bind, bind.
    destruct (res (body acc x s)) as [acc'|e] eqn:Hb; simpl; [|done].
    rewrite IH. unfold mbind, M_bind, bind.
    destruct (res (for_fold l1 acc' body (st (body acc x s)))); simpl;
      by rewrite ?app_assoc.
Qed.

(** X10.  A fetched listing without a hashable ["id"] ends the loop with the
    exception of its subscript, which no handler catches; the IDs of the
    listings before it are in the known set by then, and the listings after
    it are not looked at. *)
Theorem find_new_listings_stops_at_malformed good bad rest (s : state W) :
  Forall (λ l, is_Some (listing_key l)) good →
  listing_key bad = None →
  ∃ e,
    find_new_listings (good ++ bad :: rest) s =
      Out (Raise e)
          (with_known s (known_listings s ∪ keys good))
          (found_log <$> first_unknown (known_listings s) good) ∧
    ∀ x, e ≠ RequestException x.
Proof.
  intros Hgood Hbad. unfold find_new_listings. rewrite for_fold_app.
  pose proof (find_new_listings_run good s Hgood) as Hrun.
  unfold find_new_listings in Hrun.
  rewrite (bind_ret _ _ _ _ _ _ Hrun). simpl for_fold.
  destruct (consider_listing_raise (first_unknown (known_listings s) good) bad
              (with_known s (known_listings s ∪ keys good)) Hbad) as [e He].
  exists e. split.
  - rewrite (bind_raise _ _ _ _ _ _ He). unfold prepend. simpl. by rewrite app_nil_r.
  - unfold listing_key in Hbad. intros x ->.
    unfold consider_listing, item, mbind, M_bind, bind in He.
    destruct (subscript bad "id") as [e'|v] eqn:Hid; simpl in He.
    + simplify_eq. by apply (subscript_not_request _ _ _ Hid x).
    + destruct v; simpl in *; simplify_eq.
Qed.

End Diff_more.

(** ** More on the cycle and on the driver loop *)

Section Cycle_more.
Context {W : Type} `{!Platform W}.

Lemma only_world_same_known {A} (m : M W A) : only_world m → same_known m.
Proof. intros Hm s. by destruct (Hm s) as (_ & _ & ?). Qed.

Lemma check_of_steps_uncaught tg_token chat_ids (s s' : state W) ev e :
  check_steps tg_token chat_ids s = Out (Raise e) s' ev →
  (∀ x, e ≠ RequestException x) →
  check_for_new_listings tg_token chat_ids s = Out (Raise e) s' ev.
Proof.
  intros Hs Hne. unfold check_for_new_listings.
  apply bind_raise. rewrite (try_except_request_passes _ _ _ e); [done| |done].
  by rewrite Hs.
Qed.

(** The fetch phase up to the decoded body of the listings response. *)
Lemma fetch_answered (s : state W) w1 page w2 body :
  http (world s) (headers s) (GET LISTINGS_URL) = (w1, Answered page) →
  http w1 (<["referer" := LISTINGS_URL]> (headers s)) (GET LISTINGS_API_URL)
    = (w2, Answered (inr body)) →
  fetch_new_listings s =
    prepend [Requested (GET LISTINGS_URL); Requested (GET LISTINGS_API_URL)]
      ((listings_data ← item body "result";
        listings ← lift (py_iter listings_data);
        find_new_listings listings) (warmed_up s w2)).
Proof.
  intros H1 H2. unfold fetch_new_listings.
  rewrite (bind_ret _ _ _ _ _ _ (session_request_answered _ _ _ _ H1)).
  rewrite (bind_ret _ _ (set_world s w1) () (warmed_up s w1) [] eq_refl), prepend_nil.
  rewrite (bind_ret _ _ _ _ _ _
             (session_request_answered (GET LISTINGS_API_URL) (warmed_up s w1) w2 _ H2)).
  rewrite (bind_ret _ _ _ _ _ _ (response_json_ret _ _)), prepend_nil.
  by rewrite prepend_prepend.
Qed.

Lemma fetch_new_listings_run (s : state W) w1 page w2 body data L :
  http (world s) (headers s) (GET LISTINGS_URL) = (w1, Answered page) →
  http w1 (<["referer" := LISTINGS_URL]> (headers s)) (GET LISTINGS_API_URL)
    = (w2, Answered (inr body)) →
  subscript body "result" = inr data →
  py_iter data = inr L →
  Forall (λ l, is_Some (listing_key l)) L →
  fetch_new_listings s =
    Out (Ret (first_unknown (known_listings s) L))
        (with_known (warmed_up s w2) (known_listings s ∪ keys L))
        ([Requested (GET LISTINGS_URL); Requested (GET LISTINGS_API_URL)] ++
         (found_log <$> first_unknown (known_listings s) L)).
Proof.
  intros H1 H2 Hdata HL Hwf. rewrite (fetch_answered s w1 page w2 body H1 H2).
  rewrite (bind_ret _ _ _ _ _ _ (item_ret _ _ _ _ Hdata)), prepend_nil.
  rewrite (bind_ret _ _ _ _ _ _ (lift_ret _ _ _ HL)), prepend_nil.
  by rewrite (find_new_listings_run L (warmed_up s w2) Hwf).
Qed.

(** X11.  A listings response without ["result"], or whose ["result"] cannot
    be iterated, is not handled: the exception leaves
    [check_for_new_listings], which returns nothing, after the two listing
    requests and with the known set untouched. *)
Theorem malformed_listings_propagate tg_token chat_ids (s : state W) w1 page w2 body e :
  http (world s) (headers s) (GET LISTINGS_URL) = (w1, Answered page) →
  http w1 (<["referer" := LISTINGS_URL]> (headers s)) (GET LISTINGS_API_URL)
    = (w2, Answered (inr body)) →
  subscript body "result" = inl e ∨
    (∃ data, subscript body "result" = inr data ∧ py_iter data = inl e) →
  check_for_new_listings tg_token chat_ids s =
    Out (Raise e) (warmed_up s w2)
        [Requested (GET LISTINGS_URL); Requested (GET LISTINGS_API_URL)] ∧
  (∀ x, e ≠ RequestException x).
Proof.
  intros H1 H2 Hbad.
  assert (Hne : ∀ x, e ≠ RequestException x).
  { destruct Hbad as [Hr|(data & Hr & Hit)]; [by apply (subscript_not_request _ _ _ Hr)|].
    intros x ->. by destruct data. }
  split; [|done].
  apply check_of_steps_uncaught; [|done]. apply check_steps_fetch_raise.
  rewrite (fetch_answered s w1 page w2 body H1 H2).
  destruct Hbad as [Hr|(data & Hr & Hit)].
  - by rewrite (bind_raise _ _ _ _ _ _ (item_raise _ _ _ _ Hr)).
  - rewrite (bind_ret _ _ _ _ _ _ (item_ret _ _ _ _ Hr)), prepend_nil.
    by rewrite (bind_raise _ _ _ _ _ _ (lift_raise _ _ _ Hit)).
Qed.

Lemma same_known_logger lvl msg : same_known (logger (W:=W) lvl msg).
Proof. by intros s. Qed.

Lemma same_known_after_fetch tg_token chat_ids news :
  same_known (W:=W)
    (if bool_decide (0 < length news)%nat then
       response ← login;
       body ← response_json response;
       logged_in ← item body "loggedIn";
       if negb (truthy logged_in) then
         logger WARNING ("Could not login: " +:+ py_str body)
       else
         apply_and_notify news tg_token chat_ids
     else mret ()).
Proof.
  destruct (bool_decide _); [|by intros s].
  apply same_known_bind; [intros s; apply login_known|]. intros response.
  apply same_known_bind; [apply same_known_response_json|]. intros body.
  apply same_known_bind; [apply same_known_item|]. intros logged_in.
  destruct (negb _); [apply same_known_logger|].
  apply only_world_same_known, only_world_apply_and_notify.
Qed.

Lemma check_known_after_fetch tg_token chat_ids (s : state W) :
  known_listings (st (check_for_new_listings tg_token chat_ids s))
  = known_listings (st (fetch_new_listings s)).
Proof.
  unfold check_for_new_listings.
  assert (Hsteps : known_listings (st (check_steps tg_token chat_ids s))
                   = known_listings (st (fetch_new_listings s))).
  { unfold check_steps, mbind, M_bind, bind.
    destruct (res (fetch_new_listings s)) as [news|e]; simpl; [|done].
    apply same_known_after_fetch. }
  unfold mbind, M_bind, bind, try_except_request.
  destruct (res (check_steps tg_token chat_ids s)) as [[]|[x| | | |]] eqn:Hres;
    simpl; rewrite ?Hres; simpl; done.
Qed.

(** X12.  Once the listings are fetched, the known set the cycle leaves is
    the one it started from together with the IDs of all fetched listings,
    whatever the login, the applications and the notifications do
    afterwards, and whether the function returns or not. *)
Theorem cycle_known_is_union tg_token chat_ids (s : state W) w1 page w2 body data L :
  http (world s) (headers s) (GET LISTINGS_URL) = (w1, Answered page) →
  http w1 (<["referer" := LISTINGS_URL]> (headers s)) (GET LISTINGS_API_URL)
    = (w2, Answered (inr body)) →
  subscript body "result" = inr data →
  py_iter data = inr L →
  Forall (λ l, is_Some (listing_key l)) L →
  known_listings (st (check_for_new_listings tg_token chat_ids s))
  = known_listings s ∪ keys L.
Proof.
  intros H1 H2 Hdata HL Hwf. rewrite check_known_after_fetch.
  by rewrite (fetch_new_listings_run s w1 page w2 body data L H1 H2 Hdata HL Hwf).
Qed.

(** X13.  In a cycle that found new listings and whose login is answered
    with a true [loggedIn], the steps after the login are exactly the loop
    over the new listings, from the store the login left; when that loop
    returns, the cycle returns the known set of the fetch phase. *)
Theorem logged_in_runs_applies tg_token chat_ids (s s1 : state W) news ev1
    w2 config initial_data w3 body logged_in :
  fetch_new_listings s = Out (Ret news) s1 ev1 →
  news ≠ [] →
  http (world s1) (headers s1) (GET LOGIN_HASH_ID_URL) = (w2, Answered (inr config)) →
  dig config ["loginForm"; "elements"; "__hash__"; "initialData"] = inr initial_data →
  http w2 (headers s1) (POST LOGIN_URL (<["__hash__" := initial_data]> (login_load s1)))
    = (w3, Answered (inr body)) →
  subscript body "loggedIn" = inr logged_in →
  truthy logged_in = true →
  let before := ev1 ++ [Requested (GET LOGIN_HASH_ID_URL);
                        Requested (POST LOGIN_URL
                                     (<["__hash__" := initial_data]> (login_load s1)))] in
  let loop := apply_and_notify news tg_token chat_ids (logged s1 initial_data w3) in
  check_steps tg_token chat_ids s = prepend before loop ∧
  (res loop = Ret () →
   check_for_new_listings tg_token chat_ids s =
     Out (Ret (known_listings s1)) (st loop) (before ++ evs loop)).
Proof.
  intros Hf Hnew Hc Hinit Hp Hl Htrue before loop.
  assert (Hsteps : check_steps tg_token chat_ids s = prepend before loop).
  { rewrite (check_steps_new tg_token chat_ids s s1 ev1 news Hf Hnew).
    rewrite (bind_ret _ _ _ _ _ _
               (login_posted s1 w2 config initial_data w3 _ Hc Hinit Hp)).
    rewrite (bind_ret _ _ _ _ _ _ (response_json_ret _ _)), prepend_nil.
    rewrite (bind_ret _ _ _ _ _ _ (item_ret _ _ _ _ Hl)), prepend_nil.
    rewrite Htrue. simpl negb. cbv iota. by rewrite prepend_prepend. }
  split; [done|]. intros Hret.
  destruct (only_world_apply_and_notify news tg_token chat_ids
              (logged s1 initial_data w3)) as (_ & _ & Hk).
  fold loop in Hk. simpl in Hk. rewrite <- Hk.
  apply check_of_steps_ret. rewrite Hsteps. unfold prepend. by rewrite Hret.
Qed.


Lemma bind_res_ret {A B} (m : M W A) (f : A → M W B) s a :
  res (m s) = Ret a → (m ≫= f) s = prepend (evs (m s)) (f a (st (m s))).
Proof. intros Hm. unfold mbind, M_bind, bind. by rewrite Hm. Qed.

Lemma persisted_app ev1 ev2 : persisted (ev1 ++ ev2) = persisted ev1 ++ persisted ev2.
Proof. apply omap_app. Qed.

Lemma slept_app ev1 ev2 : slept (ev1 ++ ev2) = slept ev1 ++ slept ev2.
Proof. apply omap_app. Qed.

Lemma cycle_events_quiet ev :
  Forall cycle_event ev → persisted ev = [] ∧ slept ev = [].
Proof.
  induction 1 as [|e ev He Hev [IH1 IH2]]; [done|].
  destruct e; simpl in *; done.
Qed.

Lemma check_events tg_token chat_ids (s : state W) :
  Forall cycle_event (evs (check_for_new_listings tg_token chat_ids s)).
Proof.
  by apply (kinds_check_for_new_listings ∅ cycle_event).
Qed.

Lemma check_returns_store tg_token chat_ids (s : state W) known :
  res (check_for_new_listings tg_token chat_ids s) = Ret known →
  known = known_listings (st (check_for_new_listings tg_token chat_ids s)) ∧
  known_listings s ⊆ known.
Proof.
  intros Hres.
  destruct (kinds_check_for_new_listings (known_listings s) (λ _, True)
              (λ _ _, I) (λ _, I) (λ _ _ _, I) tg_token chat_ids s)
    as (_ & _ & Hsup); [done|].
  split; [|by apply Hsup].
  revert Hres.
  unfold check_for_new_listings, mbind, M_bind, bind, try_except_request.
  destruct (res (check_steps tg_token chat_ids s)) as [[]|[x| | | |]] eqn:Hsteps;
    simpl; rewrite ?Hsteps; simpl; congruence.
Qed.

(** X15.  In a run of the driver loop, the sets written to the settings
    file form a chain that only grows, each of them including the known set
    of the start; every pause lasts 600 seconds; and a run of [n] rounds that
    returns has written and paused [n] times.  A cycle itself writes nothing
    and does not pause. *)
Theorem persisted_sets_grow n tg_token chat_ids : ∀ s : state W,
  let o := cycles n tg_token chat_ids s in
  StronglySorted (⊆) (persisted (evs o)) ∧
  Forall (λ ids, known_listings s ⊆ ids) (persisted (evs o)) ∧
  Forall (λ secs, secs = 600) (slept (evs o)) ∧
  (res o = Ret () → length (persisted (evs o)) = n ∧ length (slept (evs o)) = n).
Proof.
  induction n as [|n IH]; intros s o; subst o.
  - simpl. repeat split; constructor.
  - simpl cycles.
    destruct (cycle_events_quiet _ (check_events tg_token chat_ids s)) as [Hp Hs].
    destruct (res (check_for_new_listings tg_token chat_ids s)) as [known|e] eqn:Hres.
    + rewrite (bind_res_ret _ _ _ _ Hres).
      destruct (check_returns_store tg_token chat_ids s known Hres) as [Hknown Hsup].
      destruct (IH (st (check_for_new_listings tg_token chat_ids s)))
        as (Hsorted & Hall & Hsleep & Hlen).
      set (s1 := st (check_for_new_listings tg_token chat_ids s)) in *.
      assert (Hrest : (emit (Persisted known);; emit (Slept 600);;
                       cycles n tg_token chat_ids) s1
                = prepend [Persisted known; Slept 600] (cycles n tg_token chat_ids s1)).
      { unfold mbind, M_bind, bind, emit, prepend. simpl.
        by destruct (res (cycles n tg_token chat_ids s1)). }
      rewrite Hrest. simpl.
      rewrite persisted_app, slept_app, Hp, Hs. simpl.
      split; [|split; [|split]].
      * constructor; [done|]. by rewrite Hknown.
      * constructor; [done|].
        eapply Forall_impl; [exact Hall|]. intros ids Hids. simpl in Hids.
        rewrite <- Hknown in Hids. set_solver.
      * by constructor.
      * intros Hret. destruct (Hlen Hret) as [-> ->]. done.
    + rewrite (bind_res_raise _ _ _ _ Hres). simpl. rewrite Hp, Hs.
      split; [constructor|]. split; [constructor|]. split; [constructor|]. done.
Qed.

End Cycle_more.

(** ** The recipient discovery helper *)

Section Discovery_properties.
Context {U : Type} (getitem : U → string → exn + U) (show : U → string).

Lemma collect_chat_ids_run updates : ∀ found,
  Forall (λ u, breaks getitem u = false) updates →
  collect_chat_ids getitem updates found =
    (Ret (found ++ omap (chat_id_found getitem) updates),
     replicate (length (filter (λ u, lacks_key getitem u = true) updates))
       (RootLogged ERROR "Could not extract chat_id's to send notifications")).
Proof.
  induction updates as [|u updates IH]; intros found Hok.
  - simpl. by rewrite app_nil_r.
  - apply Forall_cons in Hok as [Hu Hok]. simpl.
    rewrite filter_cons. unfold breaks, lacks_key, chat_id_found in *.
    destruct (chat_id_of getitem u) as [[| |k| |]|c]; simplify_eq; simpl.
    + rewrite (IH found Hok). done.
    + rewrite (IH (found ++ [c]) Hok). by rewrite <- app_assoc.
Qed.

(** X16.  When no update raises anything but a [KeyError], [test_bot]
    prints the bot's details and returns the chat IDs of the updates whose
    three subscripts succeed, in the order of the updates; every update
    that lacks a key is skipped with one error logged. *)
Theorem test_bot_collects user updates :
  Forall (λ u, breaks getitem u = false) updates →
  test_bot getitem show (inr user) (inr updates) =
    (Ret (omap (chat_id_found getitem) updates),
     Printed (show user) ::
     replicate (length (filter (λ u, lacks_key getitem u = true) updates))
       (RootLogged ERROR "Could not extract chat_id's to send notifications")).
Proof.
  intros Hok. unfold test_bot. by rewrite (collect_chat_ids_run updates [] Hok).
Qed.

Lemma collect_chat_ids_breaks good bad rest e : ∀ found,
  Forall (λ u, breaks getitem u = false) good →
  chat_id_of getitem bad = inl e →
  breaks getitem bad = true →
  collect_chat_ids getitem (good ++ bad :: rest) found =
    (Raise e,
     replicate (length (filter (λ u, lacks_key getitem u = true) good))
       (RootLogged ERROR "Could not extract chat_id's to send notifications")).
Proof.
  induction good as [|u good IH]; intros found Hok Hbad Hbreaks.
  - simpl. unfold breaks in Hbreaks. rewrite Hbad in *. by destruct e.
  - apply Forall_cons in Hok as [Hu Hok]. simpl.
    rewrite filter_cons. unfold breaks, lacks_key in *.
    destruct (chat_id_of getitem u) as [[| |k| |]|c]; simplify_eq; simpl.
    + by rewrite (IH found Hok Hbad Hbreaks).
    + by rewrite (IH (found ++ [c]) Hok Hbad Hbreaks).
Qed.

(** X17.  An update whose subscripts raise anything but a [KeyError] (a
    message that is [None], say) ends [test_bot] with that exception: the
    chat IDs collected so far are not returned, and the updates after it are
    not read. *)
Theorem test_bot_breaks user good bad rest e :
  Forall (λ u, breaks getitem u = false) good →
  chat_id_of getitem bad = inl e →
  breaks getitem bad = true →
  test_bot getitem show (inr user) (inr (good ++ bad :: rest)) =
    (Raise e,
     Printed (show user) ::
     replicate (length (filter (λ u, lacks_key getitem u = true) good))
       (RootLogged ERROR "Could not extract chat_id's to send notifications")).
Proof.
  intros Hok Hbad Hbreaks. unfold test_bot.
  by rewrite (collect_chat_ids_breaks good bad rest e [] Hok Hbad Hbreaks).
Qed.

End Discovery_properties.

(** ** Runs on the scripted platform *)

Import Sim.

Lemma find_new_listings_first_unknown_witness :
  let L := [room_a; room_b; room_a_again] in
  let s := start {[HStr "B"]} idle in
  Forall (λ l, is_Some (listing_key l)) L ∧
  let o := find_new_listings L s in
  res o = Ret (first_unknown (known_listings s) L) ∧
  known_listings (st o) = known_listings s ∪ keys L ∧
  st o = with_known s (known_listings s ∪ keys L) ∧
  evs o = found_log <$> first_unknown (known_listings s) L ∧
  (NoDup (omap listing_key L) →
     first_unknown (known_listings s) L = unknown (known_listings s) L).
Proof.
  intros L s.
  assert (Hwf : Forall (λ l, is_Some (listing_key l)) L)
    by (repeat constructor; by eexists).
  split; [exact Hwf|]. exact (find_new_listings_first_unknown L s Hwf).
Defined.

(** The listing [room_a_again] has an ID outside the known set, yet the
    loop does not return it: an earlier listing carries the same ID. *)
Lemma find_new_listings_misses_duplicate :
  let L := [room_a; room_a_again] in
  let o := find_new_listings L (start ∅ idle) in
  Forall (λ l, is_Some (listing_key l)) L ∧
  unknown ∅ L = [room_a; room_a_again] ∧
  res o = Ret [room_a] ∧
  res o ≠ Ret (unknown ∅ L).
Proof.
  intros L o. split; [repeat constructor; by eexists|].
  split; [by vm_compute|]. split; [by vm_compute|].
  vm_compute. discriminate.
Qed.

Example first_unknown_example :
  first_unknown {[HStr "B"]} [room_a; room_b; room_a_again] = [room_a].
Proof. by vm_compute. Qed.

Lemma find_new_listings_twice_witness :
  let L := [room_a; room_b; room_a_again] in
  let s := start {[HStr "B"]} idle in
  Forall (λ l, is_Some (listing_key l)) L ∧
  let o1 := find_new_listings L s in
  find_new_listings L (st o1) = Out (Ret []) (st o1) [].
Proof.
  intros L s.
  assert (Hwf : Forall (λ l, is_Some (listing_key l)) L)
    by (repeat constructor; by eexists).
  split; [exact Hwf|]. exact (find_new_listings_twice L s Hwf).
Defined.

Lemma send_telegram_notification_once_each_witness :
  let s := start ∅ (Script [] [None; Some "chat not found"]) in
  subscript room_a "id" = inr (JStr "A") ∧
  subscript room_a "urlKey" = inr (JStr "a") ∧
  subscript room_a "totalRent" = inr (JNum 500) ∧
  bot_new "TOKEN" = None ∧
  bot_initialize (world s) "TOKEN" = (world s, None) ∧
  let o := send_telegram_notification room_a "TOKEN" recipients s in
  let text := message_text (JStr "A") (JStr "a") (JNum 500) in
  res o = Ret () ∧
  sends (evs o) = (λ c, SendMessage "TOKEN" c text) <$> recipients ∧
  contains text (py_str (JStr "A")) ∧
  contains text (LISTINGS_URL +:+ "/details/" +:+ py_str (JStr "a")) ∧
  contains text (py_str (JNum 500)) ∧
  (∀ k, JStr "a" = JStr k → contains text (LISTINGS_URL +:+ "/details/" +:+ k)).
Proof.
  intros s. do 5 (split; [reflexivity|]).
  exact (send_telegram_notification_once_each room_a "TOKEN" recipients s
           (JStr "A") (JStr "a") (JNum 500) (world s)
           eq_refl eq_refl eq_refl eq_refl eq_refl).
Defined.

(** With the empty token the constructor of the bot raises before the text
    is built: the listing has its three fields and there are two recipients,
    yet nothing is handed to the bot and the call does not return. *)
Lemma send_telegram_notification_without_bot :
  let s := start ∅ (Script [] [None; Some "chat not found"]) in
  let o := send_telegram_notification room_a "" recipients s in
  let text := message_text (JStr "A") (JStr "a") (JNum 500) in
  subscript room_a "id" = inr (JStr "A") ∧
  subscript room_a "urlKey" = inr (JStr "a") ∧
  subscript room_a "totalRent" = inr (JNum 500) ∧
  res o = Raise (TelegramError
                   "You must pass the token you received from https://t.me/Botfather!") ∧
  sends (evs o) = [] ∧
  sends (evs o) ≠ (λ c, SendMessage "" c text) <$> recipients.
Proof.
  intros s o text. do 5 (split; [by vm_compute|]). vm_compute. discriminate.
Qed.

Example notification_text :
  message_text (JStr "A") (JStr "a") (JNum 500) =
  "New listing available at " +:+
  "https://www.klikvoorkamers.nl/en/offerings/now-for-rent/rooms/studios/details/a"
  +:+ nl +:+ "ID: A" +:+ nl +:+ "Price: 500".
Proof. by vm_compute. Qed.

Lemma apply_for_new_listing_outcomes_witness :
  let i := JStr "A" in
  let detail := Requested (POST LISTING_DETAILS_URL {["id" := i]}) in
  let token := Requested (GET REACTION_HASH_ID_URL) in
  let reaction := Requested (POST REACTION_URL (reaction_load (JStr "h2") 42 1)) in
  (let s := start ∅ world_already in
   subscript room_a "id" = inr i ∧
   http (world s) (headers s) (POST LISTING_DETAILS_URL {["id" := i]})
     = (idle, Answered (inr (details_json "remove" add_url))) ∧
   dig (details_json "remove" add_url) ["result"; "reactionData"]
     = inr (reaction_data "remove" add_url) ∧
   subscript (reaction_data "remove" add_url) "action" = inr (JStr "remove") ∧
   eq_str (JStr "remove") "add" = false ∧
   apply_for_new_listing room_a s =
     Out (Ret ()) (set_world s idle) [detail; outcome_line i AlreadyApplied]) ∧
  (let s := start ∅ (world_react false) in
   let o := apply_for_new_listing room_a s in
   truthy (JBool false) = false ∧
   requests (evs o) = [detail; token; reaction] ∧
   o = Out (Ret ()) (set_world s idle)
         (requests (evs o) ++ [outcome_line i (Failed None)])) ∧
  (let s := start ∅ (world_react true) in
   let o := apply_for_new_listing room_a s in
   truthy (JBool true) = true ∧
   requests (evs o) = [detail; token; reaction] ∧
   ∃ after, evs o = requests (evs o) ++ outcome_line i Applied :: after ∧
            requests after = [] ∧
            st o = set_world s idle ∧
            ∀ data, subscript (reaction_json true) "reactionData" = inr data →
              res o = Ret () ∧ after = [Logged DEBUG (py_str data)]).
Proof.
  intros i detail token reaction. split; [|split].
  - intros s. do 5 (split; [reflexivity|]).
    exact (proj1 (apply_for_new_listing_outcomes room_a i s idle
                    (details_json "remove" add_url) (reaction_data "remove" add_url)
                    (JStr "remove") eq_refl eq_refl eq_refl eq_refl) eq_refl).
  - intros s o. split; [reflexivity|].
    pose proof (proj2 (apply_for_new_listing_outcomes room_a i s
                    (Script [form_body "form" "h2"; reaction_body false] [])
                    (details_json "add" add_url) (reaction_data "add" add_url)
                    (JStr "add") eq_refl eq_refl eq_refl eq_refl) eq_refl
                  (JStr add_url) (Script [reaction_body false] []) (form_json "form" "h2")
                  (JStr "h2") 42 1 idle (reaction_json false) (JBool false)
                  eq_refl eq_refl eq_refl eq_refl eq_refl eq_refl eq_refl)
      as (Hreq & Hfailed & _).
    split; [exact Hreq|]. exact (Hfailed eq_refl).
  - intros s o. split; [reflexivity|].
    pose proof (proj2 (apply_for_new_listing_outcomes room_a i s
                    (Script [form_body "form" "h2"; reaction_body true] [])
                    (details_json "add" add_url) (reaction_data "add" add_url)
                    (JStr "add") eq_refl eq_refl eq_refl eq_refl) eq_refl
                  (JStr add_url) (Script [reaction_body true] []) (form_json "form" "h2")
                  (JStr "h2") 42 1 idle (reaction_json true) (JBool true)
                  eq_refl eq_refl eq_refl eq_refl eq_refl eq_refl eq_refl)
      as (Hreq & _ & Happlied).
    split; [exact Hreq|]. exact (Happlied eq_refl).
Defined.

Example apply_logs_applied :
  logs (evs (apply_for_new_listing room_a (start ∅ (world_react true)))) =
  [(INFO, "Successfully applied: A"); (DEBUG, "None")].
Proof. by vm_compute. Qed.

Lemma apply_failure_is_isolated_witness :
  let s := start ∅ world_refused in
  let i := JStr "A" in
  subscript room_a "id" = inr i ∧
  res (apply_steps room_a i s) = Raise (RequestException "timed out") ∧
  let attempt := apply_steps room_a i s in
  let failed := evs attempt ++ [outcome_line i (Failed (Some "timed out"))] in
  apply_for_new_listing room_a s = Out (Ret ()) (st attempt) failed ∧
  apply_and_notify (room_a :: [room_b]) "TOKEN" recipients s =
    prepend failed
      ((send_telegram_notification room_a "TOKEN" recipients;;
        apply_and_notify [room_b] "TOKEN" recipients) (st attempt)) ∧
  (∃ w ev_notify,
     send_telegram_notification room_a "TOKEN" recipients (st attempt)
       = Out (Ret ()) (set_world (st attempt) w) ev_notify ∧
     sends ev_notify =
       (λ c, SendMessage "TOKEN" c (message_text i (JStr "a") (JNum 500))) <$> recipients ∧
     apply_and_notify (room_a :: [room_b]) "TOKEN" recipients s =
       prepend (failed ++ ev_notify)
         (apply_and_notify [room_b] "TOKEN" recipients (set_world (st attempt) w))) ∧
  (∀ l' (s' : state script) x,
     res (apply_for_new_listing l' s') ≠ Raise (RequestException x)).
Proof.
  intros s i. do 2 (split; [reflexivity|]).
  pose proof (apply_failure_is_isolated room_a [room_b] "TOKEN" recipients s i
                "timed out" eq_refl eq_refl) as (Happly & Hloop & _ & Hnotify & Hout).
  split; [exact Happly|]. split; [exact Hloop|]. split; [|exact Hout].
  exact (Hnotify (JStr "a") (JNum 500) (world (st (apply_steps room_a i s)))
           eq_refl eq_refl eq_refl eq_refl).
Defined.

(** Two new listings with all their fields, the login succeeds, the detail
    request of the first listing is refused: the failure is logged, then the
    notification of that listing raises (the token is empty) and the
    exception leaves the cycle.  The second listing is neither applied for
    (the only detail request is the refused one) nor announced. *)
Lemma apply_failure_then_cycle_aborted :
  let s := start ∅ world_first_apply_fails in
  let o := check_for_new_listings "" recipients s in
  res (fetch_new_listings s) = Ret [room_a; room_b] ∧
  logs (evs o) = [(INFO, "New listing found: A");
                  (INFO, "New listing found: B");
                  (ERROR, "Error applying for listing A: timed out")] ∧
  res o = Raise (TelegramError
                   "You must pass the token you received from https://t.me/Botfather!") ∧
  requested (evs o) = [LISTINGS_URL; LISTINGS_API_URL; LOGIN_HASH_ID_URL; LOGIN_URL;
                       LISTING_DETAILS_URL] ∧
  sends (evs o) = [].
Proof.
  intros s o. by vm_compute.
Qed.

Lemma fetch_failure_skips_cycle_witness :
  let sa := start ∅ (Script [Refused "503 Server Error"] []) in
  let sb := start ∅ (Script [page; Refused "timed out"] []) in
  (http (world sa) (headers sa) (GET LISTINGS_URL) = (idle, Refused "503 Server Error") ∧
   check_for_new_listings "TOKEN" recipients sa =
     Out (Ret (known_listings sa)) (set_world sa idle)
         [Requested (GET LISTINGS_URL);
          Logged ERROR ("Error checking for new listings: " +:+ "503 Server Error")]) ∧
  (http (world sb) (headers sb) (GET LISTINGS_URL)
     = (Script [Refused "timed out"] [], Answered page_html) ∧
   http (Script [Refused "timed out"] []) (<["referer" := LISTINGS_URL]> (headers sb))
        (GET LISTINGS_API_URL) = (idle, Refused "timed out") ∧
   check_for_new_listings "TOKEN" recipients sb =
     Out (Ret (known_listings sb)) (warmed_up sb idle)
         [Requested (GET LISTINGS_URL); Requested (GET LISTINGS_API_URL);
          Logged ERROR ("Error checking for new listings: " +:+ "timed out")]).
Proof.
  intros sa sb. split.
  - split; [reflexivity|].
    exact (proj1 (fetch_failure_skips_cycle "TOKEN" recipients sa) idle
             "503 Server Error" eq_refl).
  - split; [reflexivity|]. split; [reflexivity|].
    exact (proj2 (fetch_failure_skips_cycle "TOKEN" recipients sb)
             (Script [Refused "timed out"] []) page_html idle "timed out"
             eq_refl eq_refl).
Defined.

Lemma no_new_listings_no_login_witness :
  let s := start {[HStr "A"]} world_nothing_new in
  let s1 := st (fetch_new_listings s) in
  let ev := evs (fetch_new_listings s) in
  fetch_new_listings s = Out (Ret []) s1 ev ∧
  check_for_new_listings "TOKEN" recipients s = Out (Ret (known_listings s1)) s1 ev ∧
  Forall fetch_event ev ∧
  sends ev = [] ∧
  Requested (GET LOGIN_HASH_ID_URL) ∉ ev.
Proof.
  intros s s1 ev.
  assert (Hf : fetch_new_listings s = Out (Ret []) s1 ev) by (by vm_compute).
  split; [exact Hf|]. exact (no_new_listings_no_login "TOKEN" recipients s s1 ev Hf).
Defined.

Lemma login_rejected_skips_applies_witness :
  let s := start ∅ world_login_rejected in
  let s1 := st (fetch_new_listings s) in
  let ev1 := evs (fetch_new_listings s) in
  let w2 := Script [logged_in_body false] [] in
  let data := <["__hash__" := JStr "h1"]> (login_load s1) in
  fetch_new_listings s = Out (Ret [room_a]) s1 ev1 ∧
  [room_a] ≠ [] ∧
  http (world s1) (headers s1) (GET LOGIN_HASH_ID_URL)
    = (w2, Answered (inr (form_json "loginForm" "h1"))) ∧
  dig (form_json "loginForm" "h1") ["loginForm"; "elements"; "__hash__"; "initialData"]
    = inr (JStr "h1") ∧
  http w2 (headers s1) (POST LOGIN_URL data) = (idle, Answered (inr (logged_in_json false))) ∧
  subscript (logged_in_json false) "loggedIn" = inr (JBool false) ∧
  truthy (JBool false) = false ∧
  let o := check_for_new_listings "TOKEN" recipients s in
  o = Out (Ret (known_listings s1)) (logged s1 (JStr "h1") idle)
          (ev1 ++ [Requested (GET LOGIN_HASH_ID_URL);
                   Requested (POST LOGIN_URL data);
                   Logged WARNING ("Could not login: " +:+ py_str (logged_in_json false))]) ∧
  (∀ l, l ∈ [room_a] → ∃ k, listing_key l = Some k ∧ k ∈ known_listings s1) ∧
  Forall before_apply (evs o) ∧
  sends (evs o) = [].
Proof.
  intros s s1 ev1 w2 data.
  assert (Hf : fetch_new_listings s = Out (Ret [room_a]) s1 ev1) by (by vm_compute).
  assert (Hnew : [room_a] ≠ []) by discriminate.
  assert (Hc : http (world s1) (headers s1) (GET LOGIN_HASH_ID_URL)
               = (w2, Answered (inr (form_json "loginForm" "h1")))) by (by vm_compute).
  split; [exact Hf|]. split; [exact Hnew|]. split; [exact Hc|].
  do 4 (split; [reflexivity|]).
  exact (login_rejected_skips_applies "TOKEN" recipients s s1 [room_a] ev1 w2
           (form_json "loginForm" "h1") (JStr "h1") idle (logged_in_json false)
           (JBool false) Hf Hnew Hc eq_refl eq_refl eq_refl eq_refl).
Defined.


Lemma known_listings_never_shrink_witness :
  let s := start {[HStr "Z"]} world_first_apply_fails in
  let o := check_for_new_listings "TOKEN" recipients s in
  known_listings s ⊆ known_listings (st o) ∧
  (∀ known, res o = Ret known →
     known = known_listings (st o) ∧ known_listings s ⊆ known) ∧
  (∀ e, res o = Raise e →
     res (check_steps "TOKEN" recipients s) = Raise e ∧ ∀ x, e ≠ RequestException x) ∧
  (∀ n, known_listings s ⊆ known_listings (st (cycles n "TOKEN" recipients s))).
Proof.
  exact (known_listings_never_shrink "TOKEN" recipients
           (start {[HStr "Z"]} world_first_apply_fails)).
Defined.

(** *** The end-to-end scenarios of the specification *)

Example scenario_1 :
  let o := check_for_new_listings "TOKEN" [JStr "c1"] (start ∅ world_applied) in
  res o = Ret {[HStr "A"]} ∧
  logs (evs o) = [(INFO, "New listing found: A");
                  (INFO, "Successfully applied: A");
                  (DEBUG, "None");
                  (INFO, "Notification sent for listing ID: A")] ∧
  requested (evs o) = [LISTINGS_URL; LISTINGS_API_URL; LOGIN_HASH_ID_URL; LOGIN_URL;
                       LISTING_DETAILS_URL; REACTION_HASH_ID_URL; REACTION_URL] ∧
  sends (evs o) = [SendMessage "TOKEN" (JStr "c1")
                     (message_text (JStr "A") (JStr "a") (JNum 500))].
Proof. by vm_compute. Qed.

Example scenario_2 :
  let o := check_for_new_listings "TOKEN" [JStr "c1"]
             (start {[HStr "A"]} world_nothing_new) in
  res o = Ret {[HStr "A"]} ∧
  logs (evs o) = [] ∧
  requested (evs o) = [LISTINGS_URL; LISTINGS_API_URL] ∧
  sends (evs o) = [].
Proof. by vm_compute. Qed.

Example scenario_3 :
  let o := check_for_new_listings "TOKEN" [JStr "c1"] (start ∅ world_login_rejected) in
  res o = Ret {[HStr "A"]} ∧
  logs (evs o) = [(INFO, "New listing found: A"); (WARNING, "Could not login: {...}")] ∧
  requested (evs o) = [LISTINGS_URL; LISTINGS_API_URL; LOGIN_HASH_ID_URL; LOGIN_URL] ∧
  sends (evs o) = [].
Proof. by vm_compute. Qed.

Example scenario_4 :
  let o := check_for_new_listings "TOKEN" [JStr "c1"] (start ∅ world_first_apply_fails) in
  res o = Ret {[HStr "A"; HStr "B"]} ∧
  logs (evs o) = [(INFO, "New listing found: A");
                  (INFO, "New listing found: B");
                  (ERROR, "Error applying for listing A: timed out");
                  (ERROR, "Error sending notification: chat not found");
                  (INFO, "Successfully applied: B");
                  (DEBUG, "None");
                  (INFO, "Notification sent for listing ID: B")] ∧
  requested (evs o) = [LISTINGS_URL; LISTINGS_API_URL; LOGIN_HASH_ID_URL; LOGIN_URL;
                       LISTING_DETAILS_URL;
                       LISTING_DETAILS_URL; REACTION_HASH_ID_URL; REACTION_URL] ∧
  sends (evs o) = [SendMessage "TOKEN" (JStr "c1")
                     (message_text (JStr "A") (JStr "a") (JNum 500));
                   SendMessage "TOKEN" (JStr "c1")
                     (message_text (JStr "B") (JStr "b") (JNum 650))].
Proof. by vm_compute. Qed.

(** The listing found in a cycle whose login request is refused is skipped
    in the next round, where only the other listing is applied for and
    announced. *)
Example abandoned_listing :
  let o := cycles 2 "TOKEN" [JStr "c1"] (start ∅ world_login_refused) in
  res o = Ret () ∧
  known_listings (st o) = {[HStr "A"; HStr "B"]} ∧
  logs (evs o) = [(INFO, "New listing found: A");
                  (ERROR, "Error checking for new listings: timed out");
                  (INFO, "New listing found: B");
                  (INFO, "Already applied? B");
                  (INFO, "Notification sent for listing ID: B")] ∧
  sends (evs o) = [SendMessage "TOKEN" (JStr "c1")
                     (message_text (JStr "B") (JStr "b") (JNum 650))].
Proof. by vm_compute. Qed.

(** *** Further runs *)

Lemma apply_refused_at_each_step_witness :
  let i := JStr "A" in
  let token := Requested (GET REACTION_HASH_ID_URL) in
  (let s := start ∅ (Script [Refused "timed out"] []) in
   subscript room_a "id" = inr i ∧
   http (world s) (headers s) (POST LISTING_DETAILS_URL {["id" := i]})
     = (idle, Refused "timed out") ∧
   apply_for_new_listing room_a s =
     Out (Ret ()) (set_world s idle)
         [detail_request i; outcome_line i (Failed (Some "timed out"))]) ∧
  (let s := start ∅ (Script [details_body "add" add_url; Refused "502 Bad Gateway"] []) in
   eq_str (JStr "add") "add" = true ∧
   apply_for_new_listing room_a s =
     Out (Ret ()) (set_world s idle)
         [detail_request i; token; outcome_line i (Failed (Some "502 Bad Gateway"))]) ∧
  (let s := start ∅ (Script [details_body "add" add_url; form_body "form" "h2";
                             Refused "timed out"] []) in
   query_int (JStr add_url) "dwellingID" = inr 42 ∧
   apply_for_new_listing room_a s =
     Out (Ret ()) (set_world s idle)
         [detail_request i; token;
          Requested (POST REACTION_URL (reaction_load (JStr "h2") 42 1));
          outcome_line i (Failed (Some "timed out"))]).
Proof.
  intros i token. split; [|split].
  - intros s. split; [reflexivity|]. split; [reflexivity|].
    exact (proj1 (apply_refused_at_each_step room_a i s eq_refl) idle "timed out" eq_refl).
  - intros s. split; [reflexivity|].
    exact (proj1 (proj2 (apply_refused_at_each_step room_a i s eq_refl))
             (Script [Refused "502 Bad Gateway"] []) (details_json "add" add_url)
             (reaction_data "add" add_url) (JStr "add") (JStr add_url) idle
             "502 Bad Gateway" eq_refl eq_refl eq_refl eq_refl eq_refl eq_refl).
  - intros s. split; [reflexivity|].
    exact (proj2 (proj2 (apply_refused_at_each_step room_a i s eq_refl))
             (Script [form_body "form" "h2"; Refused "timed out"] [])
             (details_json "add" add_url) (reaction_data "add" add_url) (JStr "add")
             (JStr add_url) (Script [Refused "timed out"] []) (form_json "form" "h2")
             (JStr "h2") 42 1 idle "timed out"
             eq_refl eq_refl eq_refl eq_refl eq_refl eq_refl eq_refl eq_refl eq_refl
             eq_refl).
Defined.

Lemma apply_malformed_detail_propagates_witness :
  let s := start ∅ (Script [Answered (inr details_no_reaction)] []) in
  let i := JStr "A" in
  subscript room_a "id" = inr i ∧
  http (world s) (headers s) (POST LISTING_DETAILS_URL {["id" := i]})
    = (idle, Answered (inr details_no_reaction)) ∧
  dig details_no_reaction ["result"; "reactionData"; "action"]
    = inl (KeyError "reactionData") ∧
  apply_for_new_listing room_a s =
    Out (Raise (KeyError "reactionData")) (set_world s idle) [detail_request i] ∧
  ∀ x, KeyError "reactionData" ≠ RequestException x.
Proof.
  intros s i. do 3 (split; [reflexivity|]).
  exact (apply_malformed_detail_propagates room_a i s idle details_no_reaction
           (KeyError "reactionData") eq_refl eq_refl eq_refl).
Defined.

Lemma apply_bad_url_sends_no_reaction_witness :
  let s := start ∅ (Script [details_body "add" bad_url; form_body "form" "h2";
                            reaction_body true] []) in
  let i := JStr "A" in
  let w2 := Script [reaction_body true] [] in
  subscript room_a "id" = inr i ∧
  http (world s) (headers s) (POST LISTING_DETAILS_URL {["id" := i]})
    = (Script [form_body "form" "h2"; reaction_body true] [],
       Answered (inr (details_json "add" bad_url))) ∧
  query_int (JStr bad_url) "dwellingID" = inl (KeyError "dwellingID") ∧
  apply_for_new_listing room_a s =
    Out (Raise (KeyError "dwellingID")) (set_world s w2)
        [detail_request i; Requested (GET REACTION_HASH_ID_URL)].
Proof.
  intros s i w2. do 3 (split; [reflexivity|]).
  refine (apply_bad_url_sends_no_reaction room_a i s
            (Script [form_body "form" "h2"; reaction_body true] [])
            (details_json "add" bad_url) (reaction_data "add" bad_url) (JStr "add")
            (JStr bad_url) w2 (form_json "form" "h2") (JStr "h2") (KeyError "dwellingID")
            eq_refl eq_refl eq_refl eq_refl eq_refl eq_refl eq_refl eq_refl
            (or_introl eq_refl) _).
  intros x. discriminate.
Defined.

Lemma notification_missing_field_witness :
  let s := start ∅ idle in
  subscript room_no_url "id" = inr (JStr "C") ∧
  subscript room_no_url "urlKey" = inl (KeyError "urlKey") ∧
  bot_new "TOKEN" = None ∧
  send_telegram_notification room_no_url "TOKEN" recipients s
    = Out (Raise (KeyError "urlKey")) s [] ∧
  ∀ x, KeyError "urlKey" ≠ RequestException x.
Proof.
  intros s. do 3 (split; [reflexivity|]).
  exact (notification_missing_field room_no_url "TOKEN" recipients s (KeyError "urlKey")
           eq_refl
           (or_intror (ex_intro _ (JStr "C") (conj eq_refl (or_introl eq_refl))))).
Defined.

Lemma has_fields_listing i u rent : has_fields (listing i u rent).
Proof. split; [|split]; eexists; reflexivity. Defined.

Lemma notification_logs_once_each_witness :
  let s := start {[HStr "A"]} (Script [] [Some "chat not found"; None]) in
  has_fields room_a ∧
  bot_new "TOKEN" = None ∧
  bot_initialize (world s) "TOKEN" = (world s, None) ∧
  let o := send_telegram_notification room_a "TOKEN" recipients s in
  length (logs (evs o)) = length recipients ∧
  requests (evs o) = [] ∧
  headers (st o) = headers s ∧
  login_load (st o) = login_load s ∧
  known_listings (st o) = known_listings s.
Proof.
  intros s. split; [apply has_fields_listing|]. do 2 (split; [reflexivity|]).
  exact (notification_logs_once_each room_a "TOKEN" recipients s (world s)
           (has_fields_listing "A" "a" 500) eq_refl eq_refl).
Defined.

Lemma apply_and_notify_messages_witness :
  let s := start ∅ world_refused in
  let news := [room_a; room_b] in
  Forall has_fields news ∧
  let o := apply_and_notify news "TOKEN" recipients s in
  sends (evs o) `prefix_of` (news ≫= notifications "TOKEN" recipients) ∧
  (res o = Ret () → sends (evs o) = news ≫= notifications "TOKEN" recipients).
Proof.
  intros s news.
  assert (Hwf : Forall has_fields news)
    by (repeat constructor; apply has_fields_listing).
  split; [exact Hwf|].
  exact (apply_and_notify_messages news "TOKEN" recipients s Hwf).
Defined.

Lemma apply_and_notify_stops_at_malformed_witness :
  let s := start ∅ (Script [details_body "remove" add_url; details_body "add" add_url] []) in
  subscript room_no_url "id" = inr (JStr "C") ∧
  subscript room_no_url "urlKey" = inl (KeyError "urlKey") ∧
  bot_new "TOKEN" = None ∧
  res (apply_for_new_listing room_no_url s) = Ret () ∧
  apply_and_notify (room_no_url :: [room_b]) "TOKEN" recipients s =
    Out (Raise (KeyError "urlKey")) (st (apply_for_new_listing room_no_url s))
        (evs (apply_for_new_listing room_no_url s)).
Proof.
  intros s. do 3 (split; [reflexivity|]).
  assert (Hres : res (apply_for_new_listing room_no_url s) = Ret ()) by (by vm_compute).
  split; [exact Hres|].
  exact (apply_and_notify_stops_at_malformed room_no_url [room_b] "TOKEN" recipients s
           (JStr "C") (KeyError "urlKey") eq_refl eq_refl (or_introl eq_refl) Hres).
Defined.

Lemma notification_bot_failure_witness :
  let s := start ∅ (Script [details_body "remove" add_url] [None; None]) in
  let s1 := set_world s (Script [] [None; None]) in
  let invalid := "You must pass the token you received from https://t.me/Botfather!" in
  let rejected := "The token `REVOKED` was rejected by the server." in
  (bot_new "" = Some invalid ∧
   send_telegram_notification room_no_url "" recipients s
     = Out (Raise (TelegramError invalid)) s []) ∧
  (has_fields room_a ∧ bot_new "REVOKED" = None ∧
   bot_initialize (world s) "REVOKED" = (world s, Some rejected) ∧
   send_telegram_notification room_a "REVOKED" recipients s
     = Out (Raise (TelegramError rejected)) (set_world s (world s)) []) ∧
  (apply_for_new_listing room_a s
     = Out (Ret ()) s1 [detail_request (JStr "A"); outcome_line (JStr "A") AlreadyApplied] ∧
   res (send_telegram_notification room_a "REVOKED" recipients s1)
     = Raise (TelegramError rejected) ∧
   let notify := send_telegram_notification room_a "REVOKED" recipients s1 in
   apply_and_notify (room_a :: [room_b]) "REVOKED" recipients s
     = Out (Raise (TelegramError rejected)) (st notify)
           ([detail_request (JStr "A"); outcome_line (JStr "A") AlreadyApplied]
            ++ evs notify)).
Proof.
  intros s s1 invalid rejected. split; [|split].
  - split; [reflexivity|].
    exact (proj1 (notification_bot_failure room_no_url "" recipients s) invalid eq_refl).
  - split; [apply has_fields_listing|]. do 2 (split; [reflexivity|]).
    exact (proj1 (proj2 (proj2 (notification_bot_failure room_a "REVOKED" recipients s)))
             (world s) rejected (has_fields_listing "A" "a" 500) eq_refl eq_refl).
  - assert (Happly : apply_for_new_listing room_a s
              = Out (Ret ()) s1 [detail_request (JStr "A");
                                 outcome_line (JStr "A") AlreadyApplied])
      by reflexivity.
    split; [exact Happly|]. split; [reflexivity|].
    exact (proj2 (proj2 (proj2 (proj2
             (notification_bot_failure room_a "REVOKED" recipients s))))
             [room_b] (TelegramError rejected) s1 _ Happly eq_refl).
Defined.

Lemma new_listings_distinct_witness :
  let L := [room_a; room_b; room_a_again] in
  let s := start {[HStr "B"]} idle in
  res (find_new_listings L s) = Ret [room_a] ∧
  NoDup (omap listing_key [room_a]) ∧
  all_outside (known_listings s) [room_a] ∧
  [room_a] `sublist_of` L.
Proof.
  intros L s.
  assert (Hres : res (find_new_listings L s) = Ret [room_a]) by (by vm_compute).
  split; [exact Hres|]. exact (new_listings_distinct L s [room_a] Hres).
Defined.

Lemma nothing_new_leaves_store_witness :
  let L := [room_a; room_a_again] in
  let s := start {[HStr "A"]} idle in
  res (find_new_listings L s) = Ret [] ∧
  find_new_listings L s = Out (Ret []) s [].
Proof.
  intros L s.
  assert (Hres : res (find_new_listings L s) = Ret []) by (by vm_compute).
  split; [exact Hres|]. exact (nothing_new_leaves_store L s Hres).
Defined.

Lemma find_new_listings_stops_at_malformed_witness :
  let s := start ∅ idle in
  Forall (λ l, is_Some (listing_key l)) [room_a] ∧
  listing_key room_no_id = None ∧
  ∃ e,
    find_new_listings ([room_a] ++ room_no_id :: [room_b]) s =
      Out (Raise e)
          (with_known s (known_listings s ∪ keys [room_a]))
          (found_log <$> first_unknown (known_listings s) [room_a]) ∧
    ∀ x, e ≠ RequestException x.
Proof.
  intros s.
  assert (Hgood : Forall (λ l, is_Some (listing_key l)) [room_a])
    by (repeat constructor; by eexists).
  split; [exact Hgood|]. split; [reflexivity|].
  exact (find_new_listings_stops_at_malformed [room_a] room_no_id [room_b] s
           Hgood eq_refl).
Defined.

Lemma malformed_listings_propagate_witness :
  let s := start {[HStr "A"]} (Script [page; Answered (inr (JObj []))] []) in
  let w1 := Script [Answered (inr (JObj []))] [] in
  http (world s) (headers s) (GET LISTINGS_URL) = (w1, Answered page_html) ∧
  http w1 (<["referer" := LISTINGS_URL]> (headers s)) (GET LISTINGS_API_URL)
    = (idle, Answered (inr (JObj []))) ∧
  subscript (JObj []) "result" = inl (KeyError "result") ∧
  check_for_new_listings "TOKEN" recipients s =
    Out (Raise (KeyError "result")) (warmed_up s idle)
        [Requested (GET LISTINGS_URL); Requested (GET LISTINGS_API_URL)] ∧
  (∀ x, KeyError "result" ≠ RequestException x).
Proof.
  intros s w1. do 3 (split; [reflexivity|]).
  exact (malformed_listings_propagate "TOKEN" recipients s w1 page_html idle (JObj [])
           (KeyError "result") eq_refl eq_refl (or_introl eq_refl)).
Defined.

Lemma cycle_known_is_union_witness :
  let s := start {[HStr "B"]} world_first_apply_fails in
  let L := [room_a; room_b] in
  Forall (λ l, is_Some (listing_key l)) L ∧
  py_iter (JArr L) = inr L ∧
  known_listings (st (check_for_new_listings "TOKEN" recipients s))
  = known_listings s ∪ keys L.
Proof.
  intros s L.
  assert (Hwf : Forall (λ l, is_Some (listing_key l)) L)
    by (repeat constructor; by eexists).
  split; [exact Hwf|]. split; [reflexivity|].
  exact (cycle_known_is_union "TOKEN" recipients s
           (Script (tail (answers world_first_apply_fails)) [Some "chat not found"])
           page_html
           (Script (tail (tail (answers world_first_apply_fails))) [Some "chat not found"])
           (JObj [("result", JArr L)]) (JArr L) L
           eq_refl eq_refl eq_refl eq_refl Hwf).
Defined.

Lemma logged_in_runs_applies_witness :
  let s := start ∅ world_applied in
  let s1 := st (fetch_new_listings s) in
  let ev1 := evs (fetch_new_listings s) in
  let w2 := Script (tail (answers (world s1))) [] in
  let w3 := Script (tail (answers w2)) [] in
  let data := <["__hash__" := JStr "h1"]> (login_load s1) in
  fetch_new_listings s = Out (Ret [room_a]) s1 ev1 ∧
  [room_a] ≠ [] ∧
  http (world s1) (headers s1) (GET LOGIN_HASH_ID_URL)
    = (w2, Answered (inr (form_json "loginForm" "h1"))) ∧
  http w2 (headers s1) (POST LOGIN_URL data) = (w3, Answered (inr (logged_in_json true))) ∧
  truthy (JBool true) = true ∧
  let before := ev1 ++ [Requested (GET LOGIN_HASH_ID_URL);
                        Requested (POST LOGIN_URL data)] in
  let loop := apply_and_notify [room_a] "TOKEN" recipients (logged s1 (JStr "h1") w3) in
  check_steps "TOKEN" recipients s = prepend before loop ∧
  (res loop = Ret () →
   check_for_new_listings "TOKEN" recipients s =
     Out (Ret (known_listings s1)) (st loop) (before ++ evs loop)).
Proof.
  intros s s1 ev1 w2 w3 data.
  assert (Hf : fetch_new_listings s = Out (Ret [room_a]) s1 ev1) by (by vm_compute).
  assert (Hnew : [room_a] ≠ []) by discriminate.
  assert (Hc : http (world s1) (headers s1) (GET LOGIN_HASH_ID_URL)
               = (w2, Answered (inr (form_json "loginForm" "h1")))) by (by vm_compute).
  assert (Hp : http w2 (headers s1) (POST LOGIN_URL data)
               = (w3, Answered (inr (logged_in_json true)))) by (by vm_compute).
  split; [exact Hf|]. split; [exact Hnew|]. split; [exact Hc|]. split; [exact Hp|].
  split; [reflexivity|].
  exact (logged_in_runs_applies "TOKEN" recipients s s1 [room_a] ev1 w2
           (form_json "loginForm" "h1") (JStr "h1") w3 (logged_in_json true)
           (JBool true) Hf Hnew Hc eq_refl Hp eq_refl eq_refl).
Defined.


Lemma persisted_sets_grow_witness :
  let s := start {[HStr "Z"]} world_login_refused in
  let o := cycles 2 "TOKEN" recipients s in
  StronglySorted (⊆) (persisted (evs o)) ∧
  Forall (λ ids, known_listings s ⊆ ids) (persisted (evs o)) ∧
  Forall (λ secs, secs = 600) (slept (evs o)) ∧
  (res o = Ret () → length (persisted (evs o)) = 2%nat ∧ length (slept (evs o)) = 2%nat).
Proof.
  exact (persisted_sets_grow 2 "TOKEN" recipients
           (start {[HStr "Z"]} world_login_refused)).
Defined.

Example persisted_example :
  persisted (evs (cycles 2 "TOKEN" recipients (start {[HStr "Z"]} world_login_refused)))
  = [{[HStr "Z"; HStr "A"]}; {[HStr "Z"; HStr "A"; HStr "B"]}].
Proof. by vm_compute. Qed.

Lemma test_bot_collects_witness :
  let updates := [update 11; update_no_message; update 33] in
  Forall (λ u, breaks subscript u = false) updates ∧
  test_bot subscript sim_str (inr (JStr "bot")) (inr updates) =
    (Ret (omap (chat_id_found subscript) updates),
     Printed (sim_str (JStr "bot")) ::
     replicate (length (filter (λ u, lacks_key subscript u = true) updates))
       (RootLogged ERROR "Could not extract chat_id's to send notifications")).
Proof.
  intros updates.
  assert (Hok : Forall (λ u, breaks subscript u = false) updates)
    by (repeat constructor).
  split; [exact Hok|].
  exact (test_bot_collects subscript sim_str (JStr "bot") updates Hok).
Defined.

Example test_bot_example :
  test_bot subscript sim_str (inr (JStr "bot"))
    (inr [update 11; update_no_message; update 33]) =
  (Ret [JNum 11; JNum 33],
   [Printed "bot";
    RootLogged ERROR "Could not extract chat_id's to send notifications"]).
Proof. by vm_compute. Qed.

Lemma test_bot_breaks_witness :
  let good := [update 11; update_no_message] in
  Forall (λ u, breaks subscript u = false) good ∧
  chat_id_of subscript update_none_message = inl TypeError ∧
  breaks subscript update_none_message = true ∧
  test_bot subscript sim_str (inr (JStr "bot"))
    (inr (good ++ update_none_message :: [update 33])) =
    (Raise TypeError,
     Printed (sim_str (JStr "bot")) ::
     replicate (length (filter (λ u, lacks_key subscript u = true) good))
       (RootLogged ERROR "Could not extract chat_id's to send notifications")).
Proof.
  intros good.
  assert (Hok : Forall (λ u, breaks subscript u = false) good)
    by (repeat constructor).
  split; [exact Hok|]. do 2 (split; [reflexivity|]).
  exact (test_bot_breaks subscript sim_str (JStr "bot") good update_none_message
           [update 33] TypeError Hok eq_refl eq_refl).
Defined.
